(** * starlight-site-graph: the integration hooks and the colour / URL helpers

    A shallow embedding of
      - [packages/starlight-site-graph/color.ts]
        ([sanitizeColorValue], [getHexColor], [sanitizeURL]), and
      - the integration entry point (the hooks [astro:config:setup] and
        [astro:build:done]), with [JSON.stringify] as it serializes the
        sitemap,
    together with the properties the specification states about them.
    Further parts embed the rest of [color.ts] ([getGraphColors] with its two
    tables, [sanitizeHTML]) and the [transform] of the compatibility plugin,
    and state what the hooks and the helpers guarantee beyond that.

    The hooks are written in a state and exception monad over the variables
    they close over; every call on a collaborator (logger, host, file system,
    builder) is recorded in a trace.  The builder class, [processSitemap] and
    [trimSlashes] are imported by the hooks from modules that are not among
    the sources: the hooks take them as an interface, and module [SiteMap]
    gives the builder the specification describes.

    JavaScript strings are sequences of UTF-16 code units; they are modelled
    as lists of numbers so that the white-space class of [trim] and of the
    regular expression [\s] can be written out in full. *)

From Stdlib Require Import List NArith ZArith Bool Ascii String Lia.
Import ListNotations.

Set Implicit Arguments.

(* ================================================================== *)
(** * JavaScript strings *)
(* ================================================================== *)

Module Js.

Definition codeunit := N.
Definition jsstring := list codeunit.

(** A literal of the source, given as a Rocq string of ASCII characters. *)
Definition lit (s : string) : jsstring :=
  map N_of_ascii (list_ascii_of_string s).

Open Scope N_scope.

Fixpoint eqb (a b : jsstring) : bool :=
  match a, b with
  | [], [] => true
  | x :: a', y :: b' => N.eqb x y && eqb a' b'
  | _, _ => false
  end.

(** [!s] for a string [s]: only the empty string is falsy. *)
Definition isEmpty (s : jsstring) : bool :=
  match s with [] => true | _ => false end.

(** WhiteSpace and LineTerminator of ECMAScript: the class removed by
    [String.prototype.trim] and matched by [\s]. *)
Definition is_space (c : codeunit) : bool :=
  existsb (N.eqb c)
    [9; 10; 11; 12; 13; 32; 160; 5760; 8232; 8233; 8239; 8287; 12288; 65279]
  || ((8192 <=? c) && (c <=? 8202)).

Fixpoint trimStart (s : jsstring) : jsstring :=
  match s with
  | [] => []
  | c :: t => if is_space c then trimStart t else s
  end.

Definition trimEnd (s : jsstring) : jsstring := rev (trimStart (rev s)).

Definition trim (s : jsstring) : jsstring := trimEnd (trimStart s).

Fixpoint startsWith (pat s : jsstring) : bool :=
  match pat, s with
  | [], _ => true
  | p :: pat', c :: s' => N.eqb p c && startsWith pat' s'
  | _ :: _, [] => false
  end.

(** [s.includes(pat)] *)
Fixpoint includes (pat s : jsstring) : bool :=
  startsWith pat s ||
  match s with
  | [] => false
  | _ :: t => includes pat t
  end.

(** Case folding of a regular expression with the [i] flag and without the
    [u] flag, as far as ASCII pattern characters are concerned: a code unit of
    128 or more never folds to an ASCII one, so it is left alone here. *)
Definition ascii_upper (c : codeunit) : codeunit :=
  if (97 <=? c) && (c <=? 122) then c - 32 else c.

Definition ci_match (p c : codeunit) : bool :=
  N.eqb (ascii_upper p) (ascii_upper c).

(** Match [pat] case-insensitively at the head of [s]; the rest on success. *)
Fixpoint strip_prefix_ci (pat s : jsstring) : option jsstring :=
  match pat, s with
  | [], _ => Some s
  | p :: pat', c :: s' => if ci_match p c then strip_prefix_ci pat' s' else None
  | _ :: _, [] => None
  end.

(** [n.toString()] for a non-negative integer. *)
Fixpoint digits (fuel : nat) (n : N) (acc : jsstring) : jsstring :=
  match fuel with
  | O => acc
  | S fuel' =>
      let acc' := (48 + n mod 10) :: acc in
      if n <? 10 then acc' else digits fuel' (n / 10) acc'
  end.

Definition of_N (n : N) : jsstring := digits (S (N.to_nat (N.log2 n))) n [].

Definition of_nat (n : nat) : jsstring := of_N (N.of_nat n).

(** An occurrence of [pat] inside [s]. *)
Definition Infix (pat s : jsstring) : Prop :=
  exists l r, s = l ++ pat ++ r.

End Js.

Import Js.
Open Scope N_scope.
Open Scope list_scope.

(* ================================================================== *)
(** * Thrown values *)
(* ================================================================== *)

(** An [Error] object, as far as the code reads it. *)
Record Error := mkError { message : jsstring; stack : option jsstring }.

(** What a [catch] clause may receive: an [Error] instance, or any other
    value, of which only [String(e)] is used. *)
Inductive thrown :=
  | ThrownError (e : Error)
  | ThrownOther (text : jsstring).

Inductive Result (A : Type) :=
  | Ok (a : A)
  | Throw (e : thrown).
Arguments Ok {A} a.
Arguments Throw {A} e.

(* ================================================================== *)
(** * color.ts *)
(* ================================================================== *)

Module Color.

Definition IMPORTANT : jsstring := Eval cbv in lit "!important".
Definition VAR_OPEN : jsstring := Eval cbv in lit "var(".
Definition NONE : jsstring := Eval cbv in lit "none".
Definition TRANSPARENT : jsstring := Eval cbv in lit "transparent".
Definition INHERIT : jsstring := Eval cbv in lit "inherit".
Definition INITIAL : jsstring := Eval cbv in lit "initial".
Definition UNSET : jsstring := Eval cbv in lit "unset".
Definition RGBA_ZERO : jsstring := Eval cbv in lit "rgba(0, 0, 0, 0)".
Definition BLACK : jsstring := Eval cbv in lit "#000000".
Definition HASH : jsstring := Eval cbv in lit "#".
Definition HTTP : jsstring := Eval cbv in lit "http:".
Definition HTTPS : jsstring := Eval cbv in lit "https:".

(** Does the whole of [s] match [\s*!important\s*$] (flag [i])? *)
Definition tail_matches (s : jsstring) : bool :=
  match strip_prefix_ci IMPORTANT (trimStart s) with
  | Some rest => forallb is_space rest
  | None => false
  end.

(** [s.replace(/\s*!important\s*$/i, '')]: the leftmost position from which
    the rest of the string matches is where the string is cut. *)
Fixpoint replace_important (s : jsstring) : jsstring :=
  if tail_matches s then []
  else match s with
       | [] => []
       | c :: t => c :: replace_important t
       end.

(** [sanitizeColorValue(color)].  The argument is [None] for a value that is
    not a string (the run-time guard [typeof color !== 'string']); the result
    is [None] for [null]. *)
Definition sanitizeColorValue (color : option jsstring) : option jsstring :=
  match color with
  | None => None
  | Some color =>
      if isEmpty color then None
      else
        let trimmed := trim color in
        if Nat.eqb (List.length trimmed) 0 then None
        else
          let cleaned := replace_important trimmed in
          if includes VAR_OPEN cleaned then None
          else if eqb cleaned NONE || eqb cleaned TRANSPARENT
                  || eqb cleaned INHERIT || eqb cleaned INITIAL
                  || eqb cleaned UNSET
               then if eqb cleaned TRANSPARENT then Some RGBA_ZERO else None
               else Some cleaned
  end.

(** The three marks [isDarkReaderActive] looks for in the document. *)
Record Document := mkDocument {
  meta_darkreader : bool;
  attr_darkreader_mode : bool;
  attr_darkreader_scheme : bool
}.

Definition isDarkReaderActive (d : Document) : bool :=
  meta_darkreader d || attr_darkreader_mode d || attr_darkreader_scheme d.

(** [e instanceof Error ? e.message : e] inside a template literal. *)
Definition thrown_text (e : thrown) : jsstring :=
  match e with
  | ThrownError err => message err
  | ThrownOther text => text
  end.

Definition DQ : jsstring := [34].

Definition warn_dark_reader (color sanitized fallback : jsstring) : jsstring :=
  lit "[STARLIGHT-SITE-GRAPH] Color parsing failed (Dark Reader detected). "
  ++ lit "Original value: " ++ DQ ++ color ++ DQ
  ++ lit ", Sanitized: " ++ DQ ++ sanitized ++ DQ ++ lit ". "
  ++ lit "Using fallback: " ++ fallback.

Definition warn_invalid (color fallback : jsstring) (e : thrown) : jsstring :=
  lit "[STARLIGHT-SITE-GRAPH] Invalid color value: " ++ DQ ++ color ++ DQ
  ++ lit ". " ++ lit "Using fallback: " ++ fallback
  ++ lit ". Error: " ++ thrown_text e.

Section WithChroma.

(** [chroma(s).hex()] of the chroma-js library: the hex string, or the
    value it throws. *)
Variable chroma_hex : jsstring -> Result jsstring.
Variable document : Document.

(** [getHexColor(color, fallback)]: the colour returned, and the lines
    given to [console.warn].  [fallback = None] is an omitted argument. *)
Definition getHexColor (color : option jsstring) (fallback : option jsstring)
  : jsstring * list jsstring :=
  let fallback := match fallback with Some f => f | None => BLACK end in
  match sanitizeColorValue color with
  | None => (fallback, [])
  | Some sanitized =>
      if isEmpty sanitized then (fallback, [])
      else
        match chroma_hex sanitized with
        | Ok hex_color => (hex_color, [])
        | Throw e =>
            let original := match color with Some c => c | None => [] end in
            if isDarkReaderActive document
            then (fallback, [warn_dark_reader original sanitized fallback])
            else (fallback, [warn_invalid original fallback e])
        end
  end.

End WithChroma.

Section WithURL.

(** [new URL(url, base).protocol] of the platform: [None] when the
    constructor throws. *)
Variable url_protocol : jsstring -> jsstring -> option jsstring.
(** [window.location.origin] *)
Variable origin : jsstring.

(** [sanitizeURL(url, baseURL)]; [None] is [null] or [undefined]. *)
Definition sanitizeURL (url : option jsstring) (baseURL : option jsstring)
  : jsstring :=
  match url with
  | None => HASH
  | Some u =>
      if isEmpty u then HASH
      else
        let base := match baseURL with
                    | Some b => if isEmpty b then origin else b
                    | None => origin
                    end in
        match url_protocol u base with
        | Some protocol =>
            if eqb protocol HTTP || eqb protocol HTTPS then u else HASH
        | None => HASH
        end
  end.

End WithURL.

(** ** The conditions of the specification, in its own words *)

(** The inputs [getHexColor] is said to answer with the fallback: not a
    string, empty or made of white space only, containing [var(], or equal
    to one of the four keywords once a trailing [!important] is removed. *)
Definition rejected (color : option jsstring) : bool :=
  match color with
  | None => true
  | Some c =>
      isEmpty (trim c)
      || includes VAR_OPEN c
      || (let k := replace_important (trim c) in
          eqb k NONE || eqb k INHERIT || eqb k INITIAL || eqb k UNSET)
  end.

(** The inputs [sanitizeURL] is said to hand back: a non-empty string that
    parses, against the given or the default base, to an [http:] or [https:]
    URL. *)
Definition allowed (url_protocol : jsstring -> jsstring -> option jsstring)
    (origin : jsstring) (url baseURL : option jsstring) : bool :=
  match url with
  | None => false
  | Some u =>
      negb (isEmpty u) &&
      match url_protocol u (match baseURL with
                            | Some b => if isEmpty b then origin else b
                            | None => origin
                            end) with
      | Some p => eqb p HTTP || eqb p HTTPS
      | None => false
      end
  end.

(** ** A concrete platform for the examples *)

Definition is_alpha (c : codeunit) : bool :=
  ((65 <=? c) && (c <=? 90)) || ((97 <=? c) && (c <=? 122)).

Definition is_scheme_char (c : codeunit) : bool :=
  is_alpha c || ((48 <=? c) && (c <=? 57))
  || N.eqb c 43 || N.eqb c 45 || N.eqb c 46.

Definition ascii_lower (c : codeunit) : codeunit :=
  if (65 <=? c) && (c <=? 90) then c + 32 else c.

Fixpoint scheme_rest (s acc : jsstring) : option jsstring :=
  match s with
  | [] => None
  | c :: t =>
      if N.eqb c 58 then Some (rev (58 :: acc))
      else if is_scheme_char c then scheme_rest t (ascii_lower c :: acc)
      else None
  end.

(** The scheme of an absolute URL string, with its colon, in lower case
    (the scheme start state and scheme state of the URL parser). *)
Definition scheme_of (s : jsstring) : option jsstring :=
  match s with
  | c :: t => if is_alpha c then scheme_rest t [ascii_lower c] else None
  | [] => None
  end.

(** The protocol the URL constructor reports, as far as the scheme decides
    it: that of the string itself when it is absolute, otherwise that of the
    base; without a scheme in either, the constructor throws.  The other ways
    the constructor can fail (a bad host, a bad port) are outside this
    fragment. *)
Definition scheme_protocol (url base : jsstring) : option jsstring :=
  match scheme_of url with
  | Some p => Some p
  | None => scheme_of base
  end.

(** A chroma that knows the colours of the examples and throws otherwise. *)
Definition chroma_sample (s : jsstring) : Result jsstring :=
  if eqb s RGBA_ZERO then Ok (lit "#00000000")
  else if eqb s (lit "red") then Ok (lit "#ff0000")
  else Throw (ThrownError (mkError (lit "unknown format: " ++ s) None)).

Definition plain_document : Document := mkDocument false false false.

End Color.

(* ================================================================== *)
(** * JSON values and [JSON.stringify] *)
(* ================================================================== *)

Module Json.

(** A Number.  One that is finite and not zero is given the way
    [Number::toString] reads it: by its sign and by the integers [s] and [n]
    of that algorithm, its magnitude being [s] times ten to the power
    [n - k], for the [k] decimal digits of [s]. *)
Inductive number :=
  | Zero
  | Finite (negative : bool) (s : positive) (n : Z)
  | Infinite (negative : bool)
  | NaN.

(** The Number that holds the integer [z] exactly, as a Number holds every
    integer up to 2^53: [s] is [z] without its sign, [n] the count of its
    digits. *)
Definition integer (z : Z) : number :=
  match z with
  | Z0 => Zero
  | Zpos p => Finite false p (Z.of_nat (List.length (of_N (Npos p))))
  | Zneg p => Finite true p (Z.of_nat (List.length (of_N (Npos p))))
  end.

(** Plain data as [JSON.stringify] sees it.  The properties of an object are
    listed in the order in which its own keys are enumerated. *)
#[local] Unset Elimination Schemes.
Inductive json :=
  | JNull
  | JBool (b : bool)
  | JNum (x : number)
  | JStr (s : jsstring)
  | JArr (items : list json)
  | JObj (props : list (jsstring * json)).
#[local] Set Elimination Schemes.

Definition LF : jsstring := [10].

Definition hex_digit (n : N) : codeunit :=
  if n <? 10 then 48 + n else 87 + n.

(** [\uXXXX] with lower-case hexadecimal digits. *)
Definition unicode_escape (c : codeunit) : jsstring :=
  [92; 117; hex_digit (c / 4096 mod 16); hex_digit (c / 256 mod 16);
   hex_digit (c / 16 mod 16); hex_digit (c mod 16)].

Definition is_lead_surrogate (c : codeunit) : bool :=
  (55296 <=? c) && (c <=? 56319).
Definition is_trail_surrogate (c : codeunit) : bool :=
  (56320 <=? c) && (c <=? 57343).

(** The escape of one code unit that is not part of a surrogate pair. *)
Definition quote_unit (c : codeunit) : jsstring :=
  if N.eqb c 8 then [92; 98]
  else if N.eqb c 9 then [92; 116]
  else if N.eqb c 10 then [92; 110]
  else if N.eqb c 12 then [92; 102]
  else if N.eqb c 13 then [92; 114]
  else if N.eqb c 34 then [92; 34]
  else if N.eqb c 92 then [92; 92]
  else if c <? 32 then unicode_escape c
  else if is_lead_surrogate c || is_trail_surrogate c then unicode_escape c
  else [c].

Fixpoint quote_body (s : jsstring) : jsstring :=
  match s with
  | [] => []
  | c :: t =>
      match t with
      | d :: t' =>
          if is_lead_surrogate c && is_trail_surrogate d
          then c :: d :: quote_body t'
          else quote_unit c ++ quote_body t
      | [] => quote_unit c
      end
  end.

(** QuoteJSONString *)
Definition quote (s : jsstring) : jsstring := [34] ++ quote_body s ++ [34].

(** [Number::toString(x, 10)] for a finite [x] above zero, from step 5 on:
    plain notation when [n] lies between -5 and 21, the exponent notation
    otherwise. *)
Definition finite_to_string (s : positive) (n : Z) : jsstring :=
  let ds := of_N (Npos s) in
  let k := Z.of_nat (List.length ds) in
  if (-5 <=? n)%Z && (n <=? 21)%Z
  then
    if (k <=? n)%Z then ds ++ repeat 48 (Z.to_nat (n - k))
    else if (0 <? n)%Z
         then firstn (Z.to_nat n) ds ++ [46] ++ skipn (Z.to_nat n) ds
         else [48; 46] ++ repeat 48 (Z.to_nat (- n)) ++ ds
  else
    let exponent :=
      [101; if (n <? 0)%Z then 45 else 43] ++ of_N (Z.abs_N (n - 1)) in
    match ds with
    | [] => exponent
    | [d] => [d] ++ exponent
    | d :: rest => [d; 46] ++ rest ++ exponent
    end.

(** [Number::toString(x, 10)] *)
Definition number_to_string (x : number) : jsstring :=
  match x with
  | Zero => [48]
  | Finite negative s n =>
      (if negative then [45] else []) ++ finite_to_string s n
  | Infinite negative =>
      (if negative then [45] else []) ++ lit "Infinity"
  | NaN => lit "NaN"
  end.

Fixpoint join (sep : jsstring) (parts : list jsstring) : jsstring :=
  match parts with
  | [] => []
  | [p] => p
  | p :: rest => p ++ sep ++ join sep rest
  end.

(** The closing steps of SerializeJSONObject and SerializeJSONArray: wrap
    the serialized members between [opening] and [closing]. *)
Definition wrap (opening closing : codeunit) (gap stepback : jsstring)
    (partial : list jsstring) : jsstring :=
  match partial with
  | [] => [opening; closing]
  | _ =>
      if isEmpty gap
      then [opening] ++ join [44] partial ++ [closing]
      else
        let indent := stepback ++ gap in
        [opening] ++ LF ++ indent ++ join ([44] ++ LF ++ indent) partial
        ++ LF ++ stepback ++ [closing]
  end.

(** SerializeJSONProperty, for a value that is plain data. *)
Fixpoint serialize (gap indent : jsstring) (v : json) : jsstring :=
  match v with
  | JNull => lit "null"
  | JBool true => lit "true"
  | JBool false => lit "false"
  | JNum (Infinite _) | JNum NaN => lit "null"
  | JNum x => number_to_string x
  | JStr s => quote s
  | JArr items =>
      wrap 91 93 gap indent (map (serialize gap (indent ++ gap)) items)
  | JObj props =>
      wrap 123 125 gap indent
        (map (fun kv =>
                quote (fst kv) ++ [58]
                ++ (if isEmpty gap then [] else [32])
                ++ serialize gap (indent ++ gap) (snd kv))
             props)
  end.

(** The gap of a numeric [space] argument: that many spaces, at most ten. *)
Definition gap_of (space : N) : jsstring :=
  repeat 32 (N.to_nat (N.min 10 space)).

(** [JSON.stringify(v, null, space)] *)
Definition stringify (v : json) (space : N) : jsstring :=
  serialize (gap_of space) [] v.

(** [!!v] *)
Definition truthy (v : json) : bool :=
  match v with
  | JNull => false
  | JBool b => b
  | JNum Zero | JNum NaN => false
  | JNum _ => true
  | JStr s => negb (isEmpty s)
  | JArr _ | JObj _ => true
  end.

Fixpoint lookup (k : jsstring) (props : list (jsstring * json)) : option json :=
  match props with
  | [] => None
  | (k', v) :: rest => if eqb k k' then Some v else lookup k rest
  end.

(** [v?.[k]] for a property name [k] that is not an index or [length]. *)
Definition get (k : jsstring) (v : option json) : option json :=
  match v with
  | Some (JObj props) => lookup k props
  | _ => None
  end.

(** [Object.keys(v).length] *)
Definition keys_length (v : json) : nat :=
  match v with
  | JObj props => List.length props
  | JArr items => List.length items
  | JStr s => List.length s
  | _ => 0%nat
  end.

(** [v?.[k] ? Object.keys(v[k]).length : 0] *)
Definition count_of (k : jsstring) (v : option json) : nat :=
  match get k v with
  | Some x => if truthy x then keys_length x else 0%nat
  | None => 0%nat
  end.

End Json.

(* ================================================================== *)
(** * The integration: its collaborators *)
(* ================================================================== *)

Module Integration.
Import Json.

(** ** Settings and the host's configuration *)

Record SitemapConfig := mkSitemapConfig {
  contentRoot : option jsstring;
  sitemap : option json;
  pageInclusionRules : list jsstring
}.

(** The fields of [FullStarlightSiteGraphConfig] the hooks read. *)
Record Settings := mkSettings {
  sitemapConfig : SitemapConfig;
  debug : bool;
  starlight : bool
}.

(** The fields of Astro's configuration the hooks read.  URLs are kept as
    their [href]; [prefetch] is kept as its truthiness. *)
Record AstroConfig := mkAstroConfig {
  srcDir_pathname : jsstring;
  trailingSlash : jsstring;
  prefetch : bool;
  adapter_name : option jsstring;
  root : jsstring;
  base : jsstring;
  outDir : jsstring;
  output : jsstring;
  build_client : jsstring
}.

Inductive Command := dev | build | preview | sync.

Definition is_dev (c : Command) : bool :=
  match c with dev => true | _ => false end.
Definition is_build (c : Command) : bool :=
  match c with build => true | _ => false end.

(** ** The sitemap module, which the hooks import *)

(** The interface of [SiteMapBuilder] ([./sitemap/build]) as the hooks use
    it.  [B] is the state of a builder object, [P] that of the object
    [process()] returns.  A scan may reject, leaving the builder as far as it
    got; the other methods return. *)
Class SiteMapBuilder (B P : Type) := {
  newBuilder : SitemapConfig -> B;
  setContentRoot : jsstring -> B -> B;
  setTrailingSlash : bool -> B -> B;
  setBasePath : jsstring -> B -> B;
  addMDContentFolder : jsstring -> list jsstring -> B -> B * option thrown;
  addHTMLContentFolder : jsstring -> list jsstring -> B -> B * option thrown;
  process : B -> B * P;
  toSitemap : P -> json
}.

(** [processSitemap] ([./sitemap/process]) and [trimSlashes]
    ([./sitemap/util]). *)
Record Helpers := mkHelpers {
  processSitemap : option json -> Settings -> json;
  trimSlashes : jsstring -> jsstring
}.

(** ** The platform and the host *)

Inductive ViteUpdate :=
  | PicomatchPolyfill
  | PixiStats (plugin : bool)
  | OptimizeMicromatch.

(** What the file system, the URL functions, the host and the engine
    answer.  For the calls that may fail, [None] is a normal return and
    [Some e] the value thrown.  [error_stack m] is the [stack] the engine
    gives an error object made during the run with the message [m]: the
    [new Error(String(e))] of the hooks, and the [TypeError] with which Node
    refuses an argument that is [undefined]; [None] where it gives none. *)
Record Platform := mkPlatform {
  fs_access : jsstring -> option thrown;
  fs_mkdir : jsstring -> option thrown;
  fs_writeFile : jsstring -> jsstring -> option thrown;
  fileURLToPath : jsstring -> jsstring;
  new_URL : jsstring -> jsstring -> jsstring;
  updateConfig : ViteUpdate -> option thrown;
  require_pixi_stats : bool;
  error_stack : jsstring -> option jsstring
}.

Inductive Level := Info | Warning | Failure.

Inductive BuilderCall :=
  | SetContentRoot (path : jsstring)
  | SetTrailingSlash (flag : bool)
  | SetBasePath (path : jsstring)
  | AddMDContentFolder (path : jsstring) (rules : list jsstring)
  | AddHTMLContentFolder (path : jsstring) (rules : list jsstring)
  | Process.

(** The calls a hook makes on its collaborators, in order. *)
Inductive Event :=
  | Log (level : Level) (msg : jsstring)
  | Update (u : ViteUpdate)
  | Builder (c : BuilderCall)
  | Access (path : option jsstring)
  | Mkdir (path : jsstring)
  | WriteFile (path : jsstring) (data : option jsstring)
  | VirtualImports (settings : Settings) (config : AstroConfig)
  | InjectScript.

(** The events that write to the file system. *)
Definition is_write (e : Event) : Prop :=
  match e with
  | Mkdir _ | WriteFile _ _ => True
  | _ => False
  end.

(** An event other than a call of [setTrailingSlash]. *)
Definition not_setTrailingSlash (e : Event) : Prop :=
  forall flag, e <> Builder (SetTrailingSlash flag).


(** ** Messages *)

Definition DQ : jsstring := [34].

Fixpoint lines (ls : list jsstring) : jsstring :=
  match ls with
  | [] => []
  | [l] => l
  | l :: rest => l ++ LF ++ lines rest
  end.

(** [`${p}`] for a variable that may be [undefined]. *)
Definition template (p : option jsstring) : jsstring :=
  match p with Some s => s | None => lit "undefined" end.

(** [!p] for a variable that is a string or [undefined]. *)
Definition falsy (p : option jsstring) : bool :=
  match p with Some s => isEmpty s | None => true end.

Definition msg_patch_failed (e : thrown) : jsstring :=
  lines [
    lit "Failed to apply picomatch compatibility patch. This may cause runtime errors in the browser.";
    lit "Cause: " ++ Color.thrown_text e;
    lit "Fix: Ensure 'picomatch' is installed and add to package.json overrides: { "
      ++ DQ ++ lit "picomatch" ++ DQ ++ lit ": " ++ DQ ++ lit "^4.0.3" ++ DQ
      ++ lit " }" ].

Definition msg_prefetch : jsstring :=
  lit "`prefetch` is disabled in the Astro config, but this plugin requires it to prevent errors. This option has now been enabled.".

Definition msg_retrieving_md (rules : list jsstring) : jsstring :=
  lit "Retrieving links from Markdown content"
  ++ (match rules with
      | [] => []
      | _ => lit " (with patterns " ++ join (lit ", ") rules ++ lit ")"
      end).

Definition msg_root_missing (contentRoot : jsstring) : jsstring :=
  lit "Content directory not found: " ++ DQ ++ contentRoot ++ DQ.

Definition msg_root_missing_full (contentRoot : jsstring) (error : Error)
  : jsstring :=
  lines [
    msg_root_missing contentRoot;
    lit "  Cause: " ++ message error;
    lit "  Fix: Ensure the content directory exists, or specify a custom path via 'sitemapConfig.contentRoot'";
    lit "  Note: The site graph will continue with an empty sitemap. Create the directory and restart to enable the graph." ].

Definition msg_md_failed : jsstring := lit "Failed to process Markdown content".

Definition msg_md_failed_full (error : Error) : jsstring :=
  lines [
    msg_md_failed;
    lit "  Cause: " ++ message error;
    lit "  Stack: "
      ++ (match stack error with
          | Some s => if isEmpty s then lit "Not available" else s
          | None => lit "Not available"
          end);
    lit "  Fix: Check that Markdown files are valid and accessible. The site graph will continue with an empty sitemap." ].

Definition msg_md_finished : jsstring :=
  lit "Finished retrieving links from Markdown content".

Definition msg_applied : jsstring := lit "Using applied sitemap".

Definition msg_pixi : jsstring :=
  lit "Failed to load `pixi-stats`, to enable the FPS counter for the graph view, make sure `pixi-stats` is installed as aa peer dependency.".

Definition msg_degraded (reason : jsstring) : jsstring :=
  lines [
    lit "Site graph is running in DEGRADED MODE with an empty sitemap.";
    lit "  Reason: " ++ reason;
    lit "  Impact: The graph visualization will be empty until content is available.";
    lit "  Action: Fix the issue above and restart the dev server or rebuild." ].

Definition msg_no_output : jsstring :=
  lines [
    lit "Output directory couldn't be determined. The graph sitemap will not include HTML content.";
    lit "  Impact: Links and metadata extracted from HTML will be missing.";
    lit "  Note: The sitemap will still be created with available Markdown content." ].

Definition msg_retrieving_html : jsstring :=
  lit "Retrieving links from generated HTML content".

Definition msg_html_finished : jsstring :=
  lit "Finished generating sitemap from generated HTML content".

Definition msg_html_fallback (error : Error) : jsstring :=
  lines [
    lit "Failed to retrieve links from generated HTML content. Falling back to Markdown-only sitemap.";
    lit "  Cause: " ++ message error;
    lit "  Impact: The sitemap will be based on Markdown content only. HTML-specific links may be missing.";
    lit "  Fix: Ensure the build completed successfully and the output directory is accessible." ].

Definition msg_created (nodeCount linkCount : nat) : jsstring :=
  lit "Sitemap created at 'dist/sitegraph/sitemap.json' with "
  ++ of_nat nodeCount ++ lit " nodes and " ++ of_nat linkCount ++ lit " links".

Definition msg_write_failed (error : Error) : jsstring :=
  lines [
    lit "Failed to write sitemap file to disk.";
    lit "  Cause: " ++ message error;
    lit "  Impact: The site graph will not be available on the deployed site.";
    lit "  Fix: Check disk space and write permissions for the output directory." ].

(** The message of Node's [ERR_INVALID_ARG_TYPE] for an argument that is
    [undefined]. *)
Definition msg_invalid_arg_type (what expected : jsstring) : jsstring :=
  lit "The " ++ DQ ++ what ++ DQ ++ lit " argument must be of type "
  ++ expected ++ lit ". Received undefined".

Definition msg_undefined_path : jsstring :=
  msg_invalid_arg_type (lit "path")
    (lit "string or an instance of Buffer or URL").

Definition msg_undefined_data : jsstring :=
  msg_invalid_arg_type (lit "data")
    (lit "string or an instance of Buffer, TypedArray, or DataView").

(** ** State and effects *)

Section Hooks.

Context {B P : Type} `{SiteMapBuilder B P}.
Variable helpers : Helpers.
Variable platform : Platform.

(** [e instanceof Error ? e : new Error(String(e))]: an [Error] is taken as
    it is; of any other value an [Error] is made, whose message is
    [String(e)] and whose stack is the one the engine gives it. *)
Definition toError (e : thrown) : Error :=
  match e with
  | ThrownError err => err
  | ThrownOther text => mkError text (error_stack platform text)
  end.

(** What Node throws when a path, or the data of a write, is
    [undefined]. *)
Definition undefined_path : thrown :=
  ThrownError
    (mkError msg_undefined_path (error_stack platform msg_undefined_path)).

Definition undefined_data : thrown :=
  ThrownError
    (mkError msg_undefined_data (error_stack platform msg_undefined_data)).

(** The variables the hooks close over ([settings], [builder],
    [sitemapProvided], [outputPath]), the host's configuration object, which
    [astro:config:setup] updates in place, and the calls made so far. *)
Record State := mkState {
  settings : Settings;
  builder : B;
  sitemapProvided : bool;
  outputPath : option jsstring;
  config : AstroConfig;
  trace : list Event
}.

(** A computation may change the state and then return or throw. *)
Definition M (A : Type) : Type := State -> Result A * State.

Definition ret {A} (a : A) : M A := fun s => (Ok a, s).

Definition bind {A C} (m : M A) (k : A -> M C) : M C :=
  fun s =>
    match m s with
    | (Ok a, s') => k a s'
    | (Throw e, s') => (Throw e, s')
    end.

Definition throw {A} (e : thrown) : M A := fun s => (Throw e, s).

(** [try { body } catch (e) { handler e }] *)
Definition try_catch {A} (body : M A) (handler : thrown -> M A) : M A :=
  fun s =>
    match body s with
    | (Ok a, s') => (Ok a, s')
    | (Throw e, s') => handler e s'
    end.

Definition get_state : M State := fun s => (Ok s, s).

Definition emit (e : Event) : M unit :=
  fun s =>
    (Ok tt, mkState (settings s) (builder s) (sitemapProvided s)
              (outputPath s) (config s) (trace s ++ [e])).

Definition put_settings (x : Settings) : M unit :=
  fun s =>
    (Ok tt, mkState x (builder s) (sitemapProvided s) (outputPath s)
              (config s) (trace s)).

Definition put_builder (b : B) : M unit :=
  fun s =>
    (Ok tt, mkState (settings s) b (sitemapProvided s) (outputPath s)
              (config s) (trace s)).

Definition put_outputPath (p : option jsstring) : M unit :=
  fun s =>
    (Ok tt, mkState (settings s) (builder s) (sitemapProvided s) p
              (config s) (trace s)).

Definition put_config (c : AstroConfig) : M unit :=
  fun s =>
    (Ok tt, mkState (settings s) (builder s) (sitemapProvided s)
              (outputPath s) c (trace s)).

Notation "x <- m ;; k" := (bind m (fun x => k))
  (at level 61, m at next level, right associativity).
Notation "m ;; k" := (bind m (fun _ => k))
  (at level 61, right associativity).

Definition when (c : bool) (m : M unit) : M unit :=
  if c then m else ret tt.

Definition log (level : Level) (msg : jsstring) : M unit :=
  emit (Log level msg).

(** A call that may fail, by the platform's answer. *)
Definition attempt (e : Event) (answer : option thrown) : M unit :=
  emit e ;;
  match answer with
  | None => ret tt
  | Some err => throw err
  end.

(** [settings.sitemapConfig.contentRoot = r] *)
Definition set_contentRoot (r : jsstring) : M unit :=
  s <- get_state ;;
  let c := sitemapConfig (settings s) in
  put_settings
    (mkSettings (mkSitemapConfig (Some r) (sitemap c) (pageInclusionRules c))
                (debug (settings s)) (starlight (settings s))).

(** [settings.sitemapConfig.sitemap = v] *)
Definition set_sitemap (v : json) : M unit :=
  s <- get_state ;;
  let c := sitemapConfig (settings s) in
  put_settings
    (mkSettings
       (mkSitemapConfig (contentRoot c) (Some v) (pageInclusionRules c))
       (debug (settings s)) (starlight (settings s))).

(** ** Calls on the builder *)

Definition call_setter (c : BuilderCall) (f : B -> B) : M unit :=
  emit (Builder c) ;;
  s <- get_state ;;
  put_builder (f (builder s)).

Definition call_scan (c : BuilderCall) (f : B -> B * option thrown)
  : M unit :=
  emit (Builder c) ;;
  s <- get_state ;;
  let r := f (builder s) in
  put_builder (fst r) ;;
  match snd r with
  | None => ret tt
  | Some err => throw err
  end.

(** [builder.process().toSitemap()] *)
Definition process_toSitemap : M json :=
  emit (Builder Process) ;;
  s <- get_state ;;
  let r := process (builder s) in
  put_builder (fst r) ;;
  ret (toSitemap (snd r)).

(** [fs.promises.access(p)]: a path that is [undefined] is refused. *)
Definition access (p : option jsstring) : M unit :=
  attempt (Access p)
    (match p with
     | Some path => fs_access platform path
     | None => Some undefined_path
     end).

(** ** astro:config:setup *)

(** Lines 38-74: the compatibility patch, whose failure is only logged. *)
Definition patch_picomatch : M unit :=
  try_catch
    (attempt (Update PicomatchPolyfill)
       (updateConfig platform PicomatchPolyfill))
    (fun e => log Failure (msg_patch_failed e)).

(** Lines 76-83: default the content root; the value it has afterwards. *)
Definition default_contentRoot : M jsstring :=
  s <- get_state ;;
  let given := contentRoot (sitemapConfig (settings s)) in
  if falsy given
  then
    let r := trimSlashes helpers (srcDir_pathname (config s))
             ++ (if starlight (settings s)
                 then lit "/content/docs" else lit "/pages") in
    set_contentRoot r ;;
    ret r
  else ret (template given).

(** Line 85: [config.trailingSlash !== 'never'] *)
Definition addTrailingSlash (c : AstroConfig) : bool :=
  negb (eqb (trailingSlash c) (lit "never")).

(** Lines 89-93 *)
Definition enable_prefetch : M unit :=
  s <- get_state ;;
  let c := config s in
  when (negb (prefetch c))
    (log Warning msg_prefetch ;;
     put_config
       (mkAstroConfig (srcDir_pathname c) (trailingSlash c) true
          (adapter_name c) (root c) (base c) (outDir c) (output c)
          (build_client c))).

(** [s.replace(/^\//, "")] *)
Definition strip_leading_slash (s : jsstring) : jsstring :=
  match s with
  | 47 :: t => t
  | _ => s
  end.

(** Lines 95-104: where the site is written, by adapter. *)
Definition output_path_of (c : AstroConfig) : jsstring :=
  match adapter_name c with
  | Some name =>
      if startsWith (lit "@astrojs/vercel") name
      then fileURLToPath platform
             (new_URL platform (lit ".vercel/output/static/") (root c))
      else if eqb name (lit "@astrojs/cloudflare")
      then fileURLToPath platform
             (new_URL platform (strip_leading_slash (base c)) (outDir c))
      else if eqb name (lit "@astrojs/node") && eqb (output c) (lit "server")
      then fileURLToPath platform (build_client c)
      else fileURLToPath platform (outDir c)
  | None => fileURLToPath platform (outDir c)
  end.

(** Lines 117-133: probe the content root.  The result is the pair
    [sitemapGenerationFailed], [sitemapErrorMessage]. *)
Definition probe_contentRoot (contentRoot : jsstring)
  : M (bool * jsstring) :=
  try_catch
    (access (Some contentRoot) ;;
     ret (false, []))
    (fun e =>
       let error := toError e in
       let sitemapErrorMessage := msg_root_missing contentRoot in
       log Failure (msg_root_missing_full contentRoot error) ;;
       v <- process_toSitemap ;;
       set_sitemap v ;;
       ret (true, sitemapErrorMessage)).

(** Lines 135-156: the Markdown pass. *)
Definition markdown_pass (contentRoot : jsstring) (rules : list jsstring)
  : M (bool * jsstring) :=
  try_catch
    (call_scan (AddMDContentFolder contentRoot rules)
       (addMDContentFolder contentRoot rules) ;;
     v <- process_toSitemap ;;
     set_sitemap v ;;
     log Info msg_md_finished ;;
     ret (false, []))
    (fun e =>
       let error := toError e in
       log Failure (msg_md_failed_full error) ;;
       v <- process_toSitemap ;;
       set_sitemap v ;;
       ret (true, msg_md_failed)).

(** Lines 106-161 *)
Definition generate_sitemap (command : Command) (contentRoot : jsstring)
  : M (bool * jsstring) :=
  s <- get_state ;;
  let rules := pageInclusionRules (sitemapConfig (settings s)) in
  if negb (sitemapProvided s)
  then
    log Info (msg_retrieving_md rules) ;;
    if is_dev command || is_build command
    then
      call_setter (SetBasePath (base (config s)))
        (setBasePath (base (config s))) ;;
      failed <- probe_contentRoot contentRoot ;;
      if negb (fst failed)
      then markdown_pass contentRoot rules
      else ret failed
    else ret (false, [])
  else
    log Info msg_applied ;;
    set_sitemap
      (processSitemap helpers (sitemap (sitemapConfig (settings s)))
         (settings s)) ;;
    ret (false, []).

(** Lines 163-179 *)
Definition pixi_stats (command : Command) : M unit :=
  s <- get_state ;;
  when (is_dev command && debug (settings s))
    (let loaded := require_pixi_stats platform in
     when (negb loaded) (log Warning msg_pixi) ;;
     attempt (Update (PixiStats loaded))
       (updateConfig platform (PixiStats loaded))).

(** The hook [astro:config:setup]. *)
Definition config_setup (command : Command) : M unit :=
  patch_picomatch ;;
  contentRoot <- default_contentRoot ;;
  s <- get_state ;;
  call_setter (SetContentRoot contentRoot) (setContentRoot contentRoot) ;;
  call_setter (SetTrailingSlash (addTrailingSlash (config s)))
    (setTrailingSlash (addTrailingSlash (config s))) ;;
  enable_prefetch ;;
  put_outputPath (Some (output_path_of (config s))) ;;
  failed <- generate_sitemap command contentRoot ;;
  pixi_stats command ;;
  when (is_dev command)
    (attempt (Update OptimizeMicromatch)
       (updateConfig platform OptimizeMicromatch)) ;;
  s' <- get_state ;;
  emit (VirtualImports (settings s') (config s')) ;;
  when (fst failed) (log Warning (msg_degraded (snd failed))) ;;
  emit InjectScript.

(** ** astro:build:done *)

(** Lines 247-269: the HTML pass, with its fallback. *)
Definition html_pass : M unit :=
  s <- get_state ;;
  let rules := pageInclusionRules (sitemapConfig (settings s)) in
  when (negb (sitemapProvided s))
    (log Info msg_retrieving_html ;;
     try_catch
       (access (outputPath s) ;;
        call_scan (AddHTMLContentFolder (template (outputPath s)) rules)
          (addHTMLContentFolder (template (outputPath s)) rules) ;;
        v <- process_toSitemap ;;
        set_sitemap v ;;
        log Info msg_html_finished)
       (fun e =>
          let error := toError e in
          v <- process_toSitemap ;;
          set_sitemap v ;;
          log Warning (msg_html_fallback error))).

Definition sitegraph_dir (p : option jsstring) : jsstring :=
  template p ++ lit "/sitegraph".

Definition sitemap_file (p : option jsstring) : jsstring :=
  template p ++ lit "/sitegraph/sitemap.json".

(** [JSON.stringify(sitemap, null, debug ? 2 : 0)]; [undefined] stays
    [undefined]. *)
Definition document_of (x : Settings) : option jsstring :=
  match sitemap (sitemapConfig x) with
  | Some v => Some (stringify v (if debug x then 2 else 0))
  | None => None
  end.

(** [fs.promises.writeFile(path, data)] *)
Definition writeFile (path : jsstring) (data : option jsstring) : M unit :=
  attempt (WriteFile path data)
    (match data with
     | Some d => fs_writeFile platform path d
     | None => Some undefined_data
     end).

(** Lines 271-292: write the artifact; a failure is logged and thrown
    again. *)
Definition persist : M unit :=
  s <- get_state ;;
  try_catch
    (attempt (Mkdir (sitegraph_dir (outputPath s)))
       (fs_mkdir platform (sitegraph_dir (outputPath s))) ;;
     writeFile (sitemap_file (outputPath s)) (document_of (settings s)) ;;
     let v := sitemap (sitemapConfig (settings s)) in
     log Info (msg_created (count_of (lit "nodes") v)
                           (count_of (lit "links") v)))
    (fun e =>
       let error := toError e in
       log Failure (msg_write_failed error) ;;
       throw (ThrownError error)).

(** The hook [astro:build:done]. *)
Definition build_done : M unit :=
  s <- get_state ;;
  when (falsy (outputPath s)) (log Warning msg_no_output) ;;
  html_pass ;;
  persist.

(** ** The answers of the platform, for stating what the hooks do *)

(** What [fs.promises.access(p)] answers. *)
Definition access_answer (p : option jsstring) : option thrown :=
  match p with
  | Some path => fs_access platform path
  | None => Some undefined_path
  end.

(** What writing the document of the settings [x] under the output path
    [p] answers. *)
Definition write_answer (p : option jsstring) (x : Settings)
  : option thrown :=
  match document_of x with
  | Some d => fs_writeFile platform (sitemap_file p) d
  | None => Some undefined_data
  end.

(** The calls of the write step, in order. *)
Definition persist_events (p : option jsstring) (x : Settings)
  : list Event :=
  Mkdir (sitegraph_dir p) ::
  match fs_mkdir platform (sitegraph_dir p) with
  | Some e => [Log Failure (msg_write_failed (toError e))]
  | None =>
      WriteFile (sitemap_file p) (document_of x) ::
      match write_answer p x with
      | Some e => [Log Failure (msg_write_failed (toError e))]
      | None =>
          [Log Info
             (msg_created
                (count_of (lit "nodes") (sitemap (sitemapConfig x)))
                (count_of (lit "links") (sitemap (sitemapConfig x))))]
      end
  end.

(** The first failure, if any, of creating the directory under the output
    path [p] and writing the document of the settings [x] into it. *)
Definition persist_failure (p : option jsstring) (x : Settings)
  : option thrown :=
  match fs_mkdir platform (sitegraph_dir p) with
  | Some e => Some e
  | None => write_answer p x
  end.

(** The state in which [astro:build:done] reaches its write step. *)
Definition before_persist (s : State) : State :=
  snd (html_pass
         (snd (when (falsy (outputPath s)) (log Warning msg_no_output) s))).

(** The host accepts the two updates the hook makes outside any [try]
    when the command is [dev]. *)
Definition host_accepts (command : Command) : Prop :=
  is_dev command = true ->
  updateConfig platform (PixiStats (require_pixi_stats platform)) = None
  /\ updateConfig platform OptimizeMicromatch = None.

(** The content root the hook settles on. *)
Definition contentRoot_of (x : Settings) (c : AstroConfig) : jsstring :=
  let given := contentRoot (sitemapConfig x) in
  if falsy given
  then trimSlashes helpers (srcDir_pathname c)
       ++ (if starlight x then lit "/content/docs" else lit "/pages")
  else template given.

(** ** Properties of a computation *)

(** [m] only adds events, and all of them satisfy [Q]. *)
Definition emits (Q : Event -> Prop) {A} (m : M A) : Prop :=
  forall s, exists evs,
    trace (snd (m s)) = trace s ++ evs /\ Forall Q evs.

(** [m] returns, whatever the state. *)
Definition returns {A} (m : M A) : Prop :=
  forall s, exists a, fst (m s) = Ok a.

(** [m] leaves the observation [f] of the state as it is. *)
Definition keeps {X} (f : State -> X) {A} (m : M A) : Prop :=
  forall s, f (snd (m s)) = f s.

(** The settings [x] with the sitemap [v]. *)
Definition with_sitemap (x : Settings) (v : json) : Settings :=
  mkSettings
    (mkSitemapConfig (contentRoot (sitemapConfig x)) (Some v)
       (pageInclusionRules (sitemapConfig x)))
    (debug x) (starlight x).

(** [setup]: the state the hooks start from. *)
Definition setup (x : Settings) (c : AstroConfig) : State :=
  mkState x (newBuilder (sitemapConfig x))
    (match sitemap (sitemapConfig x) with
     | Some v => truthy v
     | None => false
     end)
    None c [].

End Hooks.

End Integration.

(* ================================================================== *)
(** * The sitemap builder, from its specification *)
(* ================================================================== *)

Module SiteMap.
Import Json Integration.

(** ** Data model *)

Inductive NodeKind := page | tag | external | unresolved.

Inductive Classification :=
  | internal_resolved
  | internal_unresolved
  | external_link
  | tag_link.

Record Node := mkNode {
  id : jsstring;
  title : jsstring;
  tags : list jsstring;
  nodeStyle : option jsstring;
  kind : NodeKind
}.

Record Link := mkLink {
  source : jsstring;
  target : jsstring;
  classification : Classification
}.

(** The finalized artifact: [nodes] in insertion order, [links], and the
    backlink index derived from [links]. *)
Record Sitemap := mkSitemap {
  nodes : list (jsstring * Node);
  links : list Link;
  backlinks : list (jsstring * list jsstring)
}.

(** An edge as the extractor found it: its target id, and whether the target
    is an absolute [http(s)] URL. *)
Record Edge := mkEdge {
  edge_target : jsstring;
  edge_external : bool
}.

(** What one scanned file contributes: a page and its outbound edges. *)
Record ExtractedRecord := mkRecord {
  rec_id : jsstring;
  rec_title : jsstring;
  rec_tags : list jsstring;
  rec_nodeStyle : option jsstring;
  rec_edges : list Edge
}.

(** The builder object: the three options of its setters and the
    accumulator, one record per canonical id, in insertion order. *)
Record Options := mkOptions {
  opt_contentRoot : jsstring;
  opt_trailingSlash : bool;
  opt_basePath : jsstring
}.

Record Accumulator := mkAccumulator {
  options : Options;
  entries : list ExtractedRecord
}.

(** ** Graph assembler *)

(** Modelled from the spec: the upsert of [addPass] in [sitemap/build],
    which is not among the sources.  A record replaces the one with its id,
    where that one stands; a record with a new id goes to the end. *)
Fixpoint upsert (r : ExtractedRecord) (acc : list ExtractedRecord)
  : list ExtractedRecord :=
  match acc with
  | [] => [r]
  | x :: rest =>
      if eqb (rec_id x) (rec_id r) then r :: rest else x :: upsert r rest
  end.

(** Modelled from the spec: [addPass] of [sitemap/build] (absent): the
    records of a pass are upserted one after the other. *)
Definition addPass (records acc : list ExtractedRecord)
  : list ExtractedRecord :=
  fold_left (fun a r => upsert r a) records acc.

(** The record a pass leaves for the id [k]: the last of [rs] with that id,
    or [d] when there is none. *)
Definition last_with (k : jsstring) (rs : list ExtractedRecord)
    (d : ExtractedRecord) : ExtractedRecord :=
  fold_left (fun cur r => if eqb k (rec_id r) then r else cur) rs d.

(** The records of a pass whose id is not [k]. *)
Definition others (k : jsstring) (rs : list ExtractedRecord)
  : list ExtractedRecord :=
  filter (fun r => negb (eqb k (rec_id r))) rs.

(** ** Backlink and tag deriver *)

Fixpoint mem (k : jsstring) (l : list jsstring) : bool :=
  match l with
  | [] => false
  | x :: rest => eqb k x || mem k rest
  end.

(** The distinct strings of a list, in order of first appearance. *)
Fixpoint distinct (l : list jsstring) (seen : list jsstring)
  : list jsstring :=
  match l with
  | [] => []
  | x :: rest =>
      if mem x seen then distinct rest seen
      else x :: distinct rest (x :: seen)
  end.

Definition classify (ids : list jsstring) (e : Edge) : Classification :=
  if edge_external e then external_link
  else if mem (edge_target e) ids then internal_resolved
  else internal_unresolved.

Definition link_eqb (a b : Link) : bool :=
  eqb (source a) (source b) && eqb (target a) (target b)
  && match classification a, classification b with
     | internal_resolved, internal_resolved
     | internal_unresolved, internal_unresolved
     | external_link, external_link
     | tag_link, tag_link => true
     | _, _ => false
     end.

Fixpoint distinct_links (l seen : list Link) : list Link :=
  match l with
  | [] => []
  | x :: rest =>
      if existsb (link_eqb x) seen then distinct_links rest seen
      else x :: distinct_links rest (x :: seen)
  end.

Definition page_node (r : ExtractedRecord) : jsstring * Node :=
  (rec_id r,
   mkNode (rec_id r) (rec_title r) (rec_tags r) (rec_nodeStyle r) page).

Definition tag_node (t : jsstring) : jsstring * Node :=
  (t, mkNode t t [] None tag).

Definition page_links (ids : list jsstring) (r : ExtractedRecord)
  : list Link :=
  map (fun e => mkLink (rec_id r) (edge_target e) (classify ids e))
      (rec_edges r).

Definition tag_links (r : ExtractedRecord) : list Link :=
  map (fun t => mkLink (rec_id r) t tag_link) (distinct (rec_tags r) []).

(** The sources of the resolved links into [t], self-links left out. *)
Definition backlinks_of (ls : list Link) (t : jsstring) : list jsstring :=
  distinct
    (map source
       (filter (fun l =>
                  eqb (target l) t && negb (eqb (source l) t)
                  && match classification l with
                     | internal_resolved => true
                     | _ => false
                     end) ls)) [].

(** Modelled from the spec: [finalize] of [sitemap/build] (absent), the three
    steps of the backlink and tag deriver: every link is classified against
    the assembled nodes, the backlink index is derived from the resolved
    links, and a node and the edges to it are made for every tag. *)
Definition finalize (acc : list ExtractedRecord) : Sitemap :=
  let ids := map rec_id acc in
  let all_tags := distinct (flat_map rec_tags acc) [] in
  let ls := distinct_links
              (flat_map (page_links ids) acc ++ flat_map tag_links acc) [] in
  mkSitemap
    (map page_node acc ++ map tag_node all_tags)
    ls
    (filter (fun entry => match snd entry with [] => false | _ => true end)
       (map (fun t => (t, backlinks_of ls t)) ids)).

(** ** The persisted document *)

Definition kind_name (k : NodeKind) : jsstring :=
  match k with
  | page => lit "page"
  | tag => lit "tag"
  | external => lit "external"
  | unresolved => lit "unresolved"
  end.

Definition classification_name (c : Classification) : jsstring :=
  match c with
  | internal_resolved => lit "internal-resolved"
  | internal_unresolved => lit "internal-unresolved"
  | external_link => lit "external"
  | tag_link => lit "tag"
  end.

Definition node_json (n : Node) : json :=
  JObj ([(lit "id", JStr (id n));
         (lit "title", JStr (title n));
         (lit "tags", JArr (map JStr (tags n)))]
        ++ (match nodeStyle n with
            | Some s => [(lit "nodeStyle", JStr s)]
            | None => []
            end)
        ++ [(lit "kind", JStr (kind_name (kind n)))]).

Definition link_json (l : Link) : json :=
  JObj [(lit "source", JStr (source l));
        (lit "target", JStr (target l));
        (lit "classification", JStr (classification_name (classification l)))].

(** Modelled from the spec: the document of a sitemap, with the top-level
    keys [nodes] (a mapping from id to node) and [links] (a sequence). *)
Definition sitemap_json (m : Sitemap) : json :=
  JObj [(lit "nodes", JObj (map (fun kv => (fst kv, node_json (snd kv)))
                                (nodes m)));
        (lit "links", JArr (map link_json (links m)))].

(** The sitemap [{nodes: {}, links: []}]. *)
Definition empty_sitemap_json : json :=
  JObj [(lit "nodes", JObj []); (lit "links", JArr [])].

(** ** The builder object *)

Section Builder.

(** The records the content scanner and the link and tag extractor yield
    for a directory, under the builder's options and the inclusion rules,
    or the value thrown when the directory cannot be scanned.  The scanner,
    the extractor and the path normalizer are not among the sources. *)
Variable scan_markdown :
  Options -> jsstring -> list jsstring -> Result (list ExtractedRecord).
Variable scan_html :
  Options -> jsstring -> list jsstring -> Result (list ExtractedRecord).

Definition add_folder
    (scan : Options -> jsstring -> list jsstring
            -> Result (list ExtractedRecord))
    (dir : jsstring) (rules : list jsstring) (b : Accumulator)
  : Accumulator * option thrown :=
  match scan (options b) dir rules with
  | Ok records =>
      (mkAccumulator (options b) (addPass records (entries b)), None)
  | Throw e => (b, Some e)
  end.

(** Modelled from the spec: the class [SiteMapBuilder] of [sitemap/build]
    (absent): three setters, two scan passes that feed the assembler, and
    [process], which derives the sitemap from the accumulator and leaves
    the accumulator alone. *)
#[local] Instance spec_builder : SiteMapBuilder Accumulator Sitemap := {
  newBuilder := fun _ => mkAccumulator (mkOptions [] false []) [];
  setContentRoot := fun p b =>
    mkAccumulator
      (mkOptions p (opt_trailingSlash (options b))
         (opt_basePath (options b)))
      (entries b);
  setTrailingSlash := fun f b =>
    mkAccumulator
      (mkOptions (opt_contentRoot (options b)) f
         (opt_basePath (options b)))
      (entries b);
  setBasePath := fun p b =>
    mkAccumulator
      (mkOptions (opt_contentRoot (options b))
         (opt_trailingSlash (options b)) p)
      (entries b);
  addMDContentFolder := add_folder scan_markdown;
  addHTMLContentFolder := add_folder scan_html;
  process := fun b => (b, finalize (entries b));
  toSitemap := sitemap_json
}.

End Builder.

(** ** A small site, for the examples *)

Definition page_a : ExtractedRecord :=
  mkRecord (lit "a") (lit "A") [lit "guide"] None
    [mkEdge (lit "b") false; mkEdge (lit "https://example.com") true].

Definition page_a_html : ExtractedRecord :=
  mkRecord (lit "a") (lit "A") [lit "guide"] None
    [mkEdge (lit "b") false; mkEdge (lit "missing") false].

Definition page_b : ExtractedRecord :=
  mkRecord (lit "b") (lit "B") [] None [].

(** Two Markdown pages under [site/src/content/docs], and nothing else. *)
Definition sample_markdown (_ : Options) (dir : jsstring)
    (_ : list jsstring) : Result (list ExtractedRecord) :=
  if eqb dir (lit "site/src/content/docs") then Ok [page_a; page_b]
  else Throw (ThrownError (mkError (lit "ENOENT: no such file or directory, scandir") None)).

Definition sample_html (_ : Options) (dir : jsstring)
    (_ : list jsstring) : Result (list ExtractedRecord) :=
  if eqb dir (lit "/site/dist/") then Ok [page_a_html; page_b]
  else Throw (ThrownError (mkError (lit "ENOENT: no such file or directory, scandir") None)).

Definition sample_builder : SiteMapBuilder Accumulator Sitemap :=
  spec_builder sample_markdown sample_html.

Definition enoent : thrown :=
  ThrownError (mkError (lit "ENOENT: no such file or directory") None).

Definition eacces : thrown :=
  ThrownError (mkError (lit "EACCES: permission denied") None).

(** [fileURLToPath] for a [file://] URL without escapes. *)
Definition sample_fileURLToPath (href : jsstring) : jsstring :=
  if startsWith (lit "file://") href then skipn 7 href else href.

(** A platform on which the directories in [present] exist, the directories
    in [readonly] refuse writes, and the host accepts every update. *)
Definition sample_platform (present readonly : list jsstring) : Platform :=
  mkPlatform
    (fun p => if mem p present then None else Some enoent)
    (fun p => if existsb (fun d => startsWith d p) readonly
              then Some eacces else None)
    (fun p _ => if existsb (fun d => startsWith d p) readonly
                then Some eacces else None)
    sample_fileURLToPath
    (fun rel base => base ++ rel)
    (fun _ => None)
    false
    (fun m => Some (lit "Error: " ++ m ++ LF ++ lit "    at setup")).

Fixpoint drop_slashes (s : jsstring) : jsstring :=
  match s with
  | 47 :: t => drop_slashes t
  | _ => s
  end.

Definition sample_helpers : Helpers :=
  mkHelpers
    (fun v _ => match v with Some x => x | None => empty_sitemap_json end)
    (fun s => rev (drop_slashes (rev (drop_slashes s)))).

Definition sample_config : AstroConfig :=
  mkAstroConfig (lit "/site/src/") (lit "ignore") true None
    (lit "file:///site/") (lit "/") (lit "file:///site/dist/")
    (lit "static") (lit "file:///site/dist/client/").

Definition sample_settings : Settings :=
  mkSettings (mkSitemapConfig None None []) false true.

(** The state [setup] gives the sample site. *)
Definition sample_start : @State Accumulator :=
  @setup _ _ sample_builder sample_settings sample_config.

(** The state after [astro:config:setup] of a build in which the
    directories [present] exist. *)
Definition sample_built (present : list jsstring) : @State Accumulator :=
  snd (@config_setup _ _ sample_builder sample_helpers
         (sample_platform present []) build sample_start).

End SiteMap.

(* ================================================================== *)
(** * The integration: the parts of [astro:config:setup] *)
(* ================================================================== *)

Module Parts.
Import Json Integration.

(** ** The transform of the compatibility plugin (lines 53-60) *)

Definition PROCESS_PLATFORM : jsstring := Eval cbv in lit "process.platform".
Definition QUOTED_UNDEFINED : jsstring := Eval cbv in [34] ++ lit "undefined" ++ [34].
Definition PICOMATCH : jsstring := Eval cbv in lit "picomatch".
Definition MICROMATCH : jsstring := Eval cbv in lit "micromatch".
Definition ANYMATCH : jsstring := Eval cbv in lit "anymatch".

(** [s.replace(/pat/g, rep)] for a pattern that is a literal, non-empty
    string and a replacement without [$]: the matches are found from left to
    right, each search starting where the last match ended.  [skip] counts
    the characters of a match still to be passed over. *)
Fixpoint replace_from (pat rep : jsstring) (skip : nat) (s : jsstring)
  : jsstring :=
  match s with
  | [] => []
  | c :: t =>
      match skip with
      | S k => replace_from pat rep k t
      | O =>
          if startsWith pat s
          then rep ++ replace_from pat rep (List.length pat - 1) t
          else c :: replace_from pat rep 0 t
      end
  end.

Definition replaceAll (pat rep s : jsstring) : jsstring :=
  replace_from pat rep 0 s.

Definition msg_incompatible : jsstring :=
  lines [
    lit "Incompatible `picomatch` version detected, automatic patch applied";
    lit "To get rid of this error, add the following to your package.json and reinstall:";
    [34] ++ lit "overrides" ++ [34] ++ lit ": {";
    [9; 34] ++ lit "picomatch" ++ [34] ++ lit ": " ++ [34] ++ lit "^4.0.3"
      ++ [34];
    lit "}" ].

(** [transform(code, id)]: the code to use instead ([None] for [undefined],
    which leaves the module as it is), and the warnings logged. *)
Definition transform (code id : jsstring) : option jsstring * list jsstring :=
  if includes PICOMATCH id || includes MICROMATCH id || includes ANYMATCH id
  then
    if includes PROCESS_PLATFORM code
    then (Some (replaceAll PROCESS_PLATFORM QUOTED_UNDEFINED code),
          [msg_incompatible])
    else (None, [])
  else (None, []).

(** ** [astro:config:setup], cut in three *)

Section HookParts.

Context {B P : Type} `{SiteMapBuilder B P}.
Variable helpers : Helpers.
Variable platform : Platform.

#[local] Abbreviation M := (@M B).
#[local] Abbreviation State := (@State B).

#[local] Notation "x <- m ;; k" := (bind m (fun x => k))
  (at level 61, m at next level, right associativity).
#[local] Notation "m ;; k" := (bind m (fun _ => k))
  (at level 61, right associativity).

(** Lines 163-220: what the hook does once the sitemap is settled, given
    the pair [sitemapGenerationFailed], [sitemapErrorMessage]. *)
Definition publish (command : Command) (failed : bool * jsstring) : M unit :=
  pixi_stats platform command ;;
  when (is_dev command)
    (attempt (Update OptimizeMicromatch)
       (updateConfig platform OptimizeMicromatch)) ;;
  s' <- get_state ;;
  emit (VirtualImports (settings s') (config s')) ;;
  when (fst failed) (log Warning (msg_degraded (snd failed))) ;;
  emit InjectScript.

(** The calls of [publish], in order, when the host accepts them. *)
Definition publish_events (command : Command) (failed : bool * jsstring)
    (x : Settings) (c : AstroConfig) : list Event :=
  (if is_dev command && debug x
   then (if require_pixi_stats platform then [] else [Log Warning msg_pixi])
        ++ [Update (PixiStats (require_pixi_stats platform))]
   else [])
  ++ (if is_dev command then [Update OptimizeMicromatch] else [])
  ++ [VirtualImports x c]
  ++ (if fst failed then [Log Warning (msg_degraded (snd failed))] else [])
  ++ [InjectScript].

(** [config.prefetch = true] *)
Definition with_prefetch (c : AstroConfig) : AstroConfig :=
  mkAstroConfig (srcDir_pathname c) (trailingSlash c) true (adapter_name c)
    (root c) (base c) (outDir c) (output c) (build_client c).

(** [settings.sitemapConfig.contentRoot = r] *)
Definition with_contentRoot (x : Settings) (r : jsstring) : Settings :=
  mkSettings
    (mkSitemapConfig (Some r) (sitemap (sitemapConfig x))
       (pageInclusionRules (sitemapConfig x)))
    (debug x) (starlight x).

(** The calls of lines 38-104, in order. *)
Definition configure_events (s : State) : list Event :=
  Update PicomatchPolyfill
  :: (match updateConfig platform PicomatchPolyfill with
      | Some e => [Log Failure (msg_patch_failed e)]
      | None => []
      end)
  ++ [Builder (SetContentRoot
                 (contentRoot_of helpers (settings s) (config s)));
      Builder (SetTrailingSlash (addTrailingSlash (config s)))]
  ++ (if prefetch (config s) then [] else [Log Warning msg_prefetch]).

(** The state in which the hook reaches line 106. *)
Definition configured (s : State) : State :=
  let r := contentRoot_of helpers (settings s) (config s) in
  mkState
    (if falsy (contentRoot (sitemapConfig (settings s)))
     then with_contentRoot (settings s) r else settings s)
    (setTrailingSlash (addTrailingSlash (config s))
       (setContentRoot r (builder s)))
    (sitemapProvided s)
    (Some (output_path_of platform (config s)))
    (if prefetch (config s) then config s else with_prefetch (config s))
    (trace s ++ configure_events s).

(** The events that reach for content: an access, a scan, a [process]. *)
Definition reaches_content (e : Event) : Prop :=
  match e with
  | Access _
  | Builder (AddMDContentFolder _ _)
  | Builder (AddHTMLContentFolder _ _)
  | Builder Process => True
  | _ => False
  end.

Definition is_degraded_warning (e : Event) : Prop :=
  exists reason, e = Log Warning (msg_degraded reason).

Definition is_virtual_imports (e : Event) : Prop :=
  match e with VirtualImports _ _ => True | _ => False end.


End HookParts.

(** ** Sample states *)

Import SiteMap.

(** The sample site with a sitemap supplied in the settings. *)
Definition sample_supplied : @State Accumulator :=
  @setup _ _ sample_builder
    (mkSettings (mkSitemapConfig None (Some empty_sitemap_json) []) true true)
    sample_config.

(** The sample site with a content root that holds no pages. *)
Definition sample_elsewhere : @State Accumulator :=
  @setup _ _ sample_builder
    (mkSettings (mkSitemapConfig (Some (lit "elsewhere")) None []) false true)
    sample_config.



Definition enoent_scandir : thrown :=
  ThrownError
    (mkError (lit "ENOENT: no such file or directory, scandir") None).



Definition sample_disk : Platform :=
  sample_platform [lit "site/src/content/docs"; lit "/site/dist/"] [].

End Parts.

(* ================================================================== *)
(** * color.ts: the colours of the graph, and [sanitizeHTML] *)
(* ================================================================== *)

Module Graph.
Import Color.

(** ** Objects used as tables *)

Definition cssVariablesMap : list (jsstring * jsstring) :=
  Eval cbv in [
    (lit "backgroundColor", lit "--slsg-graph-bg-color");
    (lit "nodeColor", lit "--slsg-node-color");
    (lit "nodeColorHover", lit "--slsg-node-color-hover");
    (lit "nodeColorAdjacent", lit "--slsg-node-color-adjacent");
    (lit "nodeColorMuted", lit "--slsg-node-color-muted");
    (lit "nodeColorCurrent", lit "--slsg-node-color-current");
    (lit "nodeColorVisited", lit "--slsg-node-color-visited");
    (lit "nodeColorUnresolved", lit "--slsg-node-color-unresolved");
    (lit "nodeColorExternal", lit "--slsg-node-color-external");
    (lit "nodeColorTag", lit "--slsg-node-color-tag");
    (lit "nodeColor1", lit "--slsg-node-color-1");
    (lit "nodeColor2", lit "--slsg-node-color-2");
    (lit "nodeColor3", lit "--slsg-node-color-3");
    (lit "nodeColor4", lit "--slsg-node-color-4");
    (lit "nodeColor5", lit "--slsg-node-color-5");
    (lit "nodeColor6", lit "--slsg-node-color-6");
    (lit "nodeColor7", lit "--slsg-node-color-7");
    (lit "nodeColor8", lit "--slsg-node-color-8");
    (lit "nodeColor9", lit "--slsg-node-color-9");
    (lit "linkColor", lit "--slsg-link-color");
    (lit "linkColorHover", lit "--slsg-link-color-hover");
    (lit "linkColorMuted", lit "--slsg-link-color-muted");
    (lit "labelColor", lit "--slsg-label-color");
    (lit "labelColorHover", lit "--slsg-label-color-hover");
    (lit "labelColorMuted", lit "--slsg-label-color-muted") ].

Definition COLOR_FALLBACKS : list (jsstring * jsstring) :=
  Eval cbv in [
    (lit "backgroundColor", lit "#ffffff");
    (lit "nodeColor", lit "#4a9eff");
    (lit "nodeColorHover", lit "#2d7dd2");
    (lit "nodeColorAdjacent", lit "#80c0ff");
    (lit "nodeColorMuted", lit "#cccccc");
    (lit "nodeColorCurrent", lit "#ff6b6b");
    (lit "nodeColorVisited", lit "#a66eff");
    (lit "nodeColorUnresolved", lit "#ff9f43");
    (lit "nodeColorExternal", lit "#4ecdc4");
    (lit "nodeColorTag", lit "#95e1d3");
    (lit "linkColor", lit "#888888");
    (lit "linkColorHover", lit "#555555");
    (lit "linkColorMuted", lit "#dddddd");
    (lit "labelColor", lit "#333333");
    (lit "labelColorHover", lit "#000000");
    (lit "labelColorMuted", lit "#999999") ].

(** The property names every object inherits from [Object.prototype]. *)
Definition OBJECT_PROTOTYPE : list jsstring :=
  Eval cbv in map lit [
    "constructor"; "__defineGetter__"; "__defineSetter__"; "hasOwnProperty";
    "__lookupGetter__"; "__lookupSetter__"; "isPrototypeOf";
    "propertyIsEnumerable"; "toString"; "valueOf"; "__proto__";
    "toLocaleString" ]%string.

Definition PROTO : jsstring := Eval cbv in lit "__proto__".

(** What reading a property of one of the tables gives, and what the result
    holds: a string, or the member of [Object.prototype] of that name (a
    function, or the prototype itself for [__proto__]). *)
Inductive value :=
  | Str (s : jsstring)
  | Member (name : jsstring).

(** The own property [k] of an object written as a list of its entries. *)
Fixpoint own {V : Type} (k : jsstring) (table : list (jsstring * V))
  : option V :=
  match table with
  | [] => None
  | (k', v) :: rest => if eqb k k' then Some v else own k rest
  end.

(** [table[k]]: the own property, else the inherited one, else
    [undefined]. *)
Definition member (table : list (jsstring * jsstring)) (k : jsstring)
  : option value :=
  match own k table with
  | Some v => Some (Str v)
  | None => if existsb (eqb k) OBJECT_PROTOTYPE then Some (Member k) else None
  end.

Definition truthy_value (v : option value) : bool :=
  match v with
  | Some (Str s) => negb (isEmpty s)
  | Some (Member _) => true
  | None => false
  end.

(** [colors[k] = v]: the entry is replaced where it is, or added at the end.
    For [__proto__] the assignment goes to the setter of [Object.prototype]
    and makes no property: a string is ignored, and the prototype handed
    back to it is the one the object has. *)
Fixpoint put (k : jsstring) (v : value) (colors : list (jsstring * value))
  : list (jsstring * value) :=
  match colors with
  | [] => [(k, v)]
  | (k', v') :: rest =>
      if eqb k k' then (k, v) :: rest else (k', v') :: put k v rest
  end.

Definition assign (k : jsstring) (v : value)
    (colors : list (jsstring * value)) : list (jsstring * value) :=
  if eqb k PROTO then colors else put k v colors.

(** ** Messages *)

Inductive Console :=
  | ConsoleInfo (msg : jsstring)
  | ConsoleWarn (msg : jsstring).

Definition msg_dark_reader : jsstring :=
  lit "[STARLIGHT-SITE-GRAPH] Dark Reader extension detected. "
  ++ lit "Using enhanced color parsing with fallbacks to ensure graph renders correctly.".

Definition warn_not_found (color fallback : jsstring) : jsstring :=
  lit "[STARLIGHT-SITE-GRAPH] CSS variable " ++ DQ ++ color ++ DQ
  ++ lit " was not found on the graph element. Falling back to "
  ++ fallback ++ lit ".".

(** The [TypeError] of [color.startsWith] when [color] is [undefined], and
    when it is an object without that method (in V8's words). *)
Definition undefined_startsWith : thrown :=
  ThrownError
    (mkError
       (lit "Cannot read properties of undefined (reading 'startsWith')")
       None).

Definition startsWith_not_a_function : thrown :=
  ThrownError (mkError (lit "color.startsWith is not a function") None).

Definition BUILT_IN : list jsstring :=
  Eval cbv in map lit [
    "nodeColorHover"; "nodeColorAdjacent"; "nodeColorMuted";
    "linkColorHover"; "linkColorMuted";
    "linkColorHover"; "linkColorMuted" ]%string.

Section WithStyle.

Variable chroma_hex : jsstring -> Result jsstring.
Variable document : Document.
(** [getComputedStyle(node).getPropertyValue(name)] *)
Variable getPropertyValue : jsstring -> jsstring.
(** [String(Object.prototype[name])], as the engine prints it. *)
Variable member_text : jsstring -> jsstring.

(** A value where a string is expected: in a template literal, or as the
    argument of [getPropertyValue]. *)
Definition text (v : value) : jsstring :=
  match v with
  | Str s => s
  | Member name => member_text name
  end.

(** [getHexColor(color, fallback)] as [getGraphColors] calls it: with a
    string for [color], and for [fallback] what [COLOR_FALLBACKS] gave, which
    is returned as it is wherever the function answers with the fallback. *)
Definition getHexColor_value (color : jsstring) (fallback : value)
  : value * list jsstring :=
  match sanitizeColorValue (Some color) with
  | None => (fallback, [])
  | Some sanitized =>
      if isEmpty sanitized then (fallback, [])
      else
        match chroma_hex sanitized with
        | Ok hex_color => (Str hex_color, [])
        | Throw e =>
            if isDarkReaderActive document
            then (fallback,
                  [warn_dark_reader color sanitized (text fallback)])
            else (fallback, [warn_invalid color (text fallback) e])
        end
  end.

(** [COLOR_FALLBACKS[identifier] || '#000000'] *)
Definition fallback_of (identifier : jsstring) : value :=
  match member COLOR_FALLBACKS identifier with
  | Some v => if truthy_value (Some v) then v else Str BLACK
  | None => Str BLACK
  end.

(** The body of the loop (lines 201-220): the value stored for
    [identifier] and the warnings logged, or the value thrown. *)
Definition color_for (custom_color_map : list (jsstring * jsstring))
    (identifier : jsstring) : Result (value * list jsstring) :=
  let fallback := fallback_of identifier in
  let from_custom_map :=
    match member custom_color_map identifier with
    | None => Throw undefined_startsWith
    | Some (Member _) => Throw startsWith_not_a_function
    | Some (Str color) =>
        if startsWith (lit "--") color
        then
          let cssPropertyValue := getPropertyValue color in
          if negb (isEmpty cssPropertyValue)
          then Ok (getHexColor_value cssPropertyValue fallback)
          else Ok (fallback, [warn_not_found color (text fallback)])
        else Ok (getHexColor_value color fallback)
    end in
  match member cssVariablesMap identifier with
  | Some color =>
      if truthy_value (Some color)
      then Ok (getHexColor_value (getPropertyValue (text color)) fallback)
      else from_custom_map
  | None => from_custom_map
  end.

(** The loop of lines 200-221 over the identifiers still to do. *)
Fixpoint each_color (custom_color_map : list (jsstring * jsstring))
    (identifiers : list jsstring) (colors : list (jsstring * value))
    (logs : list Console)
  : Result (list (jsstring * value)) * list Console :=
  match identifiers with
  | [] => (Ok colors, logs)
  | identifier :: rest =>
      match color_for custom_color_map identifier with
      | Ok (v, warnings) =>
          each_color custom_color_map rest (assign identifier v colors)
            (logs ++ map ConsoleWarn warnings)
      | Throw e => (Throw e, logs)
      end
  end.

(** [getGraphColors(node, included_colors, custom_color_map)]: the object
    returned, or the value thrown, and what was written to the console. *)
Definition getGraphColors (included_colors : list jsstring)
    (custom_color_map : list (jsstring * jsstring))
  : Result (list (jsstring * value)) * list Console :=
  each_color custom_color_map (BUILT_IN ++ included_colors) []
    (if isDarkReaderActive document then [ConsoleInfo msg_dark_reader]
     else []).

(** ** The conditions of the properties *)

(** A colour is good for [k] when it is the fallback of [k], or what chroma
    reads in a sanitized string. *)
Definition good (k : jsstring) (v : value) : Prop :=
  v = fallback_of k
  \/ exists s hex, trim s = s /\ includes VAR_OPEN s = false
                   /\ chroma_hex s = Ok hex /\ v = Str hex.

End WithStyle.

(** An identifier is unknown when neither [cssVariablesMap] has it, nor
    [Object.prototype], nor the custom map. *)
Definition unknown (custom_color_map : list (jsstring * jsstring))
    (k : jsstring) : Prop :=
  own k cssVariablesMap = None /\ ~ In k OBJECT_PROTOTYPE
  /\ own k custom_color_map = None.

(** ** [sanitizeHTML] *)

(** How the serialization of a text node (the getter of [innerHTML])
    escapes one code unit. *)
Definition escape_unit (c : codeunit) : jsstring :=
  if N.eqb c 38 then lit "&amp;"
  else if N.eqb c 160 then lit "&nbsp;"
  else if N.eqb c 60 then lit "&lt;"
  else if N.eqb c 62 then lit "&gt;"
  else [c].

(** [sanitizeHTML(input)]; [None] is [null] or [undefined].  The text set
    as [textContent] of a fresh [div] comes back from [innerHTML] escaped. *)
Definition sanitizeHTML (input : option jsstring) : jsstring :=
  match input with
  | None => []
  | Some s => if isEmpty s then [] else flat_map escape_unit s
  end.

(** The names of the four character references [sanitizeHTML] writes. *)
Definition REFERENCES : list jsstring :=
  Eval cbv in map lit ["amp;"; "nbsp;"; "lt;"; "gt;"]%string.

(** ** A concrete element for the examples *)

(** An element on which [--slsg-node-color] is red and [--accent] is not a
    colour; nothing else is set. *)
Definition style_sample (name : jsstring) : jsstring :=
  if eqb name (lit "--slsg-node-color") then lit "red"
  else if eqb name (lit "--accent") then lit "accent, please"
  else [].

Definition member_text_sample (name : jsstring) : jsstring :=
  lit "function " ++ name ++ lit "() { [native code] }".

End Graph.

(* ================================================================== *)
(** * Facts about strings *)
(* ================================================================== *)

Module JsFacts.

Lemma eqb_eq (a b : jsstring) : eqb a b = true <-> a = b.
Proof.
  revert b; induction a as [|x a IH]; intros [|y b]; simpl; split;
    try congruence; try reflexivity.
  - intros H. apply andb_true_iff in H as [Hx Hab].
    apply N.eqb_eq in Hx. apply IH in Hab. congruence.
  - intros H. injection H as -> ->.
    rewrite N.eqb_refl. simpl. now apply IH.
Qed.

Lemma eqb_refl (a : jsstring) : eqb a a = true.
Proof. now apply eqb_eq. Qed.

Lemma eqb_neq (a b : jsstring) : eqb a b = false <-> a <> b.
Proof.
  split.
  - intros H E. apply eqb_eq in E. congruence.
  - intros H. destruct (eqb a b) eqn:E; [|reflexivity].
    apply eqb_eq in E. contradiction.
Qed.

Lemma startsWith_spec (pat s : jsstring) :
  startsWith pat s = true <-> exists r, s = pat ++ r.
Proof.
  revert s; induction pat as [|p pat IH]; intros s; simpl.
  - split; [intros _; now exists s | reflexivity].
  - destruct s as [|c s]; simpl.
    + split; [discriminate | intros [r Hr]; discriminate].
    + rewrite andb_true_iff, N.eqb_eq, IH. split.
      * intros [-> [r ->]]. now exists r.
      * intros [r Hr]. injection Hr as -> ->. split; [reflexivity | now exists r].
Qed.

Lemma includes_spec (pat s : jsstring) :
  includes pat s = true <-> Infix pat s.
Proof.
  induction s as [|c s IH].
  - simpl. rewrite orb_false_r, startsWith_spec. split.
    + intros [r Hr]. now exists [], r.
    + intros [l [r H]]. destruct l; [now exists r | discriminate].
  - cbn [includes]. rewrite orb_true_iff, startsWith_spec, IH. split.
    + intros [[r Hr] | [l [r Hr]]].
      * now exists [], r.
      * exists (c :: l), r. now rewrite Hr.
    + intros [[|x l] [r Hr]].
      * left. now exists r.
      * right. injection Hr as -> ->. now exists l, r.
Qed.

Lemma Infix_trans (a b c : jsstring) : Infix a b -> Infix b c -> Infix a c.
Proof.
  intros [l [r ->]] [l' [r' ->]]. exists (l' ++ l), (r ++ r').
  now rewrite <- !app_assoc.
Qed.

(** An occurrence whose first character does not appear in a prefix [w] of
    the string lies entirely after [w]. *)
Lemma Infix_skip_prefix (h : codeunit) (pat w t : jsstring) :
  Forall (fun c => c <> h) w ->
  Infix (h :: pat) (w ++ t) -> Infix (h :: pat) t.
Proof.
  induction w as [|c w IH]; intros Hw Hin; [exact Hin|].
  inversion Hw as [|? ? Hc Hw']; subst.
  apply IH; [assumption|].
  destruct Hin as [[|x l] [r Hr]]; simpl in Hr.
  - injection Hr as Hx _. congruence.
  - injection Hr as _ Hr. now exists l, r.
Qed.

Lemma Infix_rev (pat s : jsstring) : Infix pat s -> Infix (rev pat) (rev s).
Proof.
  intros [l [r ->]]. exists (rev r), (rev l).
  now rewrite !rev_app_distr, <- app_assoc.
Qed.

(** The mirror image: an occurrence whose last character does not appear in
    a suffix [w] lies entirely before [w]. *)
Lemma Infix_skip_suffix (h : codeunit) (pat w t : jsstring) :
  Forall (fun c => c <> h) w ->
  Infix (pat ++ [h]) (t ++ w) -> Infix (pat ++ [h]) t.
Proof.
  intros Hw Hin. apply Infix_rev in Hin.
  rewrite !rev_app_distr in Hin. simpl in Hin.
  apply Infix_skip_prefix in Hin.
  - apply Infix_rev in Hin. simpl in Hin.
    now rewrite !rev_involutive in Hin.
  - now apply Forall_rev.
Qed.

Lemma trimStart_split (s : jsstring) :
  exists w, s = w ++ trimStart s /\ forallb is_space w = true.
Proof.
  induction s as [|c s [w [Hs Hw]]]; simpl.
  - now exists [].
  - destruct (is_space c) eqn:Hc.
    + exists (c :: w). simpl. rewrite Hc, Hw. split; [congruence | reflexivity].
    + now exists [].
Qed.

Lemma trimEnd_split (s : jsstring) :
  exists w, s = trimEnd s ++ w /\ forallb is_space w = true.
Proof.
  unfold trimEnd. destruct (trimStart_split (rev s)) as [w [Hs Hw]].
  exists (rev w). split.
  - rewrite <- (rev_involutive s), Hs at 1. now rewrite rev_app_distr.
  - apply forallb_forall. intros x Hx. apply in_rev in Hx.
    now apply (proj1 (forallb_forall _ _) Hw).
Qed.

Lemma trim_Infix (s : jsstring) : Infix (trim s) s.
Proof.
  unfold trim. destruct (trimStart_split s) as [w [Hs _]].
  destruct (trimEnd_split (trimStart s)) as [w' [Hs' _]].
  exists w, w'. now rewrite <- Hs'.
Qed.

Lemma spaces_avoid (h : codeunit) (w : jsstring) :
  is_space h = false -> forallb is_space w = true -> Forall (fun c => c <> h) w.
Proof.
  intros Hh Hw. apply Forall_forall. intros x Hx ->.
  rewrite (proj1 (forallb_forall _ _) Hw _ Hx) in Hh. discriminate.
Qed.

Lemma trimStart_nil_iff (s : jsstring) :
  trimStart s = [] <-> forallb is_space s = true.
Proof.
  induction s as [|c s IH]; simpl; [tauto|].
  destruct (is_space c); simpl; [exact IH|]. split; discriminate.
Qed.

End JsFacts.

(* ================================================================== *)
(** * Facts about color.ts *)
(* ================================================================== *)

Module ColorFacts.
Import Color JsFacts.

Lemma strip_prefix_ci_split (bad : codeunit) (pat s rest : jsstring) :
  Forall (fun p => ascii_upper p <> ascii_upper bad) pat ->
  strip_prefix_ci pat s = Some rest ->
  exists m, s = m ++ rest /\ Forall (fun c => c <> bad) m.
Proof.
  revert s; induction pat as [|p pat IH]; intros s Hpat H; simpl in H.
  - injection H as ->. now exists [].
  - destruct s as [|c s]; [discriminate|].
    inversion Hpat as [|? ? Hp Hpat']; subst.
    destruct (ci_match p c) eqn:Hm; [|discriminate].
    destruct (IH _ Hpat' H) as [m [-> Hm']].
    exists (c :: m). split; [reflexivity|].
    constructor; [|assumption].
    intros ->. apply N.eqb_eq in Hm. congruence.
Qed.

(** Nothing that the pattern [\s*!important\s*$] matches holds a [(]. *)
Lemma tail_matches_no_paren (q : jsstring) :
  tail_matches q = true -> Forall (fun c => c <> 40) q.
Proof.
  unfold tail_matches. intros H.
  destruct (trimStart_split q) as [w [Hq Hw]].
  destruct (strip_prefix_ci IMPORTANT (trimStart q)) as [rest|] eqn:Hs;
    [|discriminate].
  apply (@strip_prefix_ci_split 40) in Hs as [m [Hm Hno]].
  - rewrite Hq, Hm. apply Forall_app; split; [|apply Forall_app; split].
    + now apply spaces_avoid.
    + assumption.
    + now apply spaces_avoid.
  - unfold IMPORTANT. repeat constructor; discriminate.
Qed.

Lemma replace_important_split (s : jsstring) :
  exists q, s = replace_important s ++ q /\ Forall (fun c => c <> 40) q.
Proof.
  induction s as [|c s [q [Hs Hq]]].
  - exists []. simpl. destruct (tail_matches []); now split.
  - cbn [replace_important]. destruct (tail_matches (c :: s)) eqn:Ht.
    + exists (c :: s). split; [reflexivity | now apply tail_matches_no_paren].
    + exists q. split; [simpl; congruence | assumption].
Qed.

Lemma replace_important_Infix (s : jsstring) : Infix (replace_important s) s.
Proof.
  destruct (replace_important_split s) as [q [Hs _]]. now exists [], q.
Qed.

(** The test for [var(] gives the same answer on the raw value and on the
    cleaned one: neither [trim] nor the removal of [!important] can cut an
    occurrence. *)
Lemma includes_var_cleaned (c : jsstring) :
  includes VAR_OPEN (replace_important (trim c)) = includes VAR_OPEN c.
Proof.
  apply eq_true_iff_eq. rewrite !includes_spec. split.
  - intros H. eapply Infix_trans; [exact H|].
    eapply Infix_trans; [apply replace_important_Infix | apply trim_Infix].
  - intros H.
    destruct (trimStart_split c) as [w [Hc Hw]].
    destruct (trimEnd_split (trimStart c)) as [w' [Hc' Hw']].
    destruct (replace_important_split (trim c)) as [q [Hq Hno]].
    rewrite Hc in H.
    apply (@Infix_skip_prefix 118 [97; 114; 40] w (trimStart c)) in H;
      [|now apply spaces_avoid].
    rewrite Hc' in H. fold (trim c) in H.
    apply (@Infix_skip_suffix 40 [118; 97; 114] w' (trim c)) in H;
      [|now apply spaces_avoid].
    rewrite Hq in H.
    now apply (@Infix_skip_suffix 40 [118; 97; 114] q) in H.
Qed.

Lemma isEmpty_length (s : jsstring) :
  Nat.eqb (List.length s) 0 = isEmpty s.
Proof. now destruct s. Qed.

Lemma trim_nil : trim [] = [].
Proof. reflexivity. Qed.

(** [sanitizeColorValue] returns [null] exactly on the rejected inputs. *)
Lemma sanitizeColorValue_None_iff (color : option jsstring) :
  sanitizeColorValue color = None <-> rejected color = true.
Proof.
  destruct color as [c|]; simpl; [|tauto].
  rewrite isEmpty_length, includes_var_cleaned.
  destruct c as [|x c]; [simpl; tauto|]. cbn [isEmpty].
  destruct (isEmpty (trim (x :: c))); [simpl; tauto|].
  destruct (includes VAR_OPEN (x :: c)); [simpl; tauto|]. cbn [orb].
  set (k := replace_important (trim (x :: c))).
  destruct (eqb k TRANSPARENT) eqn:Ht.
  - apply eqb_eq in Ht. rewrite Ht. simpl. split; discriminate.
  - rewrite orb_false_r.
    destruct (eqb k NONE || eqb k INHERIT || eqb k INITIAL || eqb k UNSET);
      split; congruence.
Qed.

Lemma sanitizeColorValue_transparent (c : jsstring) :
  replace_important (trim c) = TRANSPARENT ->
  sanitizeColorValue (Some c) = Some RGBA_ZERO.
Proof.
  intros H. unfold sanitizeColorValue.
  rewrite isEmpty_length, H.
  destruct c as [|x c]; [discriminate H|]. cbn [isEmpty].
  destruct (isEmpty (trim (x :: c))) eqn:E.
  - destruct (trim (x :: c)); [discriminate H | discriminate E].
  - reflexivity.
Qed.

Example sanitize_strips_important :
  sanitizeColorValue (Some (lit "  #FFF   !IMPORTANT ")) = Some (lit "#FFF").
Proof. reflexivity. Qed.

Example sanitize_rejects_keyword :
  sanitizeColorValue (Some (lit "inherit !important")) = None.
Proof. reflexivity. Qed.

Example sanitize_rejects_nested_variable :
  sanitizeColorValue (Some (lit "rgb(var(--r), 0, 0)")) = None.
Proof. reflexivity. Qed.

Example sanitize_only_important :
  sanitizeColorValue (Some (lit "!important")) = Some []
  /\ fst (getHexColor chroma_sample plain_document
            (Some (lit "!important")) None) = BLACK.
Proof. split; reflexivity. Qed.

Example sanitizeURL_relative :
  sanitizeURL scheme_protocol (lit "https://docs.example")
    (Some (lit "/guide/intro")) None = lit "/guide/intro".
Proof. reflexivity. Qed.

Example sanitizeURL_javascript :
  sanitizeURL scheme_protocol (lit "https://docs.example")
    (Some (lit "JavaScript:alert(1)")) None = HASH.
Proof. reflexivity. Qed.

End ColorFacts.

(* ================================================================== *)
(** * Facts about [JSON.stringify] *)
(* ================================================================== *)

Module JsonFacts.
Import Json.
Import Integration.

(** Induction on a value and, with it, on the values inside it. *)
Fixpoint json_rect' (Q : json -> Prop)
    (Hnull : Q JNull) (Hbool : forall b, Q (JBool b))
    (Hnum : forall n, Q (JNum n)) (Hstr : forall s, Q (JStr s))
    (Harr : forall items, Forall Q items -> Q (JArr items))
    (Hobj : forall props, Forall (fun kv => Q (snd kv)) props -> Q (JObj props))
    (v : json) : Q v :=
  match v with
  | JNull => Hnull
  | JBool b => Hbool b
  | JNum n => Hnum n
  | JStr s => Hstr s
  | JArr items =>
      Harr items
        ((fix all (l : list json) : Forall Q l :=
            match l with
            | [] => Forall_nil Q
            | x :: rest =>
                Forall_cons x
                  (json_rect' Hnull Hbool Hnum Hstr Harr Hobj x) (all rest)
            end) items)
  | JObj props =>
      Hobj props
        ((fix all (l : list (jsstring * json))
            : Forall (fun kv => Q (snd kv)) l :=
            match l with
            | [] => Forall_nil _
            | x :: rest =>
                Forall_cons x
                  (json_rect' Hnull Hbool Hnum Hstr Harr Hobj (snd x))
                  (all rest)
            end) props)
  end.

(** A string is on one line when it holds no line feed. *)
Definition one_line (s : jsstring) : Prop := Forall (fun c => c <> 10) s.

Lemma one_line_app (a b : jsstring) :
  one_line a -> one_line b -> one_line (a ++ b).
Proof. intros Ha Hb. apply Forall_app. now split. Qed.

Lemma one_line_join (sep : jsstring) (parts : list jsstring) :
  one_line sep -> Forall one_line parts -> one_line (join sep parts).
Proof.
  intros Hsep Hparts. induction Hparts as [|p rest Hp Hrest IH]; simpl.
  - constructor.
  - destruct rest as [|q rest']; [exact Hp|].
    apply one_line_app; [exact Hp|]. apply one_line_app; [exact Hsep|exact IH].
Qed.

Lemma hex_digit_visible (n : N) : hex_digit n <> 10.
Proof. unfold hex_digit. destruct (n <? 10); lia. Qed.

Lemma unicode_escape_one_line (c : codeunit) : one_line (unicode_escape c).
Proof.
  unfold unicode_escape.
  repeat (constructor; [first [apply hex_digit_visible | discriminate]|]).
  constructor.
Qed.

Lemma quote_unit_one_line (c : codeunit) : one_line (quote_unit c).
Proof.
  unfold quote_unit.
  repeat match goal with
         | |- context [if N.eqb c ?k then _ else _] =>
             destruct (N.eqb_spec c k);
               [repeat (constructor; [discriminate|]); constructor|]
         end.
  destruct (c <? 32); [apply unicode_escape_one_line|].
  destruct (_ || _); [apply unicode_escape_one_line|].
  constructor; [assumption | constructor].
Qed.

Lemma quote_body_one_line (s : jsstring) : one_line (quote_body s).
Proof.
  assert (G : forall n s, (List.length s < n)%nat -> one_line (quote_body s)).
  { induction n as [|n IH]; intros s' Hlen; [lia|].
    destruct s' as [|c [|d t]]; simpl.
    - constructor.
    - apply quote_unit_one_line.
    - destruct (is_lead_surrogate c && is_trail_surrogate d) eqn:E.
      + apply andb_true_iff in E as [Ec Ed].
        unfold is_lead_surrogate, is_trail_surrogate in *.
        apply andb_true_iff in Ec as [Ec _]. apply N.leb_le in Ec.
        apply andb_true_iff in Ed as [Ed _]. apply N.leb_le in Ed.
        constructor; [lia|]. constructor; [lia|].
        apply IH. simpl in Hlen. lia.
      + apply one_line_app; [apply quote_unit_one_line|].
        apply (IH (d :: t)). simpl in *. lia. }
  apply (G (S (List.length s))). lia.
Qed.

Lemma quote_one_line (s : jsstring) : one_line (quote s).
Proof.
  unfold quote. apply one_line_app; [repeat constructor; discriminate|].
  apply one_line_app; [apply quote_body_one_line|].
  repeat constructor; discriminate.
Qed.

Lemma digits_one_line (fuel : nat) (n : N) (acc : jsstring) :
  one_line acc -> one_line (digits fuel n acc).
Proof.
  revert n acc; induction fuel as [|fuel IH]; intros n acc Hacc; simpl.
  - exact Hacc.
  - assert (H : one_line ((48 + n mod 10) :: acc)) 
      by (constructor; [generalize (n mod 10); intros; lia | exact Hacc]).
    destruct (n <? 10); [exact H | now apply IH].
Qed.

Lemma of_N_one_line (n : N) : one_line (of_N n).
Proof. apply digits_one_line. constructor. Qed.

Lemma zeros_one_line (count : nat) : one_line (repeat 48 count).
Proof. induction count; simpl; constructor; [discriminate | assumption]. Qed.

Lemma one_line_firstn (count : nat) (s : jsstring) :
  one_line s -> one_line (firstn count s).
Proof.
  intros Hs. rewrite <- (firstn_skipn count s) in Hs.
  now apply Forall_app in Hs as [Hs _].
Qed.

Lemma one_line_skipn (count : nat) (s : jsstring) :
  one_line s -> one_line (skipn count s).
Proof.
  intros Hs. rewrite <- (firstn_skipn count s) in Hs.
  now apply Forall_app in Hs as [_ Hs].
Qed.

Lemma finite_one_line (s : positive) (n : Z) :
  one_line (finite_to_string s n).
Proof.
  unfold finite_to_string. cbv zeta.
  pose proof (of_N_one_line (Npos s)) as Hd.
  assert (He : one_line ([101; if (n <? 0)%Z then 45 else 43]
                         ++ of_N (Z.abs_N (n - 1)))).
  { apply one_line_app; [|apply of_N_one_line].
    destruct (n <? 0)%Z; repeat constructor; discriminate. }
  destruct ((-5 <=? n)%Z && (n <=? 21)%Z).
  - destruct (Z.of_nat (List.length (of_N (Npos s))) <=? n)%Z.
    + apply one_line_app; [exact Hd | apply zeros_one_line].
    + destruct (0 <? n)%Z.
      * apply one_line_app; [now apply one_line_firstn|].
        apply one_line_app; [repeat constructor; discriminate|].
        now apply one_line_skipn.
      * apply one_line_app; [repeat constructor; discriminate|].
        apply one_line_app; [apply zeros_one_line | exact Hd].
  - destruct (of_N (Npos s)) as [|d [|d' rest]]; [exact He| |].
    + apply one_line_app; [exact Hd | exact He].
    + inversion Hd as [|? ? Hd1 Hd2]. subst.
      apply one_line_app; [repeat constructor; [exact Hd1 | discriminate]|].
      apply one_line_app; [exact Hd2 | exact He].
Qed.

Lemma number_one_line (x : number) :
  one_line (match x with
            | Infinite _ | NaN => lit "null"
            | _ => number_to_string x
            end).
Proof.
  destruct x as [|negative s n|negative|]; cbn [number_to_string].
  - repeat constructor; discriminate.
  - apply one_line_app; [|apply finite_one_line].
    destruct negative; repeat constructor; discriminate.
  - repeat constructor; discriminate.
  - repeat constructor; discriminate.
Qed.

Lemma wrap_compact_one_line (o c : codeunit) (stepback : jsstring)
    (partial : list jsstring) :
  o <> 10 -> c <> 10 -> Forall one_line partial ->
  one_line (wrap o c [] stepback partial).
Proof.
  intros Ho Hc Hp. unfold wrap. destruct partial as [|p rest].
  - repeat (constructor; [assumption|]). constructor.
  - cbn [isEmpty]. apply one_line_app; [repeat constructor; assumption|].
    apply one_line_app; [|repeat constructor; assumption].
    apply one_line_join; [repeat constructor; discriminate | exact Hp].
Qed.

(** Without a gap, the serialization is on one line. *)
Lemma serialize_compact_one_line (v : json) :
  forall indent, one_line (serialize [] indent v).
Proof.
  induction v as [|b|n|s|items IH|props IH] using json_rect'; intros indent.
  - repeat (constructor; [discriminate|]). constructor.
  - destruct b; repeat (constructor; [discriminate|]); constructor.
  - cbn [serialize]. pose proof (number_one_line n) as Hn.
    destruct n; exact Hn.
  - apply quote_one_line.
  - cbn [serialize]. apply wrap_compact_one_line; try discriminate.
    apply Forall_map. revert IH. apply Forall_impl. intros x Hx. apply Hx.
  - cbn [serialize]. apply wrap_compact_one_line; try discriminate.
    apply Forall_map. revert IH. apply Forall_impl. intros [k x] Hx.
    cbn [fst snd isEmpty].
    apply one_line_app; [apply quote_one_line|].
    apply one_line_app; [repeat constructor; discriminate|]. apply Hx.
Qed.

Lemma stringify_compact_one_line (v : json) : ~ In 10 (stringify v 0).
Proof.
  intros Hin. pose proof (serialize_compact_one_line v []) as H.
  unfold one_line in H. rewrite Forall_forall in H. now apply (H 10 Hin).
Qed.

Lemma join_cons (sep p : jsstring) (rest : list jsstring) :
  exists tail, join sep (p :: rest) = p ++ tail.
Proof.
  destruct rest as [|q rest]; simpl.
  - exists []. now rewrite app_nil_r.
  - now exists (sep ++ join sep (q :: rest)).
Qed.

Lemma wrap_pretty (o c g : codeunit) (gap stepback p : jsstring)
    (rest : list jsstring) :
  exists tail,
    wrap o c (g :: gap) stepback (p :: rest)
    = [o] ++ LF ++ (stepback ++ g :: gap) ++ p ++ tail
      ++ LF ++ stepback ++ [c].
Proof.
  unfold wrap. cbn [isEmpty].
  destruct (join_cons ([44] ++ LF ++ stepback ++ g :: gap) p rest)
    as [tail E].
  rewrite E. exists tail. now rewrite <- !app_assoc.
Qed.

(** With a gap of two, an object with a property starts on a new line,
    indented by two spaces, and closes on a line of its own. *)
Lemma stringify_pretty_object (k : jsstring) (v : json)
    (rest : list (jsstring * json)) :
  exists body,
    stringify (JObj ((k, v) :: rest)) 2
    = [123; 10; 32; 32] ++ quote k ++ [58; 32] ++ body ++ [10; 125].
Proof.
  unfold stringify. change (gap_of 2) with [32; 32]. cbn [serialize map].
  match goal with
  | |- context [wrap ?o ?c (?g :: ?gap) ?sb (?p :: ?r)] =>
      destruct (wrap_pretty o c g gap sb p r) as [tail E]
  end.
  exists (serialize [32; 32] ([] ++ [32; 32]) v ++ tail).
  etransitivity; [exact E|].
  cbn [isEmpty fst snd]. simpl. rewrite <- !app_assoc. reflexivity.
Qed.

(** Numbers print as [Number::toString] prints them; those that are not
    finite serialize as [null]. *)
Example stringify_numbers :
  map (fun x => stringify (JNum x) 0)
    [integer 120; integer (-12); Zero; Finite false 5 0;
     Finite false 123456 3; Finite false 1 21; Finite false 1 22;
     Finite false 12 22; Finite false 1 (-5); Finite true 15 (-6);
     NaN; Infinite true]
  = map lit ["120"; "-12"; "0"; "0.5"; "123.456"; "100000000000000000000";
             "1e+21"; "1.2e+21"; "0.000001"; "-1.5e-7"; "null";
             "null"]%string.
Proof. reflexivity. Qed.

Example stringify_compact_sample :
  stringify
    (JObj [(lit "a", JArr [JNum (integer 1); JStr (lit "x" ++ LF); JNull]);
           (lit "b", JObj [])]) 0
  = lit "{" ++ [34] ++ lit "a" ++ [34] ++ lit ":[1," ++ [34] ++ lit "x\n"
    ++ [34] ++ lit ",null]," ++ [34] ++ lit "b" ++ [34] ++ lit ":{}}".
Proof. reflexivity. Qed.

Example stringify_pretty_sample :
  stringify
    (JObj [(lit "a", JArr [JNum (integer (-12)); JBool true]); (lit "b", JObj [])]) 2
  = lines [lit "{";
           lit "  " ++ [34] ++ lit "a" ++ [34] ++ lit ": [";
           lit "    -12,";
           lit "    true";
           lit "  ],";
           lit "  " ++ [34] ++ lit "b" ++ [34] ++ lit ": {}";
           lit "}"].
Proof. reflexivity. Qed.

End JsonFacts.

(* ================================================================== *)
(** * Facts about the effects of the hooks *)
(* ================================================================== *)

Module HookFacts.
Import Json Integration.

Section Rules.

Context {B P : Type} `{SiteMapBuilder B P}.

#[local] Abbreviation M := (@M B).
#[local] Abbreviation State := (@State B).

Lemma bind_Ok {A C} (m : M A) (k : A -> M C) s a :
  fst (m s) = Ok a -> bind m k s = k a (snd (m s)).
Proof. unfold bind. destruct (m s) as [[x|e] s']; simpl; congruence. Qed.

Lemma bind_Throw {A C} (m : M A) (k : A -> M C) s e :
  fst (m s) = Throw e -> bind m k s = (Throw e, snd (m s)).
Proof. unfold bind. destruct (m s) as [[x|e'] s']; simpl; congruence. Qed.

Lemma try_Ok {A} (m : M A) (h : thrown -> M A) s a :
  fst (m s) = Ok a -> try_catch m h s = (Ok a, snd (m s)).
Proof. unfold try_catch. destruct (m s) as [[x|e] s']; simpl; congruence. Qed.

Lemma try_Throw {A} (m : M A) (h : thrown -> M A) s e :
  fst (m s) = Throw e -> try_catch m h s = h e (snd (m s)).
Proof. unfold try_catch. destruct (m s) as [[x|e'] s']; simpl; congruence. Qed.

(** *** only adding events *)

Section Emits.
Variable Q : Event -> Prop.

Lemma emits_ret {A} (a : A) : emits Q (ret a : M A).
Proof. intros s. exists []. simpl. now rewrite app_nil_r. Qed.

Lemma emits_throw {A} e : emits Q (@throw B A e).
Proof. intros s. exists []. simpl. now rewrite app_nil_r. Qed.

Lemma emits_get : emits Q (get_state : M State).
Proof. intros s. exists []. simpl. now rewrite app_nil_r. Qed.

Lemma emits_bind {A C} (m : M A) (k : A -> M C) :
  emits Q m -> (forall a, emits Q (k a)) -> emits Q (bind m k).
Proof.
  intros Hm Hk s. destruct (Hm s) as [e1 [E1 Q1]]. unfold bind.
  destruct (m s) as [[a|e] s']; simpl in *.
  - destruct (Hk a s') as [e2 [E2 Q2]]. exists (e1 ++ e2).
    rewrite E2, E1, app_assoc. split; [reflexivity | now apply Forall_app].
  - now exists e1.
Qed.

Lemma emits_try {A} (m : M A) (h : thrown -> M A) :
  emits Q m -> (forall e, emits Q (h e)) -> emits Q (try_catch m h).
Proof.
  intros Hm Hh s. destruct (Hm s) as [e1 [E1 Q1]]. unfold try_catch.
  destruct (m s) as [[a|e] s']; simpl in *.
  - now exists e1.
  - destruct (Hh e s') as [e2 [E2 Q2]]. exists (e1 ++ e2).
    rewrite E2, E1, app_assoc. split; [reflexivity | now apply Forall_app].
Qed.

Lemma emits_emit e : Q e -> emits Q (emit e : M unit).
Proof. intros He s. exists [e]. simpl. split; [reflexivity | now constructor]. Qed.

Lemma emits_put_settings x : emits Q (put_settings x : M unit).
Proof. intros s. exists []. simpl. now rewrite app_nil_r. Qed.

Lemma emits_put_builder (b : B) : emits Q (put_builder b).
Proof. intros s. exists []. simpl. now rewrite app_nil_r. Qed.

Lemma emits_put_outputPath p : emits Q (put_outputPath p : M unit).
Proof. intros s. exists []. simpl. now rewrite app_nil_r. Qed.

Lemma emits_put_config c : emits Q (put_config c : M unit).
Proof. intros s. exists []. simpl. now rewrite app_nil_r. Qed.

Lemma emits_when c (m : M unit) : emits Q m -> emits Q (when c m).
Proof. intros Hm. destruct c; [exact Hm | apply emits_ret]. Qed.

Lemma emits_if {A} (c : bool) (m1 m2 : M A) :
  emits Q m1 -> emits Q m2 -> emits Q (if c then m1 else m2).
Proof. now destruct c. Qed.

Lemma emits_answer (r : option thrown) :
  emits Q (match r with None => ret tt | Some err => throw err end
           : M unit).
Proof. destruct r; [apply emits_throw | apply emits_ret]. Qed.

End Emits.

(** *** returning *)

Lemma returns_ret {A} (a : A) : returns (ret a : M A).
Proof. intros s. now exists a. Qed.

Lemma returns_get : returns (get_state : M State).
Proof. intros s. now exists s. Qed.

Lemma returns_bind {A C} (m : M A) (k : A -> M C) :
  returns m -> (forall a, returns (k a)) -> returns (bind m k).
Proof.
  intros Hm Hk s. destruct (Hm s) as [a Ha].
  rewrite (@bind_Ok _ _ m k s a Ha). apply Hk.
Qed.

Lemma returns_try {A} (m : M A) (h : thrown -> M A) :
  (forall e, returns (h e)) -> returns (try_catch m h).
Proof.
  intros Hh s. unfold try_catch. destruct (m s) as [[a|e] s'].
  - now exists a.
  - apply Hh.
Qed.

Lemma returns_emit e : returns (emit e : M unit).
Proof. intros s. now exists tt. Qed.

Lemma returns_put_settings x : returns (put_settings x : M unit).
Proof. intros s. now exists tt. Qed.

Lemma returns_put_builder (b : B) : returns (put_builder b).
Proof. intros s. now exists tt. Qed.

Lemma returns_put_outputPath p : returns (put_outputPath p : M unit).
Proof. intros s. now exists tt. Qed.

Lemma returns_put_config c : returns (put_config c : M unit).
Proof. intros s. now exists tt. Qed.

Lemma returns_when c (m : M unit) : returns m -> returns (when c m).
Proof. intros Hm. destruct c; [exact Hm | apply returns_ret]. Qed.

Lemma returns_if {A} (c : bool) (m1 m2 : M A) :
  returns m1 -> returns m2 -> returns (if c then m1 else m2).
Proof. now destruct c. Qed.

Lemma returns_unit (m : M unit) s : returns m -> fst (m s) = Ok tt.
Proof. intros Hm. destruct (Hm s) as [[] Ha]. exact Ha. Qed.

(** *** leaving an observation alone *)

Section Keeps.
Context {X : Type} (f : State -> X).

Lemma keeps_ret {A} (a : A) : keeps f (ret a).
Proof. now intros s. Qed.

Lemma keeps_throw {A} e : keeps f (@throw B A e).
Proof. now intros s. Qed.

Lemma keeps_get : keeps f get_state.
Proof. now intros s. Qed.

Lemma keeps_bind {A C} (m : M A) (k : A -> M C) :
  keeps f m -> (forall a, keeps f (k a)) -> keeps f (bind m k).
Proof.
  intros Hm Hk s. specialize (Hm s). unfold bind.
  destruct (m s) as [[a|e] s']; simpl in *; [|exact Hm].
  now rewrite Hk.
Qed.

Lemma keeps_try {A} (m : M A) (h : thrown -> M A) :
  keeps f m -> (forall e, keeps f (h e)) -> keeps f (try_catch m h).
Proof.
  intros Hm Hh s. specialize (Hm s). unfold try_catch.
  destruct (m s) as [[a|e] s']; simpl in *; [exact Hm|].
  now rewrite Hh.
Qed.

Lemma keeps_when c (m : M unit) : keeps f m -> keeps f (when c m).
Proof. intros Hm. destruct c; [exact Hm | apply keeps_ret]. Qed.

Lemma keeps_if {A} (c : bool) (m1 m2 : M A) :
  keeps f m1 -> keeps f m2 -> keeps f (if c then m1 else m2).
Proof. now destruct c. Qed.

Lemma keeps_answer (r : option thrown) :
  keeps f (match r with None => ret tt | Some err => throw err end).
Proof. destruct r; [apply keeps_throw | apply keeps_ret]. Qed.

End Keeps.


(** *** the steps of the hooks *)

Variable helpers : Helpers.
Variable platform : Platform.

Ltac effects rule_bind rule_try rule_base :=
  repeat first
    [ rule_base
    | rule_bind
    | rule_try
    | match goal with |- context [if ?c then _ else _] => destruct c end
    | match goal with |- context [match ?r with Some _ => _ | None => _ end] =>
        destruct r
      end ].

Ltac emits_steps :=
  unfold html_pass, persist, writeFile, access, process_toSitemap, call_scan,
    call_setter, set_sitemap, set_contentRoot, attempt, log, when;
  effects ltac:(apply emits_bind; [|intro])
    ltac:(apply emits_try; [|intro])
    ltac:(first [ apply emits_ret | apply emits_throw | apply emits_get
                | apply emits_put_settings | apply emits_put_builder
                | apply emits_put_outputPath | apply emits_put_config
                | apply emits_emit ]).

Ltac keeps_steps :=
  unfold html_pass, persist, writeFile, access, call_scan, call_setter,
    attempt, log, when;
  effects ltac:(apply keeps_bind; [|intro])
    ltac:(apply keeps_try; [|intro])
    ltac:(first [ (intros ?; reflexivity) | apply keeps_ret
                | apply keeps_throw | apply keeps_get ]).

Ltac returns_steps :=
  unfold html_pass, process_toSitemap, call_setter, set_sitemap,
    set_contentRoot, log, when;
  effects ltac:(apply returns_bind; [|intro])
    ltac:(apply returns_try; intro)
    ltac:(first [ apply returns_ret | apply returns_get
                | apply returns_emit | apply returns_put_settings
                | apply returns_put_builder | apply returns_put_outputPath
                | apply returns_put_config ]).

(** The HTML pass returns, whatever the scan does; it does not write, and
    it leaves the output path and the debug flag alone. *)
Lemma html_pass_returns : returns (html_pass platform).
Proof. returns_steps. Qed.

Lemma html_pass_no_write :
  emits (fun e => ~ is_write e) (html_pass platform).
Proof. emits_steps; simpl; tauto. Qed.

Lemma html_pass_keeps_outputPath :
  keeps (fun s : State => outputPath s) (html_pass platform).
Proof. keeps_steps. Qed.

Lemma html_pass_keeps_debug :
  keeps (fun s : State => debug (settings s)) (html_pass platform).
Proof. keeps_steps. Qed.


(** *** the write step *)

Lemma persist_run (s : State) :
  persist platform s
  = (match persist_failure platform (outputPath s) (settings s) with
     | None => Ok tt
     | Some e => Throw (ThrownError (toError platform e))
     end,
     mkState (settings s) (builder s) (sitemapProvided s) (outputPath s)
       (config s)
       (trace s ++ persist_events platform (outputPath s) (settings s))).
Proof.
  unfold persist, persist_failure, persist_events, write_answer, writeFile,
    attempt, log, bind, try_catch, emit, get_state, ret, throw.
  destruct (fs_mkdir platform (sitegraph_dir (outputPath s))); simpl.
  - now rewrite <- app_assoc.
  - destruct (document_of (settings s)); simpl.
    + destruct (fs_writeFile platform _ _); simpl;
        now rewrite <- !app_assoc.
    + now rewrite <- !app_assoc.
Qed.

Lemma build_done_run (s : State) :
  build_done platform s = persist platform (before_persist platform s).
Proof.
  unfold build_done, before_persist, bind at 1. simpl.
  set (w := when (falsy (outputPath s)) (log Warning msg_no_output)).
  assert (Hw : fst (w s) = Ok tt).
  { subst w. unfold when, log. now destruct (falsy (outputPath s)). }
  rewrite (@bind_Ok _ _ w _ s tt Hw).
  rewrite (@bind_Ok _ _ (html_pass platform) _ (snd (w s)) tt
             (returns_unit (snd (w s)) html_pass_returns)).
  reflexivity.
Qed.

Lemma before_persist_outputPath (s : State) :
  outputPath (before_persist platform s) = outputPath s.
Proof.
  unfold before_persist. rewrite html_pass_keeps_outputPath.
  unfold when, log. now destruct (falsy (outputPath s)).
Qed.

Lemma before_persist_debug (s : State) :
  debug (settings (before_persist platform s)) = debug (settings s).
Proof.
  unfold before_persist.
  rewrite (html_pass_keeps_debug _ : debug (settings (snd _)) = _).
  unfold when, log. now destruct (falsy (outputPath s)).
Qed.

Lemma before_persist_no_write (s : State) :
  exists evs, trace (before_persist platform s) = trace s ++ evs
              /\ Forall (fun e => ~ is_write e) evs.
Proof.
  unfold before_persist.
  destruct (html_pass_no_write
              (snd (when (falsy (outputPath s))
                      (log Warning msg_no_output) s))) as [e2 [E2 Q2]].
  rewrite E2. unfold when, log. destruct (falsy (outputPath s)); simpl.
  - exists (Log Warning msg_no_output :: e2). rewrite <- app_assoc.
    split; [reflexivity|]. constructor; [simpl; tauto | exact Q2].
  - now exists e2.
Qed.

Lemma build_done_settings (s : State) :
  settings (snd (build_done platform s)) = settings (before_persist platform s).
Proof. now rewrite build_done_run, persist_run. Qed.

Lemma build_done_trace (s : State) :
  trace (snd (build_done platform s))
  = trace (before_persist platform s)
    ++ persist_events platform (outputPath s) (settings (snd (build_done platform s))).
Proof.
  rewrite build_done_settings, build_done_run, persist_run. simpl.
  now rewrite before_persist_outputPath.
Qed.

Lemma build_done_result (s : State) :
  fst (build_done platform s)
  = match persist_failure platform (outputPath s)
            (settings (snd (build_done platform s))) with
    | None => Ok tt
    | Some e => Throw (ThrownError (toError platform e))
    end.
Proof.
  rewrite build_done_settings, build_done_run, persist_run. simpl.
  now rewrite before_persist_outputPath.
Qed.


(** *** astro:config:setup *)

Ltac setup_unfold :=
  unfold config_setup, generate_sitemap, pixi_stats, markdown_pass,
    probe_contentRoot, enable_prefetch, default_contentRoot,
    patch_picomatch.



Ltac not_that_call := intros ? ?; discriminate.

Lemma patch_picomatch_returns :
  returns (patch_picomatch platform : M unit).
Proof. unfold patch_picomatch. returns_steps. Qed.

Lemma patch_picomatch_quiet :
  emits not_setTrailingSlash (patch_picomatch platform : M unit).
Proof. unfold patch_picomatch. emits_steps; not_that_call. Qed.

Lemma patch_picomatch_keeps_config :
  keeps (fun s : State => config s) (patch_picomatch platform).
Proof. unfold patch_picomatch. keeps_steps. Qed.

Lemma default_contentRoot_returns :
  returns (default_contentRoot helpers : M jsstring).
Proof. unfold default_contentRoot. returns_steps. Qed.

Lemma default_contentRoot_quiet :
  emits not_setTrailingSlash (default_contentRoot helpers : M jsstring).
Proof. unfold default_contentRoot. emits_steps. Qed.

Lemma default_contentRoot_keeps_config :
  keeps (fun s : State => config s) (default_contentRoot helpers).
Proof. unfold default_contentRoot. keeps_steps. Qed.

(** The hook calls [setTrailingSlash] once, with [addTrailingSlash]. *)
Lemma config_setup_trailing (command : Command) (s : State) :
  exists pre post,
    trace (snd (config_setup helpers platform command s))
    = trace s ++ pre
      ++ Builder (SetTrailingSlash (addTrailingSlash (config s))) :: post
    /\ Forall not_setTrailingSlash pre
    /\ Forall not_setTrailingSlash post.
Proof.
  unfold config_setup.
  rewrite (@bind_Ok _ _ (patch_picomatch platform) _ s tt
             (returns_unit s patch_picomatch_returns)).
  set (s1 := snd (patch_picomatch platform s)).
  destruct (patch_picomatch_quiet s) as [e1 [E1 Q1]]. fold s1 in E1.
  pose proof (patch_picomatch_keeps_config s) as C1. fold s1 in C1.
  destruct (default_contentRoot_returns s1) as [r Hr].
  rewrite (@bind_Ok _ _ (default_contentRoot helpers) _ s1 r Hr).
  set (s2 := snd (default_contentRoot helpers s1)).
  destruct (default_contentRoot_quiet s1) as [e2 [E2 Q2]]. fold s2 in E2.
  pose proof (default_contentRoot_keeps_config s1) as C2. fold s2 in C2.
  simpl in C1, C2.
  rewrite (@bind_Ok _ _ get_state _ s2 s2 eq_refl).
  rewrite (@bind_Ok _ _ (call_setter (SetContentRoot r) (setContentRoot r))
             _ _ tt eq_refl).
  rewrite (@bind_Ok _ _
             (call_setter (SetTrailingSlash (addTrailingSlash (config s2)))
                (setTrailingSlash (addTrailingSlash (config s2))))
             _ _ tt eq_refl).
  match goal with
  | |- context [trace (snd (?m ?st))] =>
      assert (Hrest : emits not_setTrailingSlash m)
        by (setup_unfold; emits_steps; not_that_call);
      destruct (Hrest st) as [e5 [E5 Q5]]; rewrite E5
  end.
  exists (e1 ++ e2 ++ [Builder (SetContentRoot r)]), e5.
  simpl. rewrite E2, E1, C2, C1. rewrite <- !app_assoc. simpl.
  split; [reflexivity|]. split; [|exact Q5].
  apply Forall_app; split; [exact Q1|].
  apply Forall_app; split; [exact Q2|].
  constructor; [not_that_call | constructor].
Qed.


#[local] Opaque lit lines.


Ltac run :=
  unfold html_pass, access, process_toSitemap, call_scan, call_setter,
    set_sitemap, set_contentRoot, attempt, log, when, bind, try_catch,
    emit, get_state, put_settings, put_builder, put_outputPath, put_config,
    ret, throw.

(** The HTML pass when its root cannot be accessed. *)
Lemma html_pass_fallback (s : State) (e : thrown) :
  sitemapProvided s = false ->
  access_answer platform (outputPath s) = Some e ->
  html_pass platform s
  = (Ok tt,
     mkState
       (with_sitemap (settings s) (toSitemap (snd (process (builder s)))))
       (fst (process (builder s))) (sitemapProvided s) (outputPath s)
       (config s)
       (trace s ++ [Log Info msg_retrieving_html; Access (outputPath s);
                    Builder Process;
                    Log Warning (msg_html_fallback (toError platform e))])).
Proof.
  intros Hp Ha. unfold access_answer in Ha. run.
  destruct s as [x b provided p c t]. simpl in *. subst provided. simpl.
  rewrite Ha. simpl. rewrite <- !app_assoc. reflexivity.
Qed.


End Rules.

End HookFacts.

(* ================================================================== *)
(** * Facts about the graph assembler *)
(* ================================================================== *)

Module SiteMapFacts.
Import Json Integration SiteMap JsFacts.

Lemma finalize_nil : sitemap_json (finalize []) = empty_sitemap_json.
Proof. reflexivity. Qed.

(** The first three end-to-end scenarios of the specification. *)
Example scenario_resolved_link :
  let m := finalize
             [mkRecord (lit "a") (lit "a") [] None [mkEdge (lit "b") false];
              mkRecord (lit "b") (lit "b") [] None []] in
  map fst (nodes m) = [lit "a"; lit "b"]
  /\ links m = [mkLink (lit "a") (lit "b") internal_resolved]
  /\ backlinks m = [(lit "b", [lit "a"])].
Proof. repeat split; reflexivity. Qed.

Example scenario_external_link :
  let m := finalize
             [mkRecord (lit "a") (lit "a") [] None
                [mkEdge (lit "https://example.com") true]] in
  links m = [mkLink (lit "a") (lit "https://example.com") external_link]
  /\ backlinks m = [].
Proof. split; reflexivity. Qed.

Example scenario_unresolved_link :
  links (finalize
           [mkRecord (lit "a") (lit "a") [] None
              [mkEdge (lit "missing") false]])
  = [mkLink (lit "a") (lit "missing") internal_unresolved].
Proof. reflexivity. Qed.

Example upsert_replaces_in_place :
  map rec_id (addPass [page_b; page_a_html] [page_a; page_b])
  = [lit "a"; lit "b"]
  /\ addPass [page_b; page_a_html] [page_a; page_b] = [page_a_html; page_b].
Proof. split; reflexivity. Qed.

End SiteMapFacts.

(* ================================================================== *)
(** * The claims about color.ts *)
(* ================================================================== *)

Module ColorClaims.
Import Color JsFacts ColorFacts.

(** C9 (as stated) fails where the safe default coincides with the input:
    against the base [nowhere] the url [#] does not parse, [sanitizeURL]
    answers [#], and that is the original string, unchanged. *)
Lemma sanitizeURL_hash_not_iff :
  ~ (sanitizeURL scheme_protocol (lit "https://docs.example")
       (Some HASH) (Some (lit "nowhere")) = HASH
     <-> allowed scheme_protocol (lit "https://docs.example")
           (Some HASH) (Some (lit "nowhere")) = true).
Proof.
  intros [H _]. specialize (H eq_refl). vm_compute in H. discriminate.
Qed.

(** C9 (amended): [sanitizeURL] returns the url itself when it is non-empty
    and parses to an [http:] or [https:] URL, and [#] in every other case
    ([null], [undefined], empty, unparseable, any other protocol); it is a
    total function, so nothing is thrown.  Hence, for every url other than
    [#] itself, the url comes back unchanged if and only if it is allowed. *)
Theorem sanitizeURL_spec :
  forall (url_protocol : jsstring -> jsstring -> option jsstring)
         (origin : jsstring) (url baseURL : option jsstring),
    sanitizeURL url_protocol origin url baseURL
    = (if allowed url_protocol origin url baseURL
       then match url with Some u => u | None => HASH end
       else HASH)
    /\ (forall u, url = Some u -> u <> HASH ->
          (sanitizeURL url_protocol origin url baseURL = u
           <-> allowed url_protocol origin url baseURL = true)).
Proof.
  intros url_protocol origin url baseURL.
  assert (E : sanitizeURL url_protocol origin url baseURL
              = (if allowed url_protocol origin url baseURL
                 then match url with Some u => u | None => HASH end
                 else HASH)).
  { unfold sanitizeURL, allowed. destruct url as [u|]; [|reflexivity].
    destruct (isEmpty u); [reflexivity|]. cbn [negb andb].
    destruct (url_protocol u _) as [p|]; reflexivity. }
  split; [exact E|].
  intros u -> Hu. rewrite E.
  destruct (allowed url_protocol origin (Some u) baseURL).
  - tauto.
  - split; [intros H; now symmetry in H | discriminate].
Qed.

Lemma sanitizeURL_spec_witness :
  sanitizeURL scheme_protocol (lit "https://docs.example")
    (Some (lit "javascript:alert(1)")) None = lit "javascript:alert(1)"
  <-> allowed scheme_protocol (lit "https://docs.example")
        (Some (lit "javascript:alert(1)")) None = true.
Proof.
  apply (proj2 (sanitizeURL_spec scheme_protocol (lit "https://docs.example")
                  (Some (lit "javascript:alert(1)")) None)
               (lit "javascript:alert(1)") eq_refl).
  vm_compute. discriminate.
Defined.

(** C10: [getHexColor] is a total function into strings.  It answers with the
    fallback ([#000000] when none is given) whenever [sanitizeColorValue]
    rejects the input, which it does exactly for a value that is not a
    string, is empty or white space only, contains [var(], or equals [none],
    [inherit], [initial] or [unset] once a trailing [!important] is gone; and
    whenever chroma throws on the sanitized value.  [transparent] is not
    rejected: it is rewritten to [rgba(0, 0, 0, 0)] and parsed as such. *)
Theorem getHexColor_fallback :
  forall (chroma_hex : jsstring -> Result jsstring) (document : Document)
         (color fallback : option jsstring),
    let fb := match fallback with Some f => f | None => BLACK end in
    let out := fst (getHexColor chroma_hex document color fallback) in
    (sanitizeColorValue color = None <-> rejected color = true)
    /\ (rejected color = true -> out = fb)
    /\ (forall s e, sanitizeColorValue color = Some s ->
                    chroma_hex s = Throw e -> out = fb)
    /\ (forall c, color = Some c ->
          replace_important (trim c) = TRANSPARENT ->
          sanitizeColorValue color = Some RGBA_ZERO
          /\ out = match chroma_hex RGBA_ZERO with
                   | Ok hex => hex
                   | Throw _ => fb
                   end).
Proof.
  intros chroma_hex document color fallback fb out.
  split; [apply sanitizeColorValue_None_iff|].
  split; [|split].
  - intros H. apply sanitizeColorValue_None_iff in H.
    subst out. unfold getHexColor. now rewrite H.
  - intros s e Hs He. subst out. unfold getHexColor. rewrite Hs.
    destruct (isEmpty s); [reflexivity|]. rewrite He.
    now destruct (isDarkReaderActive document).
  - intros c -> Hc. pose proof (sanitizeColorValue_transparent c Hc) as Hs.
    split; [exact Hs|]. subst out. unfold getHexColor. rewrite Hs.
    cbn [isEmpty RGBA_ZERO]. fold RGBA_ZERO.
    destruct (chroma_hex RGBA_ZERO); [reflexivity|].
    now destruct (isDarkReaderActive document).
Qed.

Lemma getHexColor_fallback_witness :
  fst (getHexColor chroma_sample plain_document
         (Some (lit "  var(--sl-color-accent) !important ")) None) = BLACK
  /\ fst (getHexColor chroma_sample plain_document
            (Some (lit "not-a-colour")) (Some (lit "#4a9eff"))) = lit "#4a9eff"
  /\ fst (getHexColor chroma_sample plain_document
            (Some (lit " transparent !IMPORTANT")) None) = lit "#00000000".
Proof.
  split; [|split].
  - apply (proj1 (proj2 (getHexColor_fallback chroma_sample plain_document
             (Some (lit "  var(--sl-color-accent) !important ")) None))).
    vm_compute. reflexivity.
  - apply (proj1 (proj2 (proj2 (getHexColor_fallback chroma_sample
             plain_document (Some (lit "not-a-colour"))
             (Some (lit "#4a9eff")))))
             (lit "not-a-colour")
             (ThrownError (mkError (lit "unknown format: not-a-colour") None))).
    + vm_compute. reflexivity.
    + vm_compute. reflexivity.
  - apply (proj2 (proj2 (proj2 (getHexColor_fallback chroma_sample
             plain_document (Some (lit " transparent !IMPORTANT")) None)))
             (lit " transparent !IMPORTANT") eq_refl).
    vm_compute. reflexivity.
Defined.

End ColorClaims.

(* ================================================================== *)
(** * The claims about the hooks *)
(* ================================================================== *)

Module HookClaims.
Import Json Integration SiteMap JsFacts JsonFacts HookFacts SiteMapFacts.

(** C3: when the root of the HTML pass cannot be accessed, the hook does not
    scan; it processes the builder as the Markdown pass left it, makes the
    result the sitemap, logs a warning, and goes on to the write step, whose
    outcome alone decides how the hook ends: the access error itself is not
    thrown on. *)
Theorem html_pass_failure_falls_back :
  forall (B P : Type) (H : SiteMapBuilder B P) (platform : Platform)
         (s : State) (e : thrown),
    sitemapProvided s = false ->
    access_answer platform (outputPath s) = Some e ->
    let s' := snd (build_done platform s) in
    let fallback := toSitemap (snd (process (builder s))) in
    settings s' = with_sitemap (settings s) fallback
    /\ builder s' = fst (process (builder s))
    /\ trace s'
       = trace s
         ++ (if falsy (outputPath s) then [Log Warning msg_no_output] else [])
         ++ [Log Info msg_retrieving_html; Access (outputPath s);
             Builder Process; Log Warning (msg_html_fallback (toError platform e))]
         ++ persist_events platform (outputPath s) (settings s')
    /\ fst (build_done platform s)
       = match persist_failure platform (outputPath s) (settings s') with
         | None => Ok tt
         | Some e' => Throw (ThrownError (toError platform e'))
         end.
Proof.
  intros B P H platform s e Hp Ha s' fallback.
  assert (E : before_persist platform s
              = mkState (with_sitemap (settings s) fallback)
                  (fst (process (builder s))) (sitemapProvided s)
                  (outputPath s) (config s)
                  (trace s
                   ++ (if falsy (outputPath s)
                       then [Log Warning msg_no_output] else [])
                   ++ [Log Info msg_retrieving_html; Access (outputPath s);
                       Builder Process;
                       Log Warning (msg_html_fallback (toError platform e))])).
  { unfold before_persist.
    rewrite (@html_pass_fallback _ _ _ platform _ e).
    - unfold when, log. destruct (falsy (outputPath s)); simpl.
      + now rewrite <- app_assoc.
      + reflexivity.
    - unfold when, log. now destruct (falsy (outputPath s)).
    - unfold when, log. now destruct (falsy (outputPath s)). }
  subst s'. split; [|split; [|split]].
  - now rewrite build_done_settings, E.
  - now rewrite build_done_run, persist_run, E.
  - rewrite build_done_trace, E. simpl. now rewrite <- !app_assoc.
  - apply build_done_result.
Qed.

Lemma html_pass_failure_falls_back_witness :
  fst (@build_done _ _ sample_builder (sample_platform [] [])
         (sample_built [lit "site/src/content/docs"])) = Ok tt
  /\ sitemap (sitemapConfig (settings
        (snd (@build_done _ _ sample_builder (sample_platform [] [])
                (sample_built [lit "site/src/content/docs"])))))
     = sitemap (sitemapConfig (settings
         (sample_built [lit "site/src/content/docs"]))).
Proof.
  pose proof (@html_pass_failure_falls_back _ _ sample_builder
                (sample_platform [] [])
                (sample_built [lit "site/src/content/docs"]) enoent
                eq_refl eq_refl) as [Hs [_ [_ Hr]]].
  split.
  - rewrite Hr. vm_compute. reflexivity.
  - rewrite Hs. vm_compute. reflexivity.
Defined.

(** C6: the document written is [JSON.stringify(sitemap, null, 2)] when
    [settings.debug] is set and [JSON.stringify(sitemap, null, 0)] otherwise.
    The latter is compact: it holds no line feed.  The former is indented:
    an object with a property opens with a line feed and two spaces before
    its first key, puts a space after the colon, and closes on a line of its
    own. *)
Theorem sitemap_formatting_follows_debug :
  forall (B P : Type) (H : SiteMapBuilder B P) (platform : Platform)
         (s : State),
    let s' := snd (build_done platform s) in
    let space := if debug (settings s) then 2 else 0 in
    let document :=
      option_map (fun v => stringify v space)
                 (sitemap (sitemapConfig (settings s'))) in
    (fs_mkdir platform (sitegraph_dir (outputPath s)) = None ->
     In (WriteFile (sitemap_file (outputPath s)) document) (trace s'))
    /\ (forall path data,
          In (WriteFile path data) (trace s') ->
          In (WriteFile path data) (trace s) \/ data = document)
    /\ (forall v, ~ In 10 (stringify v 0))
    /\ (forall k v rest, exists body,
          stringify (JObj ((k, v) :: rest)) 2
          = [123; 10; 32; 32] ++ quote k ++ [58; 32] ++ body ++ [10; 125]).
Proof.
  intros B P H platform s s' space document.
  assert (D : document_of (settings s') = document).
  { subst document space s'. unfold document_of.
    rewrite build_done_settings, before_persist_debug.
    now destruct (sitemap _). }
  split; [|split; [|split]].
  - intros Hm. subst s'. rewrite build_done_trace. apply in_or_app. right.
    unfold persist_events. rewrite Hm, D. simpl. tauto.
  - intros path data Hin. subst s'. rewrite build_done_trace in Hin.
    apply in_app_or in Hin as [Hin|Hin].
    + destruct (before_persist_no_write platform s) as [evs [E Q]].
      rewrite E in Hin. apply in_app_or in Hin as [Hin|Hin]; [now left|].
      rewrite Forall_forall in Q. exfalso. apply (Q _ Hin). exact I.
    + right. rewrite <- D. unfold persist_events in Hin.
      destruct Hin as [Hin|Hin]; [discriminate|].
      destruct (fs_mkdir platform _).
      * destruct Hin as [Hin|[]]. discriminate.
      * destruct Hin as [Hin|Hin]; [now injection Hin|].
        destruct (write_answer platform _ _);
          destruct Hin as [Hin|[]]; discriminate.
  - apply stringify_compact_one_line.
  - apply stringify_pretty_object.
Qed.

Lemma sitemap_formatting_follows_debug_witness :
  In (WriteFile (lit "/site/dist//sitegraph/sitemap.json")
        (Some (lit "{" ++ [34] ++ lit "nodes" ++ [34] ++ lit ":{},"
               ++ [34] ++ lit "links" ++ [34] ++ lit ":[]}")))
     (trace (snd (@build_done _ _ sample_builder (sample_platform [] [])
                    (sample_built [])))).
Proof.
  apply (proj1 (@sitemap_formatting_follows_debug _ _ sample_builder
                  (sample_platform [] []) (sample_built [])) eq_refl).
Defined.



(** C8: [setTrailingSlash] is called once in [astro:config:setup], with
    [config.trailingSlash !== 'never']: [false] when the setting is exactly
    [never], [true] for every other value, [ignore] and [always] among
    them. *)
Theorem trailing_slash_two_valued :
  forall (B P : Type) (H : SiteMapBuilder B P) (helpers : Helpers)
         (platform : Platform) (command : Command) (s : State),
    let flag := addTrailingSlash (config s) in
    (flag = false <-> trailingSlash (config s) = lit "never")
    /\ (flag = true <-> trailingSlash (config s) <> lit "never")
    /\ (trailingSlash (config s) = lit "ignore" -> flag = true)
    /\ (trailingSlash (config s) = lit "always" -> flag = true)
    /\ exists pre post,
         trace (snd (config_setup helpers platform command s))
         = trace s ++ pre ++ Builder (SetTrailingSlash flag) :: post
         /\ Forall not_setTrailingSlash pre
         /\ Forall not_setTrailingSlash post.
Proof.
  intros B P H helpers platform command s flag. subst flag.
  unfold addTrailingSlash.
  split; [|split; [|split; [|split]]].
  - rewrite negb_false_iff. apply eqb_eq.
  - rewrite negb_true_iff. apply eqb_neq.
  - intros ->. reflexivity.
  - intros ->. reflexivity.
  - apply config_setup_trailing.
Qed.

Lemma trailing_slash_two_valued_witness :
  addTrailingSlash sample_config = true.
Proof.
  apply (proj1 (proj2 (proj2 (@trailing_slash_two_valued _ _ sample_builder
           sample_helpers (sample_platform [] []) build sample_start)))).
  reflexivity.
Defined.


End HookClaims.

(* ================================================================== *)
(** * The claims that rest on the builder *)
(* ================================================================== *)

Module BuilderClaims.
Import Json Integration SiteMap JsFacts JsonFacts HookFacts SiteMapFacts.

Section WithScans.

Variable scan_markdown :
  Options -> jsstring -> list jsstring -> Result (list ExtractedRecord).
Variable scan_html :
  Options -> jsstring -> list jsstring -> Result (list ExtractedRecord).

#[local] Existing Instance spec_builder.
#[local] Abbreviation the_builder := (spec_builder scan_markdown scan_html).
#[local] Abbreviation State := (@State Accumulator).


End WithScans.


End BuilderClaims.

(* ================================================================== *)
(** * Facts about the parts of [astro:config:setup] *)
(* ================================================================== *)

Module PartsFacts.
Import Json Integration Parts JsFacts HookFacts.

Section Runs.

Context {B P : Type} `{SiteMapBuilder B P}.
Variable helpers : Helpers.
Variable platform : Platform.

#[local] Abbreviation M := (@M B).
#[local] Abbreviation State := (@State B).

#[local] Opaque lit lines.

Ltac run_all :=
  unfold html_pass, access, process_toSitemap, call_scan, call_setter,
    set_sitemap, set_contentRoot, attempt, log, when, bind, try_catch,
    emit, get_state, put_settings, put_builder, put_outputPath, put_config,
    ret, throw.

(** The hook is its first part followed by the generation of the sitemap and
    by [publish]. *)
Lemma config_setup_configured (command : Command) (s : State) :
  config_setup helpers platform command s
  = bind (generate_sitemap helpers platform command
            (contentRoot_of helpers (settings s) (config s)))
         (publish platform command) (configured helpers platform s).
Proof.
  change (config_setup helpers platform command)
    with (bind (patch_picomatch platform) (fun _ =>
          bind (default_contentRoot helpers) (fun r =>
          bind get_state (fun s0 : State =>
          bind (call_setter (SetContentRoot r) (setContentRoot r)) (fun _ =>
          bind (call_setter (SetTrailingSlash (addTrailingSlash (config s0)))
                  (setTrailingSlash (addTrailingSlash (config s0)))) (fun _ =>
          bind enable_prefetch (fun _ =>
          bind (put_outputPath (Some (output_path_of platform (config s0))))
               (fun _ =>
          bind (generate_sitemap helpers platform command r)
               (publish platform command))))))))).
  unfold configured, configure_events, contentRoot_of, with_contentRoot,
    with_prefetch, patch_picomatch, default_contentRoot, enable_prefetch.
  unfold call_setter, set_contentRoot, attempt, log, when, try_catch,
    emit, get_state, put_settings, put_builder, put_outputPath, put_config,
    ret, throw.
  destruct s as [x b provided p c t]. unfold bind.
  cbn -[generate_sitemap publish].
  destruct (updateConfig platform PicomatchPolyfill);
    cbn -[generate_sitemap publish];
    destruct (falsy (contentRoot (sitemapConfig x)));
    cbn -[generate_sitemap publish];
    destruct (prefetch c) eqn:Ep; cbn -[generate_sitemap publish];
    rewrite <- ?app_assoc; reflexivity.
Qed.

Lemma publish_run (command : Command) (failed : bool * jsstring)
    (s : State) :
  host_accepts platform command ->
  publish platform command failed s
  = (Ok tt,
     mkState (settings s) (builder s) (sitemapProvided s) (outputPath s)
       (config s)
       (trace s
        ++ publish_events platform command failed (settings s) (config s))).
Proof.
  intros Hhost. unfold publish, publish_events, pixi_stats. run_all.
  destruct s as [x b provided p c t]. simpl.
  destruct command; simpl;
    try (destruct (Hhost eq_refl) as [E1 E2]);
    try (destruct (debug x); simpl);
    try (destruct (require_pixi_stats platform); simpl);
    rewrite ?E1, ?E2; simpl;
    destruct (fst failed); simpl;
    rewrite <- ?app_assoc; reflexivity.
Qed.

(** A sitemap was supplied: it is processed, and nothing else happens. *)
Lemma generate_provided (command : Command) (r : jsstring) (s : State) :
  sitemapProvided s = true ->
  generate_sitemap helpers platform command r s
  = (Ok (false, []),
     mkState
       (with_sitemap (settings s)
          (processSitemap helpers (sitemap (sitemapConfig (settings s)))
             (settings s)))
       (builder s) (sitemapProvided s) (outputPath s) (config s)
       (trace s ++ [Log Info msg_applied])).
Proof.
  intros Hp. unfold generate_sitemap. run_all.
  destruct s as [x b provided p c t]. simpl in *. subst provided.
  reflexivity.
Qed.

(** No sitemap was supplied and the command is neither [dev] nor [build]:
    the hook only logs. *)
Lemma generate_idle (command : Command) (r : jsstring) (s : State) :
  sitemapProvided s = false ->
  is_dev command || is_build command = false ->
  generate_sitemap helpers platform command r s
  = (Ok (false, []),
     mkState (settings s) (builder s) (sitemapProvided s) (outputPath s)
       (config s)
       (trace s
        ++ [Log Info (msg_retrieving_md
                        (pageInclusionRules (sitemapConfig (settings s))))])).
Proof.
  intros Hp Hc. unfold generate_sitemap. run_all.
  destruct s as [x b provided p c t]. simpl in *. subst provided.
  simpl. rewrite Hc. reflexivity.
Qed.

(** The crawl, when the content root can be accessed: by what the scan
    answers. *)
Lemma generate_scanned (command : Command) (r : jsstring) (s : State) :
  let rules := pageInclusionRules (sitemapConfig (settings s)) in
  let scanned :=
    addMDContentFolder r rules (setBasePath (base (config s)) (builder s)) in
  let processed := process (fst scanned) in
  sitemapProvided s = false ->
  is_dev command || is_build command = true ->
  fs_access platform r = None ->
  generate_sitemap helpers platform command r s
  = (Ok (match snd scanned with
         | Some _ => (true, msg_md_failed)
         | None => (false, [])
         end),
     mkState (with_sitemap (settings s) (toSitemap (snd processed)))
       (fst processed) (sitemapProvided s) (outputPath s) (config s)
       (trace s
        ++ [Log Info (msg_retrieving_md rules);
            Builder (SetBasePath (base (config s)));
            Access (Some r);
            Builder (AddMDContentFolder r rules)]
        ++ match snd scanned with
           | Some e =>
               [Log Failure (msg_md_failed_full (toError platform e));
                Builder Process]
           | None => [Builder Process; Log Info msg_md_finished]
           end)).
Proof.
  intros rules scanned processed Hp Hc Ha. subst processed scanned rules.
  unfold generate_sitemap, markdown_pass, probe_contentRoot. run_all.
  destruct s as [x b provided p c t]. simpl in *. subst provided.
  simpl. rewrite Hc, Ha. simpl.
  destruct (snd (addMDContentFolder r (pageInclusionRules (sitemapConfig x))
                   (setBasePath (base c) b))); simpl;
    rewrite <- ?app_assoc; reflexivity.
Qed.

(** The crawl, when the content root cannot be accessed. *)
Lemma generate_missing (command : Command) (r : jsstring) (s : State)
    (e : thrown) :
  let rules := pageInclusionRules (sitemapConfig (settings s)) in
  let processed := process (setBasePath (base (config s)) (builder s)) in
  sitemapProvided s = false ->
  is_dev command || is_build command = true ->
  fs_access platform r = Some e ->
  generate_sitemap helpers platform command r s
  = (Ok (true, msg_root_missing r),
     mkState (with_sitemap (settings s) (toSitemap (snd processed)))
       (fst processed) (sitemapProvided s) (outputPath s) (config s)
       (trace s
        ++ [Log Info (msg_retrieving_md rules);
            Builder (SetBasePath (base (config s)));
            Access (Some r);
            Log Failure (msg_root_missing_full r (toError platform e));
            Builder Process])).
Proof.
  intros rules processed Hp Hc Ha. subst processed rules.
  unfold generate_sitemap, markdown_pass, probe_contentRoot. run_all.
  destruct s as [x b provided p c t]. simpl in *. subst provided.
  simpl. rewrite Hc, Ha. simpl. rewrite <- ?app_assoc. reflexivity.
Qed.

Lemma generate_returns (command : Command) (r : jsstring) :
  returns (generate_sitemap helpers platform command r).
Proof.
  unfold generate_sitemap, markdown_pass, probe_contentRoot.
  unfold html_pass, process_toSitemap, call_setter, set_sitemap,
    set_contentRoot, log, when.
  repeat first
    [ apply returns_ret | apply returns_get | apply returns_emit
    | apply returns_put_settings | apply returns_put_builder
    | apply returns_bind; [|intro]
    | apply returns_try; intro
    | match goal with |- context [if ?c then _ else _] => destruct c end ].
Qed.

(** The HTML pass, when its root can be accessed: by what the scan
    answers. *)
Lemma html_pass_scanned (s : State) (p : jsstring) :
  let rules := pageInclusionRules (sitemapConfig (settings s)) in
  let scanned := addHTMLContentFolder p rules (builder s) in
  let processed := process (fst scanned) in
  sitemapProvided s = false ->
  outputPath s = Some p ->
  fs_access platform p = None ->
  html_pass platform s
  = (Ok tt,
     mkState (with_sitemap (settings s) (toSitemap (snd processed)))
       (fst processed) (sitemapProvided s) (outputPath s) (config s)
       (trace s
        ++ [Log Info msg_retrieving_html; Access (Some p);
            Builder (AddHTMLContentFolder p rules)]
        ++ match snd scanned with
           | Some e =>
               [Builder Process;
                Log Warning (msg_html_fallback (toError platform e))]
           | None => [Builder Process; Log Info msg_html_finished]
           end)).
Proof.
  intros rules scanned processed Hp Ho Ha. subst processed scanned rules.
  run_all. destruct s as [x b provided o c t]. simpl in *.
  subst provided o. simpl. rewrite Ha. simpl.
  destruct (snd (addHTMLContentFolder p (pageInclusionRules (sitemapConfig x))
                   b)); simpl;
    rewrite <- ?app_assoc; reflexivity.
Qed.

(** The HTML pass, when a sitemap was supplied: nothing. *)
Lemma html_pass_provided (s : State) :
  sitemapProvided s = true -> html_pass platform s = (Ok tt, s).
Proof.
  intros Hp. run_all. destruct s as [x b provided o c t]. simpl in *.
  subst provided. reflexivity.
Qed.

Lemma bind_pair {A C} (m : M A) (k : A -> M C) s a s1 :
  m s = (Ok a, s1) -> bind m k s = k a s1.
Proof. intros E. unfold bind. now rewrite E. Qed.

Ltac effects rule_bind rule_try rule_base :=
  repeat first
    [ rule_base
    | rule_bind
    | rule_try
    | match goal with |- context [if ?c then _ else _] => destruct c end
    | match goal with |- context [match ?r with Some _ => _ | None => _ end] =>
        destruct r
      end ].

Ltac unfold_steps :=
  unfold publish, generate_sitemap, markdown_pass, probe_contentRoot,
    pixi_stats, html_pass, persist, writeFile, access, call_scan,
    call_setter, attempt, log, when.

Ltac keeps_steps :=
  unfold_steps;
  effects ltac:(apply keeps_bind; [|intro])
    ltac:(apply keeps_try; [|intro])
    ltac:(first [ (intros ?; reflexivity) | apply keeps_ret
                | apply keeps_throw | apply keeps_get ]).

Ltac emits_steps :=
  unfold_steps; unfold process_toSitemap, set_sitemap, set_contentRoot;
  effects ltac:(apply emits_bind; [|intro])
    ltac:(apply emits_try; [|intro])
    ltac:(first [ apply emits_ret | apply emits_throw | apply emits_get
                | apply emits_put_settings | apply emits_put_builder
                | apply emits_put_outputPath | apply emits_put_config
                | apply emits_emit ]).


Lemma rest_keeps_config (command : Command) (r : jsstring) :
  keeps (fun s : State => config s)
    (bind (generate_sitemap helpers platform command r)
          (publish platform command)).
Proof. apply keeps_bind; [|intro]; keeps_steps. Qed.

Lemma rest_keeps_contentRoot (command : Command) (r : jsstring) :
  keeps (fun s : State => contentRoot (sitemapConfig (settings s)))
    (bind (generate_sitemap helpers platform command r)
          (publish platform command)).
Proof. apply keeps_bind; [|intro]; keeps_steps. Qed.

Lemma msg_degraded_not_prefetch (reason : jsstring) :
  msg_degraded reason <> msg_prefetch.
Proof.
  intros E. apply (f_equal (fun l => hd 0 l)) in E.
  vm_compute in E. discriminate.
Qed.

Lemma msg_pixi_not_prefetch : msg_pixi <> msg_prefetch.
Proof. intros E. apply (f_equal (fun l => hd 0 l)) in E. vm_compute in E. discriminate. Qed.

Lemma msg_pixi_not_degraded (reason : jsstring) :
  msg_pixi <> msg_degraded reason.
Proof. intros E. apply (f_equal (fun l => hd 0 l)) in E. vm_compute in E. discriminate. Qed.

Lemma rest_no_prefetch_warning (command : Command) (r : jsstring) :
  emits (fun e => e <> Log Warning msg_prefetch)
    (bind (generate_sitemap helpers platform command r)
          (publish platform command)).
Proof.
  apply emits_bind; [|intro]; emits_steps; discriminate.
Qed.

Lemma rest_only_adds_events (command : Command) (r : jsstring) :
  emits (fun _ => True)
    (bind (generate_sitemap helpers platform command r)
          (publish platform command)).
Proof. apply emits_bind; [|intro]; emits_steps; exact I. Qed.

Lemma generate_no_virtual_imports (command : Command) (r : jsstring) :
  emits (fun e => ~ is_virtual_imports e)
    (generate_sitemap helpers platform command r).
Proof. emits_steps; simpl; tauto. Qed.

Lemma configured_provided (s : State) :
  sitemapProvided (configured helpers platform s) = sitemapProvided s.
Proof. reflexivity. Qed.

Lemma configured_base (s : State) :
  base (config (configured helpers platform s)) = base (config s).
Proof. unfold configured. cbn [config]. now destruct (prefetch (config s)). Qed.

Lemma configured_rules (s : State) :
  pageInclusionRules (sitemapConfig (settings (configured helpers platform s)))
  = pageInclusionRules (sitemapConfig (settings s)).
Proof. unfold configured. cbn [settings]. now destruct (falsy _). Qed.

Lemma configured_debug (s : State) :
  debug (settings (configured helpers platform s)) = debug (settings s).
Proof. unfold configured. cbn [settings]. now destruct (falsy _). Qed.

Lemma configured_sitemap (s : State) :
  sitemap (sitemapConfig (settings (configured helpers platform s)))
  = sitemap (sitemapConfig (settings s)).
Proof. unfold configured. cbn [settings]. now destruct (falsy _). Qed.

Lemma configured_contentRoot (s : State) :
  contentRoot (sitemapConfig (settings (configured helpers platform s)))
  = Some (contentRoot_of helpers (settings s) (config s)).
Proof.
  unfold configured, contentRoot_of. cbn [settings].
  destruct (contentRoot (sitemapConfig (settings s))) as [g|] eqn:E;
    cbn [falsy]; [|reflexivity].
  destruct (isEmpty g); [reflexivity|]. now rewrite E.
Qed.

Lemma idle_host_accepts (command : Command) :
  is_dev command || is_build command = false -> host_accepts platform command.
Proof. intros Hc Hd. rewrite Hd in Hc. discriminate. Qed.





End Runs.
End PartsFacts.

(* ================================================================== *)
(** * The claim about what is fatal *)
(* ================================================================== *)

Module FatalClaims.
Import Json Integration Parts SiteMap JsFacts HookFacts PartsFacts.




End FatalClaims.

(* ================================================================== *)
(** * Further properties of the hooks *)
(* ================================================================== *)

Module HookProperties.
Import Json Integration Parts SiteMap JsFacts HookFacts PartsFacts.

#[local] Opaque lit lines.

Ltac in_events :=
  match goal with
  | |- In _ (_ ++ _) =>
      apply in_or_app; first [ left; in_events | right; in_events ]
  | |- In _ (_ :: _) => first [ left; reflexivity | right; in_events ]
  end.

Ltac all_events tac :=
  repeat match goal with
         | |- Forall _ [] => apply Forall_nil
         | |- Forall _ (_ :: _) => apply Forall_cons; [tac|]
         | |- Forall _ (_ ++ _) => apply Forall_app; split
         | |- Forall _ (if ?c then _ else _) => destruct c
         | |- Forall _ (match ?c with Some _ => _ | None => _ end) =>
             destruct c
         end.

(** X1: when a sitemap was supplied, [astro:config:setup] passes it through
    [processSitemap] and reaches for no content: no access, no scan, no
    [process]; the builder only receives its two setters. *)
Theorem supplied_sitemap_is_only_processed :
  forall (B P : Type) (H : SiteMapBuilder B P) (helpers : Helpers)
         (platform : Platform) (command : Command) (s : State),
    sitemapProvided s = true ->
    host_accepts platform command ->
    let s' := snd (config_setup helpers platform command s) in
    let x := settings (configured helpers platform s) in
    fst (config_setup helpers platform command s) = Ok tt
    /\ settings s'
       = with_sitemap x
           (processSitemap helpers (sitemap (sitemapConfig (settings s))) x)
    /\ builder s'
       = setTrailingSlash (addTrailingSlash (config s))
           (setContentRoot (contentRoot_of helpers (settings s) (config s))
              (builder s))
    /\ exists evs, trace s' = trace s ++ evs
                   /\ Forall (fun e => ~ reaches_content e) evs.
Proof.
  intros B P H helpers platform command s Hp Hhost s' x. subst s' x.
  rewrite config_setup_configured.
  erewrite bind_pair by (apply generate_provided; exact Hp).
  rewrite publish_run by exact Hhost.
  cbn [fst snd settings builder trace].
  split; [reflexivity|]. split.
  { unfold configured. cbn [settings sitemapProvided].
    destruct (falsy _); reflexivity. }
  split; [reflexivity|].
  eexists. unfold configured at 1. cbn [trace]. rewrite <- !app_assoc.
  split; [reflexivity|].
  unfold configure_events, publish_events.
  all_events ltac:(simpl; tauto).
Qed.

Lemma supplied_sitemap_is_only_processed_witness :
  sitemap (sitemapConfig (settings
    (snd (@config_setup _ _ sample_builder sample_helpers sample_disk dev
            sample_supplied))))
  = Some empty_sitemap_json.
Proof.
  destruct (@supplied_sitemap_is_only_processed _ _ sample_builder
              sample_helpers sample_disk dev sample_supplied eq_refl
              (fun _ => conj eq_refl eq_refl)) as [_ [Hs _]].
  rewrite Hs. reflexivity.
Defined.

(** X2: when a sitemap was supplied, [astro:build:done] leaves the settings
    and the builder as they are and only writes: its calls are the warning
    about a missing output path, if any, and those of the write step. *)
Theorem supplied_sitemap_is_written_as_is :
  forall (B P : Type) (H : SiteMapBuilder B P) (platform : Platform)
         (s : State),
    sitemapProvided s = true ->
    let s' := snd (build_done platform s) in
    settings s' = settings s
    /\ builder s' = builder s
    /\ trace s'
       = trace s
         ++ (if falsy (outputPath s) then [Log Warning msg_no_output] else [])
         ++ persist_events platform (outputPath s) (settings s).
Proof.
  intros B P H platform s Hp s'. subst s'.
  assert (E : before_persist platform s
              = mkState (settings s) (builder s) (sitemapProvided s)
                  (outputPath s) (config s)
                  (trace s ++ (if falsy (outputPath s)
                               then [Log Warning msg_no_output] else []))).
  { unfold before_persist. rewrite html_pass_provided.
    - unfold when, log, emit, ret. destruct (falsy (outputPath s)); simpl.
      + reflexivity.
      + rewrite app_nil_r. now destruct s.
    - unfold when, log, emit, ret. now destruct (falsy (outputPath s)). }
  rewrite build_done_run, persist_run, E. cbn [snd settings builder trace outputPath].
  rewrite <- app_assoc. repeat split; reflexivity.
Qed.

Lemma supplied_sitemap_is_written_as_is_witness :
  settings (snd (@build_done _ _ sample_builder sample_disk sample_supplied))
  = settings sample_supplied.
Proof.
  apply (@supplied_sitemap_is_written_as_is _ _ sample_builder sample_disk
           sample_supplied eq_refl).
Defined.

(** X3: for a command other than [dev] and [build], and without a supplied
    sitemap, [astro:config:setup] returns without generating anything: the
    sitemap of the settings stays as it was, and no access, scan or
    [process] is made. *)
Theorem other_commands_generate_nothing :
  forall (B P : Type) (H : SiteMapBuilder B P) (helpers : Helpers)
         (platform : Platform) (command : Command) (s : State),
    sitemapProvided s = false ->
    is_dev command || is_build command = false ->
    let s' := snd (config_setup helpers platform command s) in
    fst (config_setup helpers platform command s) = Ok tt
    /\ sitemap (sitemapConfig (settings s'))
       = sitemap (sitemapConfig (settings s))
    /\ builder s'
       = setTrailingSlash (addTrailingSlash (config s))
           (setContentRoot (contentRoot_of helpers (settings s) (config s))
              (builder s))
    /\ exists evs, trace s' = trace s ++ evs
                   /\ Forall (fun e => ~ reaches_content e) evs.
Proof.
  intros B P H helpers platform command s Hp Hc s'. subst s'.
  rewrite config_setup_configured.
  erewrite bind_pair by (apply generate_idle; [exact Hp | exact Hc]).
  rewrite publish_run by (apply idle_host_accepts; exact Hc).
  cbn [fst snd settings builder trace].
  split; [reflexivity|]. split; [apply configured_sitemap|].
  split; [reflexivity|].
  eexists. unfold configured at 1. cbn [trace]. rewrite <- !app_assoc.
  split; [reflexivity|].
  unfold configure_events, publish_events.
  all_events ltac:(simpl; tauto).
Qed.

Lemma other_commands_generate_nothing_witness :
  sitemap (sitemapConfig (settings
    (snd (@config_setup _ _ sample_builder sample_helpers sample_disk preview
            sample_start))))
  = None.
Proof.
  destruct (@other_commands_generate_nothing _ _ sample_builder
              sample_helpers sample_disk preview sample_start eq_refl eq_refl)
    as [_ [Hs _]].
  rewrite Hs. reflexivity.
Defined.

Section Crawl.

Context {B P : Type} `{SiteMapBuilder B P}.
Variable helpers : Helpers.
Variable platform : Platform.

#[local] Abbreviation State := (@State B).

(** The builder as lines 86-87 and 116 leave it, before any scan. *)
Let prepared (s : State) : B :=
  setBasePath (base (config s))
    (setTrailingSlash (addTrailingSlash (config s))
       (setContentRoot (contentRoot_of helpers (settings s) (config s))
          (builder s))).

(** What the Markdown scan answers on it. *)
Let scanned (s : State) : B * option thrown :=
  addMDContentFolder (contentRoot_of helpers (settings s) (config s))
    (pageInclusionRules (sitemapConfig (settings s))) (prepared s).

(** The run of the hook when the content root can be accessed. *)
Lemma config_setup_scanned (command : Command) (s : State) :
  sitemapProvided s = false ->
  is_dev command || is_build command = true ->
  fs_access platform (contentRoot_of helpers (settings s) (config s)) = None ->
  host_accepts platform command ->
  let r := contentRoot_of helpers (settings s) (config s) in
  let rules := pageInclusionRules (sitemapConfig (settings s)) in
  let processed := process (fst (scanned s)) in
  let failed := match snd (scanned s) with
                | Some _ => (true, msg_md_failed)
                | None => (false, [])
                end in
  let x := with_sitemap (settings (configured helpers platform s))
             (toSitemap (snd processed)) in
  config_setup helpers platform command s
  = (Ok tt,
     mkState x (fst processed) false
       (Some (output_path_of platform (config s)))
       (config (configured helpers platform s))
       (trace s ++ configure_events helpers platform s
        ++ [Log Info (msg_retrieving_md rules);
            Builder (SetBasePath (base (config s)));
            Access (Some r);
            Builder (AddMDContentFolder r rules)]
        ++ match snd (scanned s) with
           | Some e =>
               [Log Failure (msg_md_failed_full (toError platform e));
                Builder Process]
           | None => [Builder Process; Log Info msg_md_finished]
           end
        ++ publish_events platform command failed x
             (config (configured helpers platform s)))).
Proof.
  intros Hp Hc Ha Hhost r rules processed failed x.
  subst x failed processed rules r. unfold scanned, prepared.
  rewrite config_setup_configured.
  erewrite bind_pair
    by (apply generate_scanned; [exact Hp | exact Hc | exact Ha]).
  rewrite publish_run by exact Hhost.
  rewrite configured_base, configured_rules.
  cbn [fst snd settings builder trace sitemapProvided outputPath config
       configured].
  rewrite Hp, <- !app_assoc. reflexivity.
Qed.


(** X5: when the content root is accessible and the Markdown scan returns,
    the sitemap of the settings is the processed result of that scan, the
    hook logs that it finished, and no degraded-mode warning is logged. *)
Theorem markdown_scan_success :
  forall (command : Command) (s : State),
    sitemapProvided s = false ->
    is_dev command || is_build command = true ->
    fs_access platform (contentRoot_of helpers (settings s) (config s))
    = None ->
    host_accepts platform command ->
    snd (scanned s) = None ->
    let s' := snd (config_setup helpers platform command s) in
    let processed := process (fst (scanned s)) in
    fst (config_setup helpers platform command s) = Ok tt
    /\ sitemap (sitemapConfig (settings s'))
       = Some (toSitemap (snd processed))
    /\ builder s' = fst processed
    /\ exists evs,
         trace s' = trace s ++ evs
         /\ In (Log Info msg_md_finished) evs
         /\ Forall (fun ev => ~ is_degraded_warning ev) evs.
Proof.
  intros command s Hp Hc Ha Hhost He s' processed. subst s' processed.
  rewrite (@config_setup_scanned command s Hp Hc Ha Hhost).
  cbn [fst snd settings builder trace]. rewrite He.
  split; [reflexivity|]. split; [reflexivity|]. split; [reflexivity|].
  eexists. split; [reflexivity|]. split.
  - in_events.
  - unfold configure_events, publish_events. cbn [fst snd].
    all_events ltac:(intros [reason E]; discriminate E).
Qed.

(** The run of the hook when the content root cannot be accessed. *)
Lemma config_setup_missing (command : Command) (s : State) (e : thrown) :
  sitemapProvided s = false ->
  is_dev command || is_build command = true ->
  fs_access platform (contentRoot_of helpers (settings s) (config s))
  = Some e ->
  host_accepts platform command ->
  let r := contentRoot_of helpers (settings s) (config s) in
  let rules := pageInclusionRules (sitemapConfig (settings s)) in
  let processed := process (prepared s) in
  let x := with_sitemap (settings (configured helpers platform s))
             (toSitemap (snd processed)) in
  config_setup helpers platform command s
  = (Ok tt,
     mkState x (fst processed) false
       (Some (output_path_of platform (config s)))
       (config (configured helpers platform s))
       (trace s ++ configure_events helpers platform s
        ++ [Log Info (msg_retrieving_md rules);
            Builder (SetBasePath (base (config s)));
            Access (Some r);
            Log Failure (msg_root_missing_full r (toError platform e));
            Builder Process]
        ++ publish_events platform command (true, msg_root_missing r) x
             (config (configured helpers platform s)))).
Proof.
  intros Hp Hc Ha Hhost r rules processed x.
  subst x processed rules r. unfold prepared.
  rewrite config_setup_configured.
  erewrite bind_pair
    by (apply generate_missing; [exact Hp | exact Hc | exact Ha]).
  rewrite publish_run by exact Hhost.
  rewrite configured_base, configured_rules.
  cbn [fst snd settings builder trace sitemapProvided outputPath config
       configured].
  rewrite Hp, <- !app_assoc. reflexivity.
Qed.

(** X6: in a [dev] or [build] run that crawls, the degraded-mode warning is
    logged exactly when the content root could not be accessed or the
    Markdown scan threw. *)
Theorem degraded_warning_iff_generation_failed :
  forall (command : Command) (s : State),
    sitemapProvided s = false ->
    is_dev command || is_build command = true ->
    host_accepts platform command ->
    exists evs,
      trace (snd (config_setup helpers platform command s)) = trace s ++ evs
      /\ (Exists is_degraded_warning evs
          <-> fs_access platform
                (contentRoot_of helpers (settings s) (config s)) <> None
              \/ snd (scanned s) <> None).
Proof.
  intros command s Hp Hc Hhost.
  destruct (fs_access platform
              (contentRoot_of helpers (settings s) (config s)))
    as [e|] eqn:Ha.
  - rewrite (@config_setup_missing command s e Hp Hc Ha Hhost).
    cbn [snd trace]. eexists. split; [reflexivity|]. split.
    + intros _. left. discriminate.
    + intros _. apply Exists_exists.
      exists (Log Warning (msg_degraded
                (msg_root_missing
                   (contentRoot_of helpers (settings s) (config s))))).
      split; [|now eexists].
      unfold publish_events. cbn [fst snd]. in_events.
  - rewrite (@config_setup_scanned command s Hp Hc Ha Hhost).
    cbn [snd trace]. eexists. split; [reflexivity|].
    destruct (snd (scanned s)) as [e|] eqn:He.
    + split; [intros _; right; discriminate|].
      intros _. apply Exists_exists.
      exists (Log Warning (msg_degraded msg_md_failed)).
      split; [|now eexists].
      unfold publish_events. cbn [fst snd]. in_events.
    + split; [|intros [F|F]; now elim F].
      intros Hex. exfalso. apply Exists_exists in Hex as [ev [Hin Hdeg]].
      revert ev Hin Hdeg.
      apply (proj1 (Forall_forall (fun ev => ~ is_degraded_warning ev) _)).
      unfold configure_events, publish_events. cbn [fst snd].
      all_events ltac:(intros [reason E]; discriminate E).
Qed.

End Crawl.


Lemma markdown_scan_success_witness :
  sitemap (sitemapConfig (settings
    (snd (@config_setup _ _ sample_builder sample_helpers sample_disk dev
            sample_start))))
  = Some (sitemap_json (finalize [page_a; page_b])).
Proof.
  apply (@markdown_scan_success _ _ sample_builder sample_helpers sample_disk
           dev sample_start eq_refl eq_refl eq_refl
           (fun _ => conj eq_refl eq_refl) eq_refl).
Defined.

Lemma degraded_warning_iff_generation_failed_witness :
  exists evs,
    trace (snd (@config_setup _ _ sample_builder sample_helpers sample_disk
                  dev sample_start))
    = trace sample_start ++ evs
    /\ ~ Exists is_degraded_warning evs.
Proof.
  destruct (@degraded_warning_iff_generation_failed _ _ sample_builder
              sample_helpers sample_disk dev sample_start eq_refl eq_refl
              (fun _ => conj eq_refl eq_refl)) as [evs [E Hiff]].
  exists evs. split; [exact E|].
  intros Hex. apply Hiff in Hex. destruct Hex as [F|F]; now apply F.
Defined.

(** X7: whenever the host accepts its updates, [astro:config:setup] adds the
    virtual imports exactly once, whatever became of the sitemap, and hands
    them the settings and the configuration as the hook leaves them. *)
Theorem virtual_imports_always_added :
  forall (B P : Type) (H : SiteMapBuilder B P) (helpers : Helpers)
         (platform : Platform) (command : Command) (s : State),
    host_accepts platform command ->
    let s' := snd (config_setup helpers platform command s) in
    exists pre post,
      trace s' = trace s ++ pre ++ VirtualImports (settings s') (config s')
                                   :: post
      /\ Forall (fun e => ~ is_virtual_imports e) pre
      /\ Forall (fun e => ~ is_virtual_imports e) post.
Proof.
  intros B P H helpers platform command s Hhost s'. subst s'.
  rewrite config_setup_configured.
  set (g := generate_sitemap helpers platform command
              (contentRoot_of helpers (settings s) (config s))).
  destruct (generate_returns helpers platform command
              (contentRoot_of helpers (settings s) (config s))
              (configured helpers platform s)) as [a Ha].
  fold g in Ha. rewrite (@bind_Ok _ _ _ g _ _ a Ha).
  destruct (generate_no_virtual_imports helpers platform command
              (contentRoot_of helpers (settings s) (config s))
              (configured helpers platform s)) as [evs [E Q]].
  fold g in E. rewrite publish_run by exact Hhost.
  cbn [snd settings config trace]. rewrite E.
  unfold configured at 1. cbn [trace]. unfold publish_events.
  set (sg := snd (g (configured helpers platform s))).
  exists (configure_events helpers platform s ++ evs
          ++ (if is_dev command && debug (settings sg)
              then (if require_pixi_stats platform
                    then [] else [Log Warning msg_pixi])
                   ++ [Update (PixiStats (require_pixi_stats platform))]
              else [])
          ++ (if is_dev command then [Update OptimizeMicromatch] else [])),
         ((if fst a then [Log Warning (msg_degraded (snd a))] else [])
          ++ [InjectScript]).
  split; [now rewrite <- !app_assoc|]. split.
  - unfold configure_events.
    apply Forall_app; split; [|apply Forall_app; split; [exact Q|]];
      all_events ltac:(simpl; tauto).
  - all_events ltac:(simpl; tauto).
Qed.

Lemma virtual_imports_always_added_witness :
  exists pre post,
    trace (snd (@config_setup _ _ sample_builder sample_helpers
                  (sample_platform [] []) dev sample_start))
    = trace sample_start ++ pre
      ++ VirtualImports
           (with_sitemap
              (with_contentRoot sample_settings (lit "site/src/content/docs"))
              empty_sitemap_json)
           sample_config
         :: post.
Proof.
  destruct (@virtual_imports_always_added _ _ sample_builder sample_helpers
              (sample_platform [] []) dev sample_start
              (fun _ => conj eq_refl eq_refl)) as [pre [post [E _]]].
  exists pre, post. exact E.
Defined.



(** X9: when [astro:build:done] runs without an output path (a state
    [astro:config:setup] never leaves) and has to crawl, it warns; the access
    of [undefined] is refused by Node, and the warning of the fallback quotes
    Node's message; the sitemap is what processing the builder as it is
    gives; and the hook carries on to write under the directory named
    [undefined]. *)
Theorem missing_output_path_writes_under_undefined :
  forall (B P : Type) (H : SiteMapBuilder B P) (platform : Platform)
         (s : State),
    sitemapProvided s = false ->
    outputPath s = None ->
    let s' := snd (build_done platform s) in
    let fallback := toSitemap (snd (process (builder s))) in
    let warning :=
      lines [
        lit "Failed to retrieve links from generated HTML content. Falling back to Markdown-only sitemap.";
        lit "  Cause: The " ++ [34] ++ lit "path" ++ [34]
          ++ lit " argument must be of type string or an instance of Buffer or URL. Received undefined";
        lit "  Impact: The sitemap will be based on Markdown content only. HTML-specific links may be missing.";
        lit "  Fix: Ensure the build completed successfully and the output directory is accessible." ] in
    settings s' = with_sitemap (settings s) fallback
    /\ trace s'
       = trace s
         ++ [Log Warning msg_no_output; Log Info msg_retrieving_html;
             Access None; Builder Process; Log Warning warning]
         ++ persist_events platform None (settings s')
    /\ In (Mkdir (lit "undefined/sitegraph")) (trace s').
Proof.
  intros B P H platform s Hp Ho s' fallback warning.
  assert (Ew : msg_html_fallback (toError platform (undefined_path platform))
               = warning) by reflexivity.
  assert (E : before_persist platform s
              = mkState (with_sitemap (settings s) fallback)
                  (fst (process (builder s))) (sitemapProvided s) None
                  (config s)
                  (trace s
                   ++ [Log Warning msg_no_output; Log Info msg_retrieving_html;
                       Access None; Builder Process; Log Warning warning])).
  { rewrite <- Ew. unfold before_persist. rewrite Ho. cbn [falsy when].
    rewrite (@html_pass_fallback _ _ _ platform _
               (undefined_path platform)).
    - unfold log, emit. cbn. rewrite Ho. now rewrite <- app_assoc.
    - unfold log, emit. cbn. exact Hp.
    - unfold log, emit, access_answer. cbn. now rewrite Ho. }
  assert (Es : settings s' = with_sitemap (settings s) fallback).
  { subst s'. now rewrite build_done_settings, E. }
  assert (Et : trace s'
               = trace s
                 ++ [Log Warning msg_no_output; Log Info msg_retrieving_html;
                     Access None; Builder Process; Log Warning warning]
                 ++ persist_events platform None (settings s')).
  { subst s'. rewrite build_done_trace, E, Ho. cbn [trace].
    now rewrite <- app_assoc. }
  split; [exact Es|]. split; [exact Et|].
  rewrite Et. apply in_or_app. right. apply in_or_app. right.
  unfold persist_events. left. reflexivity.
Qed.

Lemma missing_output_path_writes_under_undefined_witness :
  In (Log Warning
        (lines [
           lit "Failed to retrieve links from generated HTML content. Falling back to Markdown-only sitemap.";
           lit "  Cause: The " ++ [34] ++ lit "path" ++ [34]
             ++ lit " argument must be of type string or an instance of Buffer or URL. Received undefined";
           lit "  Impact: The sitemap will be based on Markdown content only. HTML-specific links may be missing.";
           lit "  Fix: Ensure the build completed successfully and the output directory is accessible." ]))
     (trace (snd (@build_done _ _ sample_builder sample_disk sample_start)))
  /\ In (Mkdir (lit "undefined/sitegraph"))
        (trace (snd (@build_done _ _ sample_builder sample_disk
                       sample_start))).
Proof.
  destruct (@missing_output_path_writes_under_undefined _ _ sample_builder
              sample_disk sample_start eq_refl eq_refl) as [_ [Et Hm]].
  split; [|exact Hm].
  rewrite Et. apply in_or_app. right. apply in_or_app. left.
  simpl. tauto.
Defined.

(** X10: [astro:config:setup] leaves the host's configuration with
    [prefetch] enabled and otherwise as it was, and logs the warning about
    [prefetch] exactly when it had to enable it. *)
Theorem prefetch_is_enabled :
  forall (B P : Type) (H : SiteMapBuilder B P) (helpers : Helpers)
         (platform : Platform) (command : Command) (s : State),
    let s' := snd (config_setup helpers platform command s) in
    config s' = (if prefetch (config s) then config s
                 else with_prefetch (config s))
    /\ prefetch (config s') = true
    /\ exists evs,
         trace s' = trace s ++ evs
         /\ (In (Log Warning msg_prefetch) evs
             <-> prefetch (config s) = false).
Proof.
  intros B P H helpers platform command s s'.
  assert (E : config s' = (if prefetch (config s) then config s
                           else with_prefetch (config s))).
  { subst s'. rewrite config_setup_configured.
    now rewrite (rest_keeps_config helpers platform command _ _). }
  split; [exact E|]. split.
  { rewrite E. now destruct (prefetch (config s)) eqn:Ep. }
  subst s'. rewrite config_setup_configured.
  destruct (rest_no_prefetch_warning helpers platform command
              (contentRoot_of helpers (settings s) (config s))
              (configured helpers platform s)) as [evs [Et Q]].
  rewrite Et. unfold configured at 1. cbn [trace]. rewrite <- app_assoc.
  eexists. split; [reflexivity|].
  rewrite Forall_forall in Q. unfold configure_events. split.
  - intros Hin. apply in_app_or in Hin as [Hin|Hin]; [|now elim (Q _ Hin)].
    destruct Hin as [Hin|Hin]; [discriminate|].
    apply in_app_or in Hin as [Hin|Hin].
    { destruct (updateConfig platform PicomatchPolyfill);
        [destruct Hin as [Hin|[]]; discriminate | destruct Hin]. }
    apply in_app_or in Hin as [Hin|Hin].
    { destruct Hin as [Hin|[Hin|[]]]; discriminate. }
    destruct (prefetch (config s)); [destruct Hin | reflexivity].
  - intros Ep. rewrite Ep. apply in_or_app. left. in_events.
Qed.

Lemma prefetch_is_enabled_witness :
  exists evs,
    trace (snd (@config_setup _ _ sample_builder sample_helpers sample_disk
                  build sample_start))
    = trace sample_start ++ evs
    /\ ~ In (Log Warning msg_prefetch) evs.
Proof.
  destruct (@prefetch_is_enabled _ _ sample_builder sample_helpers sample_disk
              build sample_start) as [_ [_ [evs [E Hiff]]]].
  exists evs. split; [exact E|]. intros Hin. apply Hiff in Hin.
  discriminate Hin.
Defined.

(** X11: after [astro:config:setup] the settings hold a content root, the one
    the builder was given: the configured one when it is a non-empty string,
    otherwise [trimSlashes(srcDir)] followed by [/content/docs] with
    Starlight and by [/pages] without. *)
Theorem content_root_is_settled :
  forall (B P : Type) (H : SiteMapBuilder B P) (helpers : Helpers)
         (platform : Platform) (command : Command) (s : State),
    let s' := snd (config_setup helpers platform command s) in
    let given := contentRoot (sitemapConfig (settings s)) in
    let r := match given with
             | Some (c :: g) => c :: g
             | _ => trimSlashes helpers (srcDir_pathname (config s))
                    ++ (if starlight (settings s)
                        then lit "/content/docs" else lit "/pages")
             end in
    contentRoot (sitemapConfig (settings s')) = Some r
    /\ In (Builder (SetContentRoot r)) (trace s').
Proof.
  intros B P H helpers platform command s s' given r.
  assert (Er : r = contentRoot_of helpers (settings s) (config s)).
  { subst r given. unfold contentRoot_of.
    destruct (contentRoot (sitemapConfig (settings s))) as [[|c g]|];
      reflexivity. }
  rewrite Er. subst s'. rewrite config_setup_configured. split.
  - rewrite (rest_keeps_contentRoot helpers platform command _ _).
    apply configured_contentRoot.
  - destruct (rest_only_adds_events helpers platform command
                (contentRoot_of helpers (settings s) (config s))
                (configured helpers platform s)) as [evs [Et _]].
    rewrite Et. unfold configured at 1. cbn [trace]. unfold configure_events.
    apply in_or_app. left. apply in_or_app. right.
    right. apply in_or_app. right. apply in_or_app. left. now left.
Qed.

(** X12: when [astro:build:done] can access the output path, the sitemap it
    writes is the processed result of the HTML scan over the builder.  If
    that scan throws, the hook warns and writes what processing gives for the
    builder as the failed scan left it; in both cases only the write step
    decides whether the hook throws. *)
Theorem html_pass_outcome :
  forall (B P : Type) (H : SiteMapBuilder B P) (platform : Platform)
         (s : State) (p : jsstring),
    sitemapProvided s = false ->
    outputPath s = Some p ->
    fs_access platform p = None ->
    let s' := snd (build_done platform s) in
    let scanned :=
      addHTMLContentFolder p
        (pageInclusionRules (sitemapConfig (settings s))) (builder s) in
    let processed := process (fst scanned) in
    settings s' = with_sitemap (settings s) (toSitemap (snd processed))
    /\ builder s' = fst processed
    /\ In (match snd scanned with
           | Some e => Log Warning (msg_html_fallback (toError platform e))
           | None => Log Info msg_html_finished
           end) (trace s')
    /\ fst (build_done platform s)
       = match persist_failure platform (Some p) (settings s') with
         | None => Ok tt
         | Some e => Throw (ThrownError (toError platform e))
         end.
Proof.
  intros B P H platform s p Hp Ho Ha s' scanned processed.
  assert (Hw : when (falsy (outputPath s)) (log Warning msg_no_output) s
               = (Ok tt,
                  mkState (settings s) (builder s) (sitemapProvided s)
                    (outputPath s) (config s)
                    (trace s ++ (if falsy (outputPath s)
                                 then [Log Warning msg_no_output] else [])))).
  { unfold when, log, emit, ret. destruct (falsy (outputPath s)).
    - reflexivity.
    - rewrite app_nil_r. now destruct s. }
  assert (E : before_persist platform s
              = snd (html_pass platform
                       (mkState (settings s) (builder s) (sitemapProvided s)
                          (outputPath s) (config s)
                          (trace s ++ (if falsy (outputPath s)
                                       then [Log Warning msg_no_output]
                                       else []))))).
  { unfold before_persist. now rewrite Hw. }
  match type of E with
  | _ = snd (html_pass platform ?st) =>
      rewrite (@html_pass_scanned _ _ _ platform st p Hp Ho Ha) in E
  end.
  cbn [snd settings builder trace] in E.
  fold scanned in E. fold processed in E.
  subst s'. split; [|split; [|split]].
  - now rewrite build_done_settings, E.
  - now rewrite build_done_run, persist_run, E.
  - rewrite build_done_trace, E. cbn [trace].
    apply in_or_app. left. apply in_or_app. right. apply in_or_app. right.
    destruct (snd scanned); simpl; tauto.
  - rewrite build_done_result. now rewrite Ho.
Qed.

Lemma html_pass_outcome_witness :
  sitemap (sitemapConfig (settings
    (snd (@build_done _ _ sample_builder sample_disk
            (sample_built [lit "site/src/content/docs"])))))
  = Some (sitemap_json (finalize [page_a_html; page_b])).
Proof.
  destruct (@html_pass_outcome _ _ sample_builder sample_disk
              (sample_built [lit "site/src/content/docs"]) (lit "/site/dist/")
              eq_refl eq_refl eq_refl) as [Hs _].
  rewrite Hs. reflexivity.
Defined.

(** X13: a build in which the content root and the output path are
    accessible and both scans return.  The HTML scan runs over the builder
    the Markdown pass has already processed, and the document written is the
    serialization of what the second [process] gives. *)
Theorem build_composes_both_passes :
  forall (B P : Type) (H : SiteMapBuilder B P) (helpers : Helpers)
         (platform : Platform) (s : State),
    let r := contentRoot_of helpers (settings s) (config s) in
    let rules := pageInclusionRules (sitemapConfig (settings s)) in
    let out := output_path_of platform (config s) in
    let markdown :=
      addMDContentFolder r rules
        (setBasePath (base (config s))
           (setTrailingSlash (addTrailingSlash (config s))
              (setContentRoot r (builder s)))) in
    let html :=
      addHTMLContentFolder out rules (fst (process (fst markdown))) in
    let final := toSitemap (snd (process (fst html))) in
    let s1 := snd (config_setup helpers platform build s) in
    let s2 := snd (build_done platform s1) in
    sitemapProvided s = false ->
    fs_access platform r = None ->
    snd markdown = None ->
    fs_access platform out = None ->
    snd html = None ->
    fs_mkdir platform (out ++ lit "/sitegraph") = None ->
    sitemap (sitemapConfig (settings s2)) = Some final
    /\ builder s2 = fst (process (fst html))
    /\ In (WriteFile (out ++ lit "/sitegraph/sitemap.json")
             (Some (stringify final (if debug (settings s) then 2 else 0))))
          (trace s2).
Proof.
  intros B P H helpers platform s r rules out markdown html final s1 s2
         Hp Ha Hm Hao Hh Hmk.
  assert (Hhost : host_accepts platform build) by (intros F; discriminate F).
  assert (E1 : s1 = _)
    by (subst s1; rewrite (@config_setup_scanned _ _ _ helpers platform
                             build s Hp eq_refl Ha Hhost); reflexivity).
  cbn [snd] in E1. fold r rules markdown in E1. rewrite Hm in E1.
  assert (Hp1 : sitemapProvided s1 = false) by now rewrite E1.
  assert (Ho1 : outputPath s1 = Some out) by now rewrite E1.
  assert (Hr1 : pageInclusionRules (sitemapConfig (settings s1)) = rules).
  { rewrite E1. cbn [settings with_sitemap sitemapConfig pageInclusionRules].
    apply configured_rules. }
  assert (Hb1 : builder s1 = fst (process (fst markdown))) by now rewrite E1.
  assert (Hd1 : debug (settings s1) = debug (settings s)).
  { rewrite E1. cbn [settings with_sitemap debug]. apply configured_debug. }
  assert (Es : settings (before_persist platform s1)
               = with_sitemap (settings s1) final
               /\ builder (before_persist platform s1)
                  = fst (process (fst html))).
  { unfold before_persist. rewrite Ho1. cbn [falsy].
    assert (F : isEmpty out = false \/ isEmpty out = true)
      by (destruct (isEmpty out); tauto).
    assert (G : forall st : State,
               sitemapProvided st = false -> outputPath st = Some out ->
               pageInclusionRules (sitemapConfig (settings st)) = rules ->
               builder st = builder s1 -> settings st = settings s1 ->
               settings (snd (html_pass platform st))
               = with_sitemap (settings s1) final
               /\ builder (snd (html_pass platform st))
                  = fst (process (fst html))).
    { intros st Hps Hos Hrs Hbs Hss.
      rewrite (@html_pass_scanned _ _ _ platform st out Hps Hos Hao).
      cbn [snd settings builder]. rewrite Hrs, Hbs, Hb1, Hss.
      split; reflexivity. }
    destruct F as [F|F]; rewrite F; unfold when, log, emit, ret;
      cbn [snd]; apply G; cbn; try assumption; reflexivity. }
  destruct Es as [Es Eb].
  subst s2. split; [|split].
  - rewrite build_done_settings, Es. reflexivity.
  - rewrite build_done_run, persist_run. cbn [snd builder]. exact Eb.
  - rewrite build_done_trace. apply in_or_app. right.
    rewrite build_done_settings, Es, Ho1. unfold persist_events.
    right. unfold sitegraph_dir. cbn [template]. rewrite Hmk.
    left. unfold sitemap_file, document_of. cbn [template].
    cbn [with_sitemap sitemapConfig sitemap debug]. now rewrite Hd1.
Qed.

Lemma build_composes_both_passes_witness :
  In (WriteFile (lit "/site/dist//sitegraph/sitemap.json")
        (Some (stringify (sitemap_json (finalize [page_a_html; page_b])) 0)))
     (trace (snd (@build_done _ _ sample_builder sample_disk
                    (snd (@config_setup _ _ sample_builder sample_helpers
                            sample_disk build sample_start))))).
Proof.
  apply (proj2 (proj2 (@build_composes_both_passes _ _ sample_builder
                         sample_helpers sample_disk sample_start
                         eq_refl eq_refl eq_refl eq_refl eq_refl eq_refl))).
Defined.



End HookProperties.

(* ================================================================== *)
(** * The transform of the compatibility plugin *)
(* ================================================================== *)

Module TransformProperties.
Import Json Integration Parts JsFacts.

Section Replace.

(** A pattern without the character [q], and a replacement that begins and
    ends with [q] and is too short in between to hold the pattern. *)
Variables (pat mid : jsstring) (q : codeunit).
Hypothesis pat_nonempty : pat <> [].
Hypothesis pat_without_q : Forall (fun c => c <> q) pat.
Hypothesis mid_short : (List.length mid < List.length pat)%nat.

#[local] Abbreviation rep := (q :: mid ++ [q]).

Lemma pat_cons : exists c pt, pat = c :: pt.
Proof.
  generalize pat_nonempty. generalize pat. intros [|c pt] Hne;
    [now elim Hne | now exists c, pt].
Qed.

Lemma pat_length : (0 < List.length pat)%nat.
Proof. destruct pat_cons as [c [pt ->]]. simpl. lia. Qed.

Lemma pat_avoids_q (a b : jsstring) : pat <> a ++ q :: b.
Proof.
  intros E. pose proof pat_without_q as Hq. rewrite E in Hq.
  apply Forall_app in Hq as [_ Hq]. inversion Hq. congruence.
Qed.

Lemma Infix_length (a b : jsstring) :
  Infix a b -> (List.length a <= List.length b)%nat.
Proof. intros [l [r ->]]. rewrite !length_app. lia. Qed.

(** An occurrence of the pattern does not go over a [q]. *)
Lemma Infix_around (a b : jsstring) :
  Infix pat (a ++ q :: b) -> Infix pat a \/ Infix pat b.
Proof.
  intros [l [r E]].
  apply app_eq_app in E as [m [[Ea Ep]|[El Eq]]].
  - apply app_eq_app in Ep as [m2 [[Ep Eq]|[Em Er]]].
    + destruct m2 as [|x m2].
      * rewrite app_nil_r in Ep. subst m. left. exists l, [].
        now rewrite app_nil_r.
      * simpl in Eq. injection Eq as Ex _. subst x.
        elim (@pat_avoids_q _ _ Ep).
    + left. subst m. exists l, m2. exact Ea.
  - destruct m as [|x m].
    + destruct pat_cons as [c [pt Ep]]. rewrite Ep in Eq.
      simpl in Eq. injection Eq as Ec _.
      elim (@pat_avoids_q [] pt). simpl. congruence.
    + simpl in Eq. injection Eq as _ Eb. right. now exists m, r.
Qed.

Lemma replace_from_skip (k : nat) (s : jsstring) :
  replace_from pat rep k s = replace_from pat rep 0 (skipn k s).
Proof.
  revert k; induction s as [|c t IH]; intros k.
  - now destruct k.
  - destruct k as [|k]; [reflexivity|]. simpl. apply IH.
Qed.

(** Up to its first replacement the result is the string itself. *)
Lemma replace_from_shape (s : jsstring) :
  exists u w o,
    s = u ++ w /\ replace_from pat rep 0 s = u ++ o
    /\ ((o = [] /\ w = []) \/ exists o', o = q :: o').
Proof.
  induction s as [|c t [u [w [o [Et [Eo Ho]]]]]].
  - exists [], [], []. repeat split. now left.
  - cbn [replace_from]. destruct (startsWith pat (c :: t)).
    + exists [], (c :: t), (rep ++ replace_from pat rep (List.length pat - 1) t).
      repeat split. right. now eexists.
    + exists (c :: u), w, o. rewrite Et at 1. rewrite Eo. repeat split.
      exact Ho.
Qed.

Lemma replace_from_head (c : codeunit) (t : jsstring) :
  startsWith pat (c :: t) = false ->
  startsWith pat (c :: replace_from pat rep 0 t) = false.
Proof.
  intros Hs. destruct (startsWith pat (c :: replace_from pat rep 0 t)) eqn:E;
    [|reflexivity].
  exfalso. apply startsWith_spec in E as [r E].
  destruct (replace_from_shape t) as [u [w [o [Et [Eo Ho]]]]].
  rewrite Eo in E.
  assert (Hno : ~ exists r', c :: t = pat ++ r').
  { intros Hex. apply startsWith_spec in Hex. congruence. }
  change (c :: u ++ o) with ((c :: u) ++ o) in E. symmetry in E.
  apply app_eq_app in E as [m [[Ep Eo']|[Ecu Er]]].
  - destruct m as [|x m].
    + rewrite app_nil_r in Ep. apply Hno. exists w.
      rewrite Ep, Et. reflexivity.
    + destruct Ho as [[Ho _]|[o' Ho]]; rewrite Ho in Eo';
        [discriminate Eo'|].
      simpl in Eo'. injection Eo' as Ex _. subst x.
      elim (@pat_avoids_q _ _ Ep).
  - apply Hno. exists (m ++ w). rewrite Et.
    change (c :: u ++ w) with ((c :: u) ++ w). rewrite Ecu.
    now rewrite <- app_assoc.
Qed.

(** No occurrence of the pattern is left. *)
Lemma replace_from_clean (s : jsstring) :
  ~ Infix pat (replace_from pat rep 0 s).
Proof.
  assert (G : forall n s, (List.length s < n)%nat ->
                          ~ Infix pat (replace_from pat rep 0 s)).
  { clear s. induction n as [|n IH]; intros s Hn; [lia|].
    destruct s as [|c t].
    - intros Hin. apply Infix_length in Hin. simpl in Hin.
      pose proof pat_length. lia.
    - cbn [replace_from]. destruct (startsWith pat (c :: t)) eqn:Es.
      + rewrite replace_from_skip.
        intros Hin.
        apply (Infix_around [] ((mid ++ [q]) ++ _)) in Hin as [Hin|Hin].
        { apply Infix_length in Hin. simpl in Hin.
          pose proof pat_length. lia. }
        rewrite <- app_assoc in Hin. simpl in Hin.
        apply Infix_around in Hin as [Hin|Hin].
        { apply Infix_length in Hin. lia. }
        revert Hin. apply IH.
        pose proof (length_skipn (List.length pat - 1) t).
        simpl in Hn. lia.
      + intros [l [r E]]. destruct l as [|x l].
        * assert (F : startsWith pat (c :: replace_from pat rep 0 t) = true)
            by (apply startsWith_spec; exists r; exact E).
          rewrite (@replace_from_head _ _ Es) in F. discriminate.
        * simpl in E. injection E as _ E.
          apply (IH t); [simpl in Hn; lia|]. now exists l, r. }
  apply (G (S (List.length s))). lia.
Qed.

(** A string without the pattern is left as it is. *)
Lemma replace_from_absent (s : jsstring) :
  includes pat s = false -> replace_from pat rep 0 s = s.
Proof.
  induction s as [|c t IH]; [reflexivity|].
  cbn [includes replace_from]. intros Hi.
  apply orb_false_iff in Hi as [Hs Ht]. rewrite Hs. f_equal. now apply IH.
Qed.

End Replace.

Lemma replaceAll_process_platform (code : jsstring) :
  includes PROCESS_PLATFORM (replaceAll PROCESS_PLATFORM QUOTED_UNDEFINED code)
  = false.
Proof.
  destruct (includes PROCESS_PLATFORM
              (replaceAll PROCESS_PLATFORM QUOTED_UNDEFINED code)) eqn:E;
    [|reflexivity].
  exfalso. apply includes_spec in E. revert E. unfold replaceAll.
  change QUOTED_UNDEFINED with (34%N :: lit "undefined" ++ [34%N]).
  apply replace_from_clean.
  - discriminate.
  - vm_compute. repeat constructor; discriminate.
  - vm_compute. lia.
Qed.

(** X15: when the transform of the compatibility plugin returns code, the
    module id names [picomatch], [micromatch] or [anymatch], the code it was
    given held [process.platform], the code it returns holds none and so
    differs from the one given, and exactly one warning was logged. *)
Theorem transform_removes_process_platform (code id out : jsstring) :
  fst (transform code id) = Some out ->
  includes PROCESS_PLATFORM out = false
  /\ includes PROCESS_PLATFORM code = true
  /\ out <> code
  /\ (includes PICOMATCH id || includes MICROMATCH id
      || includes ANYMATCH id) = true
  /\ snd (transform code id) = [msg_incompatible].
Proof.
  unfold transform.
  destruct (includes PICOMATCH id || includes MICROMATCH id
            || includes ANYMATCH id); [|discriminate].
  destruct (includes PROCESS_PLATFORM code) eqn:Ec; [|discriminate].
  cbn [fst snd]. intros E. injection E as <-.
  pose proof (replaceAll_process_platform code) as Hc.
  repeat split; try assumption.
  intros Eq. rewrite Eq in Hc. congruence.
Qed.

Lemma transform_removes_process_platform_witness :
  includes PROCESS_PLATFORM
    (lit "a=process.platform;b=process.platform") = true
  /\ fst (transform (lit "a=process.platform;b=process.platform")
            (lit "node_modules/picomatch/lib/utils.js"))
     = Some ((lit "a=" ++ QUOTED_UNDEFINED)
             ++ lit ";b=" ++ QUOTED_UNDEFINED)
  /\ includes PROCESS_PLATFORM
       ((lit "a=" ++ QUOTED_UNDEFINED) ++ lit ";b=" ++ QUOTED_UNDEFINED)
     = false.
Proof.
  split; [vm_compute; reflexivity|]. split; [vm_compute; reflexivity|].
  apply (@transform_removes_process_platform
           (lit "a=process.platform;b=process.platform")
           (lit "node_modules/picomatch/lib/utils.js")).
  vm_compute. reflexivity.
Defined.

End TransformProperties.

(* ================================================================== *)
(** * What [sanitizeColorValue] and [getHexColor] guarantee *)
(* ================================================================== *)

Module ColorProperties.
Import Color JsFacts ColorFacts.

Lemma trimStart_head (s t : jsstring) (c : codeunit) :
  trimStart s = c :: t -> is_space c = false.
Proof.
  induction s as [|x s IH]; simpl; [discriminate|].
  destruct (is_space x) eqn:Ex; [exact IH|].
  intros E. injection E as <- _. exact Ex.
Qed.

Lemma trimStart_fixed (s : jsstring) :
  (forall c t, s = c :: t -> is_space c = false) -> trimStart s = s.
Proof.
  destruct s as [|c t]; [reflexivity|]. intros Hc. simpl.
  now rewrite (Hc c t eq_refl).
Qed.

Lemma trimEnd_snoc (s : jsstring) (x : codeunit) :
  trimEnd (s ++ [x]) = if is_space x then trimEnd s else s ++ [x].
Proof.
  unfold trimEnd. rewrite rev_app_distr. simpl.
  destruct (is_space x); [reflexivity|].
  simpl. now rewrite rev_involutive.
Qed.

Lemma trimEnd_length (s : jsstring) :
  (List.length (trimEnd s) <= List.length s)%nat.
Proof.
  destruct (trimEnd_split s) as [w [E _]]. rewrite E at 2.
  rewrite length_app. lia.
Qed.

Lemma trimEnd_idem (s : jsstring) : trimEnd (trimEnd s) = trimEnd s.
Proof.
  unfold trimEnd. rewrite rev_involutive. f_equal.
  apply trimStart_fixed. intros c t E. apply (trimStart_head _ E).
Qed.

(** A string that ends in white space is not the result of [trimEnd]. *)
Lemma trimEnd_last (s r : jsstring) (x : codeunit) :
  trimEnd s = r ++ [x] -> is_space x = false.
Proof.
  intros E. destruct (is_space x) eqn:Ex; [|reflexivity]. exfalso.
  pose proof (trimEnd_idem s) as Hi. rewrite E, trimEnd_snoc, Ex in Hi.
  pose proof (trimEnd_length r) as Hl. rewrite Hi, length_app in Hl.
  simpl in Hl. lia.
Qed.

Lemma trimEnd_fixed (s : jsstring) :
  (forall r x, s = r ++ [x] -> is_space x = false) -> trimEnd s = s.
Proof.
  induction s as [|x r _] using rev_ind; intros Hx; [reflexivity|].
  now rewrite trimEnd_snoc, (Hx r x eq_refl).
Qed.

(** The head of the trimmed string is no white space. *)
Lemma trim_head (s t : jsstring) (c : codeunit) :
  trim s = c :: t -> is_space c = false.
Proof.
  unfold trim. intros E.
  destruct (trimEnd_split (trimStart s)) as [w [Es _]].
  rewrite E in Es. simpl in Es. apply (trimStart_head _ Es).
Qed.

Lemma tail_matches_nil : tail_matches [] = false.
Proof. reflexivity. Qed.

Lemma tail_matches_space (x : codeunit) (q : jsstring) :
  is_space x = true -> tail_matches (x :: q) = tail_matches q.
Proof. intros Hx. unfold tail_matches. simpl. now rewrite Hx. Qed.

Lemma replace_important_nil (s : jsstring) :
  replace_important s = [] -> s = [] \/ tail_matches s = true.
Proof.
  destruct s as [|c t]; [now left|]. cbn [replace_important].
  destruct (tail_matches (c :: t)); [now right | discriminate].
Qed.

Lemma replace_important_matched (s : jsstring) :
  tail_matches s = true -> replace_important s = [].
Proof. intros H. destruct s; cbn [replace_important]; now rewrite H. Qed.

(** What is cut off is nothing, or matches; and it is cut at the leftmost
    place where it matches. *)
Lemma replace_important_cut (s : jsstring) :
  exists q, s = replace_important s ++ q
            /\ (q = [] \/ tail_matches q = true).
Proof.
  induction s as [|c s [q [Hs Hq]]].
  - exists []. split; [reflexivity | now left].
  - cbn [replace_important]. destruct (tail_matches (c :: s)) eqn:Ht.
    + exists (c :: s). split; [reflexivity | now right].
    + exists q. split; [simpl; now f_equal | exact Hq].
Qed.

Lemma replace_important_leftmost (s r : jsstring) (x : codeunit) :
  replace_important s = r ++ [x] ->
  exists q, s = r ++ x :: q
            /\ tail_matches (x :: q) = false
            /\ (q = [] \/ tail_matches q = true).
Proof.
  revert r; induction s as [|c s IH]; intros r.
  - simpl. destruct (tail_matches []); destruct r; discriminate.
  - cbn [replace_important]. destruct (tail_matches (c :: s)) eqn:Ht;
      [destruct r; discriminate|].
    destruct r as [|c' r]; simpl; intros E; injection E as <- E.
    + exists s. split; [reflexivity|]. split; [exact Ht|].
      now apply replace_important_nil.
    + destruct (IH r E) as [q [Hs Hq]]. exists q.
      split; [now rewrite Hs | exact Hq].
Qed.

(** Removing [!important] from a trimmed string leaves a trimmed string. *)
Lemma replace_important_trimmed (s : jsstring) :
  trim (replace_important (trim s)) = replace_important (trim s).
Proof.
  unfold trim at 1.
  assert (Hs : trimStart (replace_important (trim s))
               = replace_important (trim s)).
  { apply trimStart_fixed. intros c t E.
    destruct (replace_important_cut (trim s)) as [q [Hq _]].
    rewrite E in Hq. simpl in Hq. apply (trim_head _ Hq). }
  rewrite Hs. apply trimEnd_fixed. intros r x E.
  destruct (is_space x) eqn:Ex; [|reflexivity]. exfalso.
  destruct (@replace_important_leftmost _ _ _ E) as [q [Hq [Hno Hcut]]].
  rewrite (@tail_matches_space x q Ex) in Hno.
  destruct Hcut as [->|Hm]; [|congruence].
  unfold trim in Hq.
  pose proof (@trimEnd_last _ _ _ Hq) as Hx. congruence.
Qed.

Lemma sanitizeColorValue_cases (color : option jsstring) (r : jsstring) :
  sanitizeColorValue color = Some r ->
  r = RGBA_ZERO
  \/ exists c, color = Some c /\ r = replace_important (trim c)
               /\ includes VAR_OPEN r = false
               /\ ~ In r [NONE; TRANSPARENT; INHERIT; INITIAL; UNSET].
Proof.
  destruct color as [c|]; [|discriminate]. unfold sanitizeColorValue.
  destruct (isEmpty c); [discriminate|].
  destruct (Nat.eqb _ 0); [discriminate|]. cbv zeta.
  destruct (includes VAR_OPEN (replace_important (trim c))) eqn:Ev;
    [discriminate|].
  destruct (eqb (replace_important (trim c)) TRANSPARENT) eqn:Et.
  - rewrite orb_true_r. cbn [orb]. intros E. injection E as <-. now left.
  - rewrite orb_false_r.
    destruct (eqb (replace_important (trim c)) NONE) eqn:En;
      [discriminate|].
    destruct (eqb (replace_important (trim c)) INHERIT) eqn:Ei;
      [discriminate|].
    destruct (eqb (replace_important (trim c)) INITIAL) eqn:Ea;
      [discriminate|].
    destruct (eqb (replace_important (trim c)) UNSET) eqn:Eu;
      [discriminate|].
    cbn [orb]. intros E. injection E as <-. right. exists c.
    split; [reflexivity|]. split; [reflexivity|]. split; [exact Ev|].
    apply eqb_neq in Et, En, Ei, Ea, Eu. simpl.
    intros [E|[E|[E|[E|[E|[]]]]]]; symmetry in E; contradiction.
Qed.

Lemma sanitizeColorValue_trimmed (color : option jsstring) (r : jsstring) :
  sanitizeColorValue color = Some r ->
  trim r = r /\ includes VAR_OPEN r = false.
Proof.
  intros H.
  destruct (@sanitizeColorValue_cases color r H)
    as [->|[c [_ [-> [Hv _]]]]].
  - split; vm_compute; reflexivity.
  - split; [apply replace_important_trimmed | exact Hv].
Qed.

(** X16: what [sanitizeColorValue] returns is ready for a colour parser: it
    has no white space at either end, holds no [var(], and is none of the
    keywords [none], [transparent], [inherit], [initial], [unset]; and it is
    either [rgba(0, 0, 0, 0)] or the beginning of the trimmed input. *)
Theorem sanitized_value_is_clean (color : option jsstring) (r : jsstring) :
  sanitizeColorValue color = Some r ->
  trim r = r
  /\ includes VAR_OPEN r = false
  /\ ~ In r [NONE; TRANSPARENT; INHERIT; INITIAL; UNSET]
  /\ (r = RGBA_ZERO
      \/ exists c rest, color = Some c /\ trim c = r ++ rest).
Proof.
  intros H.
  destruct (@sanitizeColorValue_cases color r H)
    as [->|[c [Hc [Hr [Hv Hk]]]]].
  - split; [vm_compute; reflexivity|]. split; [vm_compute; reflexivity|].
    split; [|now left].
    simpl. intros [E|[E|[E|[E|[E|[]]]]]]; discriminate E.
  - split; [rewrite Hr; apply replace_important_trimmed|].
    split; [exact Hv|]. split; [exact Hk|]. right.
    destruct (replace_important_cut (trim c)) as [q [Hq _]].
    exists c, q. split; [exact Hc|]. rewrite Hr. exact Hq.
Qed.

Lemma sanitized_value_is_clean_witness :
  sanitizeColorValue (Some (lit "  #FF8800  !Important ")) = Some (lit "#FF8800")
  /\ trim (lit "#FF8800") = lit "#FF8800"
  /\ includes VAR_OPEN (lit "#FF8800") = false.
Proof.
  split; [vm_compute; reflexivity|].
  destruct (@sanitized_value_is_clean
              (Some (lit "  #FF8800  !Important ")) (lit "#FF8800"))
    as [Ht [Hv _]]; [vm_compute; reflexivity|].
  split; [exact Ht | exact Hv].
Defined.

(** X17: a value that is nothing but [!important] is not rejected by
    [sanitizeColorValue], which returns the empty string for it; [getHexColor]
    then answers with the fallback without consulting chroma and without a
    warning. *)
Theorem bare_important_falls_back_silently :
  forall (chroma_hex : jsstring -> Result jsstring) (document : Document)
         (c : jsstring) (fallback : option jsstring),
    tail_matches (trim c) = true ->
    sanitizeColorValue (Some c) = Some []
    /\ rejected (Some c) = false
    /\ getHexColor chroma_hex document (Some c) fallback
       = (match fallback with Some f => f | None => BLACK end, []).
Proof.
  intros chroma_hex document c fallback Hm.
  assert (Hs : sanitizeColorValue (Some c) = Some []).
  { unfold sanitizeColorValue.
    destruct c as [|x c]; [discriminate Hm|]. cbn [isEmpty].
    destruct (trim (x :: c)) as [|y t] eqn:Et; [discriminate Hm|].
    cbn [List.length Nat.eqb]. cbv zeta.
    rewrite (replace_important_matched _ Hm). reflexivity. }
  split; [exact Hs|]. split.
  - destruct (rejected (Some c)) eqn:Er; [|reflexivity].
    apply sanitizeColorValue_None_iff in Er. congruence.
  - unfold getHexColor. rewrite Hs. reflexivity.
Qed.

Lemma bare_important_falls_back_silently_witness :
  sanitizeColorValue (Some (lit "  !IMPORTANT ")) = Some []
  /\ rejected (Some (lit "  !IMPORTANT ")) = false
  /\ getHexColor chroma_sample plain_document (Some (lit "  !IMPORTANT "))
       (Some (lit "#4a9eff"))
     = (lit "#4a9eff", []).
Proof.
  apply (@bare_important_falls_back_silently chroma_sample plain_document
           (lit "  !IMPORTANT ") (Some (lit "#4a9eff"))).
  vm_compute. reflexivity.
Defined.

(** X18: [getHexColor] logs at most one warning, and logs one exactly when
    chroma throws on the sanitized, non-empty value: a rejected value falls
    back in silence.  A colour it returns is the fallback, or else chroma's
    reading of a sanitized value, returned without a warning. *)
Theorem getHexColor_warns_iff_chroma_throws :
  forall (chroma_hex : jsstring -> Result jsstring) (document : Document)
         (color fallback : option jsstring),
    let fb := match fallback with Some f => f | None => BLACK end in
    let out := getHexColor chroma_hex document color fallback in
    (List.length (snd out) <= 1)%nat
    /\ (snd out <> []
        <-> exists s e, sanitizeColorValue color = Some s /\ s <> []
                        /\ chroma_hex s = Throw e)
    /\ (fst out = fb
        \/ exists s, sanitizeColorValue color = Some s
                     /\ trim s = s
                     /\ chroma_hex s = Ok (fst out) /\ snd out = []).
Proof.
  intros chroma_hex document color fallback fb out. subst out fb.
  unfold getHexColor.
  destruct (sanitizeColorValue color) as [s|] eqn:Es.
  - destruct s as [|x s]; cbn [isEmpty].
    + split; [simpl; lia|]. split; [|now left].
      split; [intros Hn; now elim Hn|].
      intros [s' [e [E [Hne _]]]]. injection E as <-. now elim Hne.
    + destruct (chroma_hex (x :: s)) as [hex|e] eqn:Ec.
      * split; [simpl; lia|]. split.
        -- split; [intros Hn; now elim Hn|].
           intros [s' [e [E [_ Ht]]]]. injection E as <-. congruence.
        -- right. exists (x :: s). split; [reflexivity|].
           split; [apply (@sanitizeColorValue_trimmed color (x :: s) Es)|].
           now split.
      * destruct (isDarkReaderActive document); cbn [fst snd];
          (split; [simpl; lia|]); (split; [|now left]);
          (split; [intros _; exists (x :: s), e; repeat split;
                   [discriminate | exact Ec]
                  | discriminate]).
  - split; [simpl; lia|]. split; [|now left].
    split; [intros Hn; now elim Hn|].
    intros [s' [e [E _]]]. discriminate E.
Qed.

Lemma getHexColor_warns_iff_chroma_throws_witness :
  snd (getHexColor chroma_sample plain_document (Some (lit "not-a-colour"))
         None) <> []
  <-> exists s e, sanitizeColorValue (Some (lit "not-a-colour")) = Some s
                  /\ s <> [] /\ chroma_sample s = Throw e.
Proof.
  apply (proj1 (proj2 (@getHexColor_warns_iff_chroma_throws chroma_sample
                         plain_document (Some (lit "not-a-colour")) None))).
Defined.

End ColorProperties.

(* ================================================================== *)
(** * What [getGraphColors] and [sanitizeHTML] guarantee *)
(* ================================================================== *)

Module GraphProperties.
Import Color Graph JsFacts ColorFacts ColorProperties.

(** ** Tables *)

Lemma own_put_same (k : jsstring) (v : value)
    (colors : list (jsstring * value)) :
  own k (put k v colors) = Some v.
Proof.
  induction colors as [|[k' v'] rest IH]; simpl.
  - now rewrite eqb_refl.
  - destruct (eqb k k') eqn:E; simpl; [now rewrite eqb_refl|].
    now rewrite E.
Qed.

Lemma own_put_other (k k' : jsstring) (v : value)
    (colors : list (jsstring * value)) :
  k' <> k -> own k' (put k v colors) = own k' colors.
Proof.
  intros Hk. induction colors as [|[k0 v0] rest IH]; simpl.
  - apply eqb_neq in Hk. now rewrite Hk.
  - destruct (eqb k k0) eqn:E; simpl.
    + apply eqb_eq in E. subst k0. apply eqb_neq in Hk. now rewrite Hk.
    + now rewrite IH.
Qed.

Lemma existsb_eqb_In (k : jsstring) (l : list jsstring) :
  existsb (eqb k) l = true <-> In k l.
Proof.
  rewrite existsb_exists. split.
  - intros [x [Hx E]]. apply eqb_eq in E. now subst x.
  - intros Hk. exists k. split; [exact Hk | apply eqb_refl].
Qed.

Ltac each_entry k :=
  repeat match goal with
         | |- context [eqb k ?name] =>
             let E := fresh "E" in
             destruct (eqb k name) eqn:E;
             [apply eqb_eq in E; subst k|]
         end.

(** Every variable name in [cssVariablesMap] is a non-empty string. *)
Lemma cssVariablesMap_truthy (k v : jsstring) :
  own k cssVariablesMap = Some v -> isEmpty v = false.
Proof.
  unfold cssVariablesMap. cbn [own].
  each_entry k; intros Hv; try discriminate Hv; injection Hv as <-;
    reflexivity.
Qed.

(** Every fallback in [COLOR_FALLBACKS] is a non-empty string, and none of
    its keys is inherited. *)
Lemma COLOR_FALLBACKS_truthy (k v : jsstring) :
  own k COLOR_FALLBACKS = Some v ->
  isEmpty v = false /\ ~ In k OBJECT_PROTOTYPE.
Proof.
  unfold COLOR_FALLBACKS. cbn [own].
  each_entry k; intros Hv; try discriminate Hv; injection Hv as <-;
    (split; [reflexivity|]); intros Hin; apply existsb_eqb_In in Hin;
    vm_compute in Hin; discriminate Hin.
Qed.

Section Colours.

Variable chroma_hex : jsstring -> Result jsstring.
Variable document : Document.
Variable getPropertyValue : jsstring -> jsstring.
Variable member_text : jsstring -> jsstring.

#[local] Abbreviation getHexColor_value :=
  (getHexColor_value chroma_hex document member_text).
#[local] Abbreviation color_for :=
  (color_for chroma_hex document getPropertyValue member_text).
#[local] Abbreviation each_color :=
  (each_color chroma_hex document getPropertyValue member_text).
#[local] Abbreviation getGraphColors :=
  (getGraphColors chroma_hex document getPropertyValue member_text).
#[local] Abbreviation good := (good chroma_hex).

(** With a string for fallback, it is [getHexColor]. *)
Lemma getHexColor_value_Str (color f : jsstring) :
  getHexColor_value color (Str f)
  = (Str (fst (getHexColor chroma_hex document (Some color) (Some f))),
     snd (getHexColor chroma_hex document (Some color) (Some f))).
Proof.
  unfold Graph.getHexColor_value, getHexColor.
  destruct (sanitizeColorValue (Some color)) as [r|]; [|reflexivity].
  destruct (isEmpty r); [reflexivity|].
  destruct (chroma_hex r); [reflexivity|].
  now destruct (isDarkReaderActive document).
Qed.

(** The fallback of a name that is not inherited is a string: the one of
    the table, or black. *)
Lemma fallback_of_plain (k : jsstring) :
  ~ In k OBJECT_PROTOTYPE ->
  fallback_of k
  = Str (match own k COLOR_FALLBACKS with Some f => f | None => BLACK end).
Proof.
  intros Hk. unfold fallback_of, member.
  destruct (own k COLOR_FALLBACKS) as [f|] eqn:E.
  - destruct (@COLOR_FALLBACKS_truthy k f E) as [Hf _].
    cbn [truthy_value]. now rewrite Hf.
  - destruct (existsb (eqb k) OBJECT_PROTOTYPE) eqn:Ei; [|reflexivity].
    apply existsb_eqb_In in Ei. contradiction.
Qed.

Lemma fallback_of_inherited (k : jsstring) :
  In k OBJECT_PROTOTYPE -> fallback_of k = Member k.
Proof.
  intros Hk. unfold fallback_of, member.
  destruct (own k COLOR_FALLBACKS) as [f|] eqn:E.
  - destruct (@COLOR_FALLBACKS_truthy k f E) as [_ Hn]. contradiction.
  - apply existsb_eqb_In in Hk. now rewrite Hk.
Qed.

Lemma getHexColor_value_good (k color : jsstring) :
  good k (fst (getHexColor_value color (fallback_of k))).
Proof.
  unfold Graph.getHexColor_value.
  destruct (sanitizeColorValue (Some color)) as [r|] eqn:Er; [|now left].
  destruct (isEmpty r); [now left|].
  destruct (chroma_hex r) as [hex|e] eqn:Ec.
  - right. exists r, hex.
    destruct (@sanitizeColorValue_trimmed _ _ Er) as [Ht Hv]. now repeat split.
  - destruct (isDarkReaderActive document); now left.
Qed.

Lemma color_for_outcome (custom : list (jsstring * jsstring))
    (k : jsstring) :
  (unknown custom k /\ color_for custom k = Throw undefined_startsWith)
  \/ (~ unknown custom k
      /\ exists v warnings, color_for custom k = Ok (v, warnings)
                            /\ good k v).
Proof.
  unfold Graph.color_for, unknown, member. cbv zeta.
  destruct (own k cssVariablesMap) as [c|] eqn:Ec.
  - right. split; [intros [E _]; discriminate E|].
    cbn [truthy_value]. rewrite (@cssVariablesMap_truthy k c Ec). cbn [negb].
    destruct (getHexColor_value (getPropertyValue (text member_text (Str c)))
                (fallback_of k)) as [v w] eqn:E.
    exists v, w. split; [reflexivity|].
    change v with (fst (v, w)). rewrite <- E. apply getHexColor_value_good.
  - destruct (existsb (eqb k) OBJECT_PROTOTYPE) eqn:Ei.
    + right. apply existsb_eqb_In in Ei.
      split; [intros [_ [Hn _]]; contradiction|].
      cbn [truthy_value].
      destruct (getHexColor_value
                  (getPropertyValue (text member_text (Member k)))
                  (fallback_of k)) as [v w] eqn:E.
      exists v, w. split; [reflexivity|].
      change v with (fst (v, w)). rewrite <- E. apply getHexColor_value_good.
    + assert (Hn : ~ In k OBJECT_PROTOTYPE).
      { intros Hin. apply existsb_eqb_In in Hin. congruence. }
      destruct (own k custom) as [c|] eqn:Eo.
      * right. split; [intros [_ [_ E]]; discriminate E|].
        destruct (startsWith (lit "--") c).
        -- destruct (isEmpty (getPropertyValue c)); cbn [negb].
           ++ exists (fallback_of k), [warn_not_found c
                                         (text member_text (fallback_of k))].
              split; [reflexivity | now left].
           ++ destruct (getHexColor_value (getPropertyValue c)
                          (fallback_of k)) as [v w] eqn:E.
              exists v, w. split; [reflexivity|].
              change v with (fst (v, w)). rewrite <- E.
              apply getHexColor_value_good.
        -- destruct (getHexColor_value c (fallback_of k)) as [v w] eqn:E.
           exists v, w. split; [reflexivity|].
           change v with (fst (v, w)). rewrite <- E.
           apply getHexColor_value_good.
      * left. now repeat split.
Qed.

Lemma each_color_throws (custom : list (jsstring * jsstring))
    (ids : list jsstring) :
  forall colors logs,
    (exists e, fst (each_color custom ids colors logs) = Throw e)
    <-> Exists (unknown custom) ids.
Proof.
  induction ids as [|k ids IH]; intros colors logs; cbn [Graph.each_color].
  - split; [intros [e E]; discriminate E | intros E; inversion E].
  - destruct (color_for_outcome custom k)
      as [[Hu E]|[Hk [v [w [E _]]]]]; rewrite E.
    + split; [intros _; now left | intros _; now eexists].
    + rewrite IH. split; [intros Hr; now right|].
      intros Hr. inversion Hr; [contradiction | assumption].
Qed.

Lemma BUILT_IN_known (custom : list (jsstring * jsstring)) :
  ~ Exists (unknown custom) BUILT_IN.
Proof.
  intros Hex. apply Exists_exists in Hex as [k [Hk [E _]]].
  unfold BUILT_IN in Hk. simpl in Hk.
  repeat (destruct Hk as [<-|Hk]; [vm_compute in E; discriminate E|]).
  exact Hk.
Qed.

Lemma each_color_values (custom : list (jsstring * jsstring))
    (ids : list jsstring) :
  forall colors logs result,
    fst (each_color custom ids colors logs) = Ok result ->
    (forall k v, own k result = Some v ->
                 own k colors = Some v \/ (In k ids /\ good k v))
    /\ (forall k, (In k ids /\ k <> PROTO) \/ own k colors <> None ->
                  own k result <> None).
Proof.
  induction ids as [|id ids IH]; intros colors logs result;
    cbn [Graph.each_color].
  - cbn [fst]. intros E. injection E as <-. split.
    + intros k v Hv. now left.
    + intros k [[[] _]|Hk]. exact Hk.
  - destruct (color_for_outcome custom id)
      as [[Hu E]|[Hk [v [w [E Hg]]]]]; rewrite E; [discriminate|].
    intros Hr. destruct (IH _ _ _ Hr) as [Hvals Hkeys]. split.
    + intros k v0 Hv0. destruct (Hvals k v0 Hv0) as [Ho|[Hin Hgood]].
      * unfold assign in Ho. destruct (eqb id PROTO); [now left|].
        destruct (eqb k id) eqn:Ek.
        -- apply eqb_eq in Ek. subst k. rewrite own_put_same in Ho.
           injection Ho as <-. right. split; [now left | exact Hg].
        -- apply eqb_neq in Ek. rewrite (own_put_other _ _ Ek) in Ho.
           now left.
      * right. split; [now right | exact Hgood].
    + intros k Hk'. apply Hkeys.
      destruct (eqb k id) eqn:Ek.
      * apply eqb_eq in Ek. subst k. unfold assign.
        destruct (eqb id PROTO) eqn:Ep.
        -- apply eqb_eq in Ep.
           destruct Hk' as [[_ Hp]|Hp]; [contradiction | now right].
        -- right. rewrite own_put_same. discriminate.
      * apply eqb_neq in Ek. destruct Hk' as [[[Heq|Hin] Hp]|Ho].
        -- now elim Ek.
        -- now left.
        -- right. unfold assign. destruct (eqb id PROTO); [exact Ho|].
           now rewrite (own_put_other _ _ Ek).
Qed.

End Colours.

(** X19: [getGraphColors] throws exactly when one of the included colours is
    unknown: neither a key of [cssVariablesMap], nor a name inherited from
    [Object.prototype], nor a key of the custom colour map.  What it throws
    is the [TypeError] of calling [startsWith] on [undefined]. *)
Theorem getGraphColors_throws_iff_unknown :
  forall (chroma_hex : jsstring -> Result jsstring) (document : Document)
         (getPropertyValue member_text : jsstring -> jsstring)
         (included_colors : list jsstring)
         (custom_color_map : list (jsstring * jsstring)),
    let outcome :=
      fst (getGraphColors chroma_hex document getPropertyValue member_text
             included_colors custom_color_map) in
    ((exists e, outcome = Throw e)
     <-> Exists (unknown custom_color_map) included_colors)
    /\ (outcome = Throw undefined_startsWith \/ exists colors, outcome = Ok colors).
Proof.
  intros chroma_hex document getPropertyValue member_text included custom
    outcome. subst outcome. unfold getGraphColors. split.
  - rewrite each_color_throws, Exists_app. split; [|now right].
    intros [Hb|Hi]; [now apply BUILT_IN_known in Hb | exact Hi].
  - generalize (BUILT_IN ++ included).
    generalize (if isDarkReaderActive document
                then [ConsoleInfo msg_dark_reader] else []).
    generalize (@nil (jsstring * value)).
    intros colors logs ids. revert colors logs.
    induction ids as [|k ids IH]; intros colors logs; cbn [each_color].
    + right. now eexists.
    + destruct (color_for_outcome chroma_hex document getPropertyValue
                  member_text custom k)
        as [[Hu E]|[Hk [v [w [E _]]]]]; rewrite E; [now left | apply IH].
Qed.

Lemma getGraphColors_throws_iff_unknown_witness :
  (exists e,
     fst (getGraphColors chroma_sample plain_document style_sample
            member_text_sample [lit "accent"] []) = Throw e)
  <-> Exists (unknown []) [lit "accent"].
Proof.
  apply (proj1 (@getGraphColors_throws_iff_unknown chroma_sample
                  plain_document style_sample member_text_sample
                  [lit "accent"] [])).
Defined.

(** X20: in the object [getGraphColors] returns, every included colour and
    every built-in one has a value (but for [__proto__], which makes no
    property), and there is no other key.  The value of a key is the
    fallback of that key, or else what chroma reads in a sanitized string;
    the fallback of a key that is no inherited name is the string
    [COLOR_FALLBACKS] has for it, or [#000000]. *)
Theorem getGraphColors_values :
  forall (chroma_hex : jsstring -> Result jsstring) (document : Document)
         (getPropertyValue member_text : jsstring -> jsstring)
         (included_colors : list jsstring)
         (custom_color_map : list (jsstring * jsstring))
         (colors : list (jsstring * value)),
    fst (getGraphColors chroma_hex document getPropertyValue member_text
           included_colors custom_color_map) = Ok colors ->
    (forall k, In k (BUILT_IN ++ included_colors) -> k <> PROTO ->
               own k colors <> None)
    /\ (forall k v, own k colors = Some v ->
          In k (BUILT_IN ++ included_colors)
          /\ (v = fallback_of k
              \/ exists s hex, trim s = s /\ includes VAR_OPEN s = false
                               /\ chroma_hex s = Ok hex /\ v = Str hex))
    /\ (forall k, ~ In k OBJECT_PROTOTYPE ->
          fallback_of k
          = Str (match own k COLOR_FALLBACKS with
                 | Some f => f
                 | None => BLACK
                 end)).
Proof.
  intros chroma_hex document getPropertyValue member_text included custom
    colors Hr.
  destruct (each_color_values _ _ _ _ _ _ _ _ Hr) as [Hvals Hkeys].
  split; [|split].
  - intros k Hin Hp. apply Hkeys. left. now split.
  - intros k v Hv. destruct (Hvals k v Hv) as [Ho|[Hin Hg]];
      [discriminate Ho|]. split; [exact Hin | exact Hg].
  - apply fallback_of_plain.
Qed.

Lemma getGraphColors_values_witness :
  fst (getGraphColors chroma_sample plain_document style_sample
         member_text_sample [lit "nodeColor"; lit "accent"]
         [(lit "accent", lit "--accent")])
  = Ok [(lit "nodeColorHover", Str (lit "#2d7dd2"));
        (lit "nodeColorAdjacent", Str (lit "#80c0ff"));
        (lit "nodeColorMuted", Str (lit "#cccccc"));
        (lit "linkColorHover", Str (lit "#555555"));
        (lit "linkColorMuted", Str (lit "#dddddd"));
        (lit "nodeColor", Str (lit "#ff0000"));
        (lit "accent", Str (lit "#000000"))]
  /\ forall k, ~ In k OBJECT_PROTOTYPE ->
       fallback_of k
       = Str (match own k COLOR_FALLBACKS with
              | Some f => f
              | None => BLACK
              end).
Proof.
  split; [vm_compute; reflexivity|].
  apply (@getGraphColors_values chroma_sample plain_document style_sample
           member_text_sample [lit "nodeColor"; lit "accent"]
           [(lit "accent", lit "--accent")]
           [(lit "nodeColorHover", Str (lit "#2d7dd2"));
            (lit "nodeColorAdjacent", Str (lit "#80c0ff"));
            (lit "nodeColorMuted", Str (lit "#cccccc"));
            (lit "linkColorHover", Str (lit "#555555"));
            (lit "linkColorMuted", Str (lit "#dddddd"));
            (lit "nodeColor", Str (lit "#ff0000"));
            (lit "accent", Str (lit "#000000"))]).
  vm_compute. reflexivity.
Defined.

(** ** [sanitizeHTML] *)

Lemma escape_unit_cases (c : codeunit) :
  (c <> 38 /\ c <> 160 /\ c <> 60 /\ c <> 62 /\ escape_unit c = [c])
  \/ exists name, In name REFERENCES /\ escape_unit c = 38 :: name.
Proof.
  unfold escape_unit.
  destruct (N.eqb c 38) eqn:E1; [right; exists (lit "amp;"); split;
                                  [vm_compute; tauto | reflexivity]|].
  destruct (N.eqb c 160) eqn:E2; [right; exists (lit "nbsp;"); split;
                                   [vm_compute; tauto | reflexivity]|].
  destruct (N.eqb c 60) eqn:E3; [right; exists (lit "lt;"); split;
                                  [vm_compute; tauto | reflexivity]|].
  destruct (N.eqb c 62) eqn:E4; [right; exists (lit "gt;"); split;
                                  [vm_compute; tauto | reflexivity]|].
  apply N.eqb_neq in E1, E2, E3, E4. left. now repeat split.
Qed.

(** No name of a reference holds a character that is escaped. *)
Lemma REFERENCES_plain (name : jsstring) :
  In name REFERENCES ->
  Forall (fun c => c <> 38 /\ c <> 160 /\ c <> 60 /\ c <> 62) name.
Proof.
  unfold REFERENCES. simpl.
  intros [<-|[<-|[<-|[<-|[]]]]]; repeat constructor; discriminate.
Qed.

Lemma escaped_plain (s : jsstring) :
  Forall (fun c => c <> 160 /\ c <> 60 /\ c <> 62)
    (flat_map escape_unit s).
Proof.
  induction s as [|c s IH]; [constructor|]. cbn [flat_map].
  apply Forall_app. split; [|exact IH].
  destruct (escape_unit_cases c) as [[_ [H1 [H2 [H3 ->]]]]|[name [Hn ->]]].
  - repeat constructor; assumption.
  - constructor; [repeat split; discriminate|].
    eapply Forall_impl; [|apply (@REFERENCES_plain _ Hn)].
    intros a [_ Ha]. exact Ha.
Qed.

(** An ampersand of the result begins a reference. *)
Lemma escaped_ampersand (s : jsstring) :
  forall a b, flat_map escape_unit s = a ++ 38 :: b ->
              exists name, In name REFERENCES /\ startsWith name b = true.
Proof.
  induction s as [|c s IH]; intros a b E.
  - destruct a; discriminate E.
  - cbn [flat_map] in E.
    destruct (escape_unit_cases c) as [[H0 [_ [_ [_ Hc]]]]|[name [Hn Hc]]];
      rewrite Hc in E.
    + destruct a as [|x a]; simpl in E; injection E as Ex E.
      * now elim H0.
      * apply (IH a b E).
    + destruct a as [|x a]; simpl in E.
      * injection E as E. exists name. split; [exact Hn|].
        apply startsWith_spec. eexists. symmetry. exact E.
      * injection E as Ex E. apply app_eq_app in E as [m [[Ea Eb]|[Ea Eb]]].
        -- (* the ampersand would lie inside the name *)
           destruct m as [|y m].
           ++ rewrite app_nil_r in Ea. simpl in Eb.
              apply (IH [] b). now rewrite <- Eb.
           ++ simpl in Eb. injection Eb as <- Eb.
              pose proof (@REFERENCES_plain _ Hn) as Hp.
              rewrite Ea in Hp. apply Forall_app in Hp as [_ Hp].
              inversion Hp as [|? ? [Hy _] _]. now elim Hy.
        -- apply (IH m b). exact Eb.
Qed.

Lemma escaped_unchanged (s : jsstring) :
  Forall (fun c => c <> 38 /\ c <> 160 /\ c <> 60 /\ c <> 62) s ->
  flat_map escape_unit s = s.
Proof.
  induction 1 as [|c s [H1 [H2 [H3 H4]]] _ IH]; [reflexivity|].
  cbn [flat_map]. rewrite IH.
  destruct (escape_unit_cases c) as [[_ [_ [_ [_ ->]]]]|[name [Hn Hc]]];
    [reflexivity|].
  exfalso. unfold escape_unit in Hc.
  apply N.eqb_neq in H1, H2, H3, H4. rewrite H1, H2, H3, H4 in Hc.
  injection Hc as Hc _. apply N.eqb_neq in H1. contradiction.
Qed.

(** X21: the string [sanitizeHTML] returns holds no [<], no [>] and no
    no-break space, and each of its ampersands begins one of the references
    [&amp;], [&nbsp;], [&lt;], [&gt;]; a string without these four
    characters is returned as it is.  Quotes are not among them. *)
Theorem sanitizeHTML_escapes_markup :
  forall input : option jsstring,
    let out := sanitizeHTML input in
    Forall (fun c => c <> 160 /\ c <> 60 /\ c <> 62) out
    /\ (forall a b, out = a ++ 38 :: b ->
          exists name, In name REFERENCES /\ startsWith name b = true)
    /\ (forall s, input = Some s ->
          Forall (fun c => c <> 38 /\ c <> 160 /\ c <> 60 /\ c <> 62) s ->
          out = s).
Proof.
  intros input out. subst out. unfold sanitizeHTML.
  destruct input as [s|].
  - destruct s as [|c s]; cbn [isEmpty].
    + split; [constructor|]. split.
      * intros a b E. destruct a; discriminate E.
      * intros s [= <-] _. reflexivity.
    + split; [apply escaped_plain|]. split; [apply escaped_ampersand|].
      intros s' [= <-]. apply escaped_unchanged.
  - split; [constructor|]. split.
    + intros a b E. destruct a; discriminate E.
    + intros s E. discriminate E.
Qed.

Lemma sanitizeHTML_escapes_markup_witness :
  sanitizeHTML (Some ([34] ++ lit "quoted" ++ [34]))
  = [34] ++ lit "quoted" ++ [34].
Proof.
  apply (proj2 (proj2 (sanitizeHTML_escapes_markup
                         (Some ([34] ++ lit "quoted" ++ [34]))))
               ([34] ++ lit "quoted" ++ [34]) eq_refl).
  vm_compute. repeat constructor; discriminate.
Defined.

End GraphProperties.
